(** * datahugger: the base dataset downloader (src/datahugger/base.py)

    A shallow embedding of [DatasetDownloader]: attribute extraction through
    JSONPath, the recursive listing of a repository, the resolution of the
    URL parameters, the per-file download, the unpacking of a single zip
    archive and the checksum pass.

    Python values are dynamically typed, so records are JSON trees and every
    operation that Python checks at run time (indexing, [.endswith], [>=],
    [re.match] on a non-string) returns an [outcome]: a value or a raised
    exception.  Only exceptions derived from [Exception] are modelled, these
    are the ones a [try ... except Exception] clause catches; asynchronous
    interrupts ([KeyboardInterrupt], [SystemExit]) are outside the model. *)

From Stdlib Require Import ZArith Ascii String List Bool Lia.
From stdpp Require Import base option list gmap strings.

Local Open Scope string_scope.
Local Open Scope Z_scope.
Local Open Scope list_scope.
Local Set Warnings "-register-all".

(** ** Python values *)

(** What [res.json()] returns: a tree of maps, sequences and scalars
    (floats are left out).  A JSON object keeps its keys in order. *)
Inductive value : Type :=
| VNone
| VBool (b : bool)
| VInt (z : Z)
| VStr (s : string)
| VList (l : list value)
| VDict (d : list (string * value)).

(** Python truthiness, as used by [if next_url:]. *)
Definition truthy (v : value) : bool :=
  match v with
  | VNone => false
  | VBool b => b
  | VInt z => negb (z =? 0)
  | VStr s => negb (String.eqb s "")
  | VList l => match l with [] => false | _ => true end
  | VDict d => match d with [] => false | _ => true end
  end.

(** [v == "..."] against a string literal. *)
Definition eq_str (v : value) (s : string) : bool :=
  match v with
  | VStr t => String.eqb t s
  | _ => false
  end.

(** ** Exceptions and outcomes *)

Inductive exn : Type :=
| IndexError
| TypeError
| AttributeError
| ValueError (msg : string)
| KeyError
| HTTPError
| OSError
| ReError
| JsonPathError
| BadZipFile.

Inductive outcome (A : Type) : Type :=
| Return (a : A)
| Raise (e : exn).
Arguments Return {A} a.
Arguments Raise {A} e.

Definition obind {A B} (m : outcome A) (k : A -> outcome B) : outcome B :=
  match m with
  | Return a => k a
  | Raise e => Raise e
  end.

(** [try: body except Exception: handler] on pure code. *)
Definition try_except {A} (body : outcome A) (handler : exn -> outcome A) : outcome A :=
  match body with
  | Return a => Return a
  | Raise e => handler e
  end.

Notation "'let?' x ':=' m 'in' k" := (obind m (fun x => k))
  (at level 10, x pattern, m at level 100, k at level 200).

(** [l[0]] *)
Definition index0 {A} (l : list A) : outcome A :=
  match l with
  | [] => Raise IndexError
  | x :: _ => Return x
  end.

(** ** Strings and paths *)

Definition bytes : Type := list Byte.byte.

Definition slash : ascii := "/"%char.

(** [s.split("/")] *)
Fixpoint split_slash (s : string) : list string :=
  match s with
  | EmptyString => [EmptyString]
  | String c r =>
      if Ascii.eqb c slash then EmptyString :: split_slash r
      else match split_slash r with
           | [] => [String c EmptyString]
           | h :: t => String c h :: t
           end
  end.

(** [s.endswith(suffix)] *)
Definition endswith (s suffix : string) : bool :=
  let n := String.length s in
  let k := String.length suffix in
  (k <=? n)%nat && String.eqb (String.substring (n - k) k s) suffix.

(** [os.path.basename]: what follows the last slash. *)
Definition basename (p : string) : string := List.last (split_slash p) EmptyString.

(** [os.path.join(a, b)] *)
Definition os_path_join (a b : string) : string :=
  match b with
  | String c _ => if Ascii.eqb c slash then b
                  else if String.eqb a "" then b
                  else if endswith a "/" then a +:+ b else a +:+ "/" +:+ b
  | EmptyString => if String.eqb a "" then "" else if endswith a "/" then a else a +:+ "/"
  end.

(** [pathlib]: the root of a POSIX path (exactly two leading slashes are
    kept, one or more than two collapse to one) and its parts (empty and
    [.] segments are dropped, [..] is kept). *)
Definition path_root (s : string) : string :=
  match s with
  | String a (String b (String c _)) =>
      if Ascii.eqb a slash then
        if Ascii.eqb b slash then (if Ascii.eqb c slash then "/" else "//") else "/"
      else ""
  | String a (String b EmptyString) =>
      if Ascii.eqb a slash then (if Ascii.eqb b slash then "//" else "/") else ""
  | String a EmptyString => if Ascii.eqb a slash then "/" else ""
  | EmptyString => ""
  end.

Definition path_parts (s : string) : list string :=
  List.filter (fun p => negb (String.eqb p "") && negb (String.eqb p ".")) (split_slash s).

(** [str(Path(a, b))] *)
Definition Path2 (a b : string) : string :=
  let root := if String.eqb (path_root b) "" then path_root a else path_root b in
  let parts := if String.eqb (path_root b) "" then path_parts a ++ path_parts b
               else path_parts b in
  match parts with
  | [] => if String.eqb root "" then "." else root
  | _ => root +:+ String.concat "/" parts
  end.

(** [Path(a, b)] on Python values: both arguments must be strings. *)
Definition Path2v (a b : value) : outcome string :=
  match a, b with
  | VStr x, VStr y => Return (Path2 x y)
  | _, _ => Raise TypeError
  end.

(** [for x in v]: a list gives its items, a dict its keys, a string its
    characters; anything else is not iterable. *)
Definition iterate (v : value) : outcome (list value) :=
  match v with
  | VList l => Return l
  | VDict d => Return (List.map (fun kv => VStr (fst kv)) d)
  | VStr s => Return (List.map (fun c => VStr (String c EmptyString)) (list_ascii_of_string s))
  | _ => Raise TypeError
  end.

(** [s[-1]] *)
Definition last_char (s : string) : outcome ascii :=
  match List.rev (list_ascii_of_string s) with
  | [] => Raise IndexError
  | c :: _ => Return c
  end.

(** [v.endswith(suffix)]: only a string has the method. *)
Definition endswith_v (v : value) (suffix : string) : outcome bool :=
  match v with
  | VStr s => Return (endswith s suffix)
  | _ => Raise AttributeError
  end.

Definition all_slashes (s : string) : bool :=
  List.forallb (fun c => Ascii.eqb c slash) (list_ascii_of_string s).

Fixpoint drop_slashes (l : list ascii) : list ascii :=
  match l with
  | c :: r => if Ascii.eqb c slash then drop_slashes r else l
  | [] => []
  end.

(** [s.rstrip("/")] *)
Definition rstrip_slash (s : string) : string :=
  string_of_list_ascii (List.rev (drop_slashes (List.rev (list_ascii_of_string s)))).

(** [os.path.dirname]: the head up to the last slash, without its trailing
    slashes unless it consists of slashes only. *)
Definition dirname (p : string) : string :=
  match split_slash p with
  | [] | [_] => ""
  | parts =>
      let head := String.concat "/" (List.removelast parts) +:+ "/" in
      if all_slashes head then head else rstrip_slash head
  end.

(** [os.path.normpath] *)
Definition normpath (path : string) : string :=
  if String.eqb path "" then "."
  else
    let root := path_root path in
    let step (new_comps : list string) (comp : string) : list string :=
      if String.eqb comp "" || String.eqb comp "." then new_comps
      else if negb (String.eqb comp "..")
              || (String.eqb root "" && match new_comps with [] => true | _ => false end)
              || String.eqb (List.last new_comps "") ".."
           then new_comps ++ [comp]
           else List.removelast new_comps in
    let comps := List.fold_left step (split_slash path) [] in
    let p := root +:+ String.concat "/" comps in
    if String.eqb p "" then "." else p.

(** [str(Path(p).parent)] for [p] as [Path2] prints it. *)
Definition path_parent (p : string) : string :=
  match path_parts p with
  | [] => p
  | parts =>
      let q := path_root p +:+ String.concat "/" (List.removelast parts) in
      if String.eqb q "" then "." else q
  end.

(** A directory path and the directories above it, outermost first. *)
Fixpoint prefix_paths (acc : string) (first : bool) (parts : list string) : list string :=
  match parts with
  | [] => []
  | p :: rest =>
      let a := if first then acc +:+ p else acc +:+ "/" +:+ p in
      a :: prefix_paths a false rest
  end.

Definition ancestors (d : string) : list string :=
  prefix_paths (path_root d) true (path_parts d).

(** ** Regular expressions

    The patterns that file filters are usually written in are given a
    meaning here: literal characters, [\c] for a punctuation character [c],
    [.] (any character but a newline), [^], [$] (the end of the string, or
    just before a newline that ends it) and a postfix [*] on a character.
    For a pattern with any other construct the answer is left to the
    library ([Beyond]). *)

Inductive catom : Type :=
| CLit (c : ascii)
| CAny.

Inductive token : Type :=
| TChar (a : catom)
| TStar
| TBol
| TEol.

Inductive ritem : Type :=
| RChar (a : catom)
| RStar (a : catom)
| RBol
| REol.

(** The outcome of reading a pattern: understood, rejected by [re.compile],
    or outside the constructs above. *)
Inductive parsed (A : Type) : Type :=
| Parsed (a : A)
| Invalid
| Beyond.
Arguments Parsed {A} a.
Arguments Invalid {A}.
Arguments Beyond {A}.

Definition parsed_map {A B} (f : A -> B) (r : parsed A) : parsed B :=
  match r with
  | Parsed a => Parsed (f a)
  | Invalid => Invalid
  | Beyond => Beyond
  end.

Definition is_alnum (c : ascii) : bool :=
  let n := nat_of_ascii c in
  ((48 <=? n) && (n <=? 57) || (65 <=? n) && (n <=? 90) || (97 <=? n) && (n <=? 122))%nat.

Definition is_operator (c : ascii) : bool :=
  List.existsb (Ascii.eqb c) (list_ascii_of_string "+?{}[]()|").

Fixpoint re_tokens (s : string) : parsed (list token) :=
  match s with
  | EmptyString => Parsed []
  | String c r =>
      if Ascii.eqb c "\"%char then
        match r with
        | EmptyString => Invalid
        | String e r' =>
            if is_alnum e then Beyond
            else parsed_map (cons (TChar (CLit e))) (re_tokens r')
        end
      else if is_operator c then Beyond
      else
        let t := if Ascii.eqb c "."%char then TChar CAny
                 else if Ascii.eqb c "*"%char then TStar
                 else if Ascii.eqb c "^"%char then TBol
                 else if Ascii.eqb c "$"%char then TEol
                 else TChar (CLit c) in
        parsed_map (cons t) (re_tokens r)
  end.

(** A [*] needs a character before it. *)
Fixpoint re_items (ts : list token) : parsed (list ritem) :=
  match ts with
  | [] => Parsed []
  | TChar a :: TStar :: rest => parsed_map (cons (RStar a)) (re_items rest)
  | TChar a :: rest => parsed_map (cons (RChar a)) (re_items rest)
  | TBol :: rest => parsed_map (cons RBol) (re_items rest)
  | TEol :: rest => parsed_map (cons REol) (re_items rest)
  | TStar :: _ => Invalid
  end.

(** [re.compile] *)
Definition re_compile (pattern : string) : parsed (list ritem) :=
  match re_tokens pattern with
  | Parsed ts => re_items ts
  | Invalid => Invalid
  | Beyond => Beyond
  end.

Definition newline : ascii := ascii_of_nat 10.

Definition catom_accepts (a : catom) (c : ascii) : bool :=
  match a with
  | CLit x => Ascii.eqb x c
  | CAny => negb (Ascii.eqb c newline)
  end.

Definition at_end (s : string) : bool :=
  match s with
  | EmptyString => true
  | String c EmptyString => Ascii.eqb c newline
  | _ => false
  end.

(** Does the pattern match at the current position?  [at_start] tells
    whether that position is the beginning of the subject. *)
Fixpoint match_here (p : list ritem) (at_start : bool) (s : string) : bool :=
  match p with
  | [] => true
  | RBol :: p' => at_start && match_here p' at_start s
  | REol :: p' => at_end s && match_here p' at_start s
  | RChar a :: p' =>
      match s with
      | String c s' => catom_accepts a c && match_here p' false s'
      | EmptyString => false
      end
  | RStar a :: p' =>
      (fix star (at_start : bool) (s : string) : bool :=
         match_here p' at_start s
         || match s with
            | String c s' => catom_accepts a c && star false s'
            | EmptyString => false
            end) at_start s
  end.

(** ** The world a session runs in *)

(** The answer to [requests.get]. *)
Record response : Type := {
  status_ok : bool;
  content : bytes;
  body_json : outcome value;
  (** [int(res.headers.get("content-length", 0))] *)
  content_length : outcome Z;
  (** [res.iter_content(chunk_size=4096)]: the chunks it yields, and the
      exception that ends the iteration if one does. *)
  iter_content : list bytes * option exn
}.

(** One listed file: the dict that [_get_files_recursive] appends. *)
Record entry : Type := {
  f_link : value;
  f_name : value;
  f_size : value;
  f_hash : value;
  f_hash_type : value
}.

(** The libraries and the parts of the package outside [base.py]. *)
Record Env : Type := {
  (** [jsonpath_ng.ext]: [parse] compiles an expression or raises, [find]
      gives the values of the matches in document order. *)
  jexpr : Type;
  parse : string -> outcome jexpr;
  find : jexpr -> value -> outcome (list value);
  (** [requests.get]: the remote side, one answer per URL. *)
  requests_get : value -> outcome response;
  (** [zipfile.ZipFile(...).infolist()] with the data of each member. *)
  zip_infolist : bytes -> outcome (list (string * bytes));
  (** [hashlib.<algorithm>(data).hexdigest()] *)
  hexdigest : string -> bytes -> string;
  (** [datahugger.utils] *)
  _format_filename : value -> outcome string;
  _is_url : string -> outcome bool;
  _get_url : value -> outcome value;
  (** [re.search(pattern, url)]: [None] when nothing matches, otherwise the
      [groupdict()] of the match. *)
  re_search_groupdict : string -> string -> outcome (option (gmap string value));
  (** [re.match(pattern, subject)], asked for the patterns that are
      [Beyond] the constructs given a meaning above. *)
  re_match_beyond : string -> value -> outcome bool;
  (** [urlparse(url)]: scheme and netloc. *)
  urlparse : string -> outcome (string * string);
  (** [template.format(api_url=..., base_url=..., **params)] *)
  str_format : string -> value -> string -> gmap string value -> outcome string;
  (** [json.dump] of the checksum report *)
  json_dump : gmap string bool -> bytes;
  (** [str(time.time()).split(".")[0]] *)
  timestamp : string;
  (** paths that [open] refuses *)
  io_denied : string -> bool
}.

(** The class attributes a repository class may declare; [None] is
    [not hasattr(self, ...)]. *)
Record descriptor (E : Env) : Type := {
  API_URL : value;
  API_URL_META : option string;
  REGEXP_ID : option string;
  META_FILES_JSONPATH : option (string + jexpr E);
  PAGINATION_JSONPATH : option string;
  ATTR_KIND_JSONPATH : option string;
  ATTR_NAME_JSONPATH : option string;
  ATTR_FILE_LINK_JSONPATH : option string;
  ATTR_FOLDER_LINK_JSONPATH : option string;
  ATTR_SIZE_JSONPATH : option string;
  ATTR_HASH_JSONPATH : option string;
  ATTR_HASH_TYPE_JSONPATH : option string;
  ATTR_HASH_TYPE_VALUE : option value
}.
Arguments API_URL {E} _.
Arguments API_URL_META {E} _.
Arguments REGEXP_ID {E} _.
Arguments META_FILES_JSONPATH {E} _.
Arguments PAGINATION_JSONPATH {E} _.
Arguments ATTR_KIND_JSONPATH {E} _.
Arguments ATTR_NAME_JSONPATH {E} _.
Arguments ATTR_FILE_LINK_JSONPATH {E} _.
Arguments ATTR_FOLDER_LINK_JSONPATH {E} _.
Arguments ATTR_SIZE_JSONPATH {E} _.
Arguments ATTR_HASH_JSONPATH {E} _.
Arguments ATTR_HASH_TYPE_JSONPATH {E} _.
Arguments ATTR_HASH_TYPE_VALUE {E} _.

(** The arguments of [DatasetDownloader.__init__]. *)
Record config : Type := {
  resource : value;
  max_file_size : option Z;
  filter_files : option string;
  force_download : bool;
  progress : bool;
  unzip : bool;
  checksum : bool;
  print_only : bool;
  params : option (gmap string value)
}.

(** What the outside can observe of a run. *)
Inductive event : Type :=
| EvGet (url : value)
| EvPrint (line : string)
| EvLogInfo (msg : string)
| EvLogError (msg : string)
| EvCall (fn : string)
| EvWrite (path : string) (data : bytes).

(** An attribute set on the instance after [__init__]. *)
Inductive attr : Type :=
| AParams (p : gmap string value)
| AFiles (l : list entry).

Record state : Type := {
  attrs : gmap string attr;
  fs_files : gmap string bytes;
  fs_dirs : gset string;
  trace : list event
}.

(** ** Effectful code: state, exceptions, fuel *)

Inductive result (A : Type) : Type :=
| Ok (a : A) (s : state)
| Exc (e : exn) (s : state)
| OutOfFuel.
Arguments Ok {A} a s.
Arguments Exc {A} e s.
Arguments OutOfFuel {A}.

Definition M (A : Type) : Type := state -> result A.

Definition ret {A} (a : A) : M A := fun s => Ok a s.

Definition raise {A} (e : exn) : M A := fun s => Exc e s.

Definition bind {A B} (m : M A) (k : A -> M B) : M B :=
  fun s => match m s with
           | Ok a s' => k a s'
           | Exc e s' => Exc e s'
           | OutOfFuel => OutOfFuel
           end.

Notation "'let*' x ':=' m 'in' k" := (bind m (fun x => k))
  (at level 10, x pattern, m at level 100, k at level 200).
Notation "m ';;;' k" := (bind m (fun _ => k))
  (at level 100, k at level 200, right associativity).

Definition lift {A} (o : outcome A) : M A :=
  match o with
  | Return a => ret a
  | Raise e => raise e
  end.

(** [try: body except Exception as e: handler(e)] *)
Definition try_catch {A} (body : M A) (handler : exn -> M A) : M A :=
  fun s => match body s with
           | Ok a s' => Ok a s'
           | Exc e s' => handler e s'
           | OutOfFuel => OutOfFuel
           end.

Definition emit (ev : event) : M unit :=
  fun s => Ok tt {| attrs := attrs s; fs_files := fs_files s;
                    fs_dirs := fs_dirs s; trace := trace s ++ [ev] |}.

Definition when (b : bool) (m : M unit) : M unit := if b then m else ret tt.

(** [for x in xs: body], with the variables the loop updates in [acc]. *)
Fixpoint for_each {A R} (body : R -> A -> M R) (xs : list A) (acc : R) : M R :=
  match xs with
  | [] => ret acc
  | x :: rest => let* acc' := body acc x in for_each body rest acc'
  end.

(** ** Attribute extraction *)

Section Program.

Context (E : Env) (D : descriptor E) (C : config).

Definition _get_attr_attr (record : value) (jsonp : string) : outcome value :=
  try_except
    (let? jsonpath_expression := parse E jsonp in
     let? matches := find E jsonpath_expression record in
     index0 matches)
    (fun _ => Return VNone).

Definition _get_attr_kind (record : value) : outcome value :=
  match ATTR_KIND_JSONPATH D with
  | None => Return (VStr "file")
  | Some p => _get_attr_attr record p
  end.

Definition _get_attr_link (record : value) (base_url : option string) : outcome value :=
  let? kind := _get_attr_kind record in
  if eq_str kind "folder" then
    match ATTR_FOLDER_LINK_JSONPATH D with
    | None => Return VNone
    | Some p => _get_attr_attr record p
    end
  else
    match ATTR_FILE_LINK_JSONPATH D with
    | None => Return VNone
    | Some p => _get_attr_attr record p
    end.

Definition _get_attr_name (record : value) : outcome value :=
  match ATTR_NAME_JSONPATH D with
  | None => Return VNone
  | Some p => _get_attr_attr record p
  end.

Definition _get_attr_size (record : value) : outcome value :=
  match ATTR_SIZE_JSONPATH D with
  | None => Return VNone
  | Some p => _get_attr_attr record p
  end.

Definition _get_attr_hash (record : value) : outcome value :=
  match ATTR_HASH_JSONPATH D with
  | None => Return VNone
  | Some p => _get_attr_attr record p
  end.

Definition _get_attr_hash_type (record : value) : outcome value :=
  match ATTR_HASH_TYPE_VALUE D with
  | Some v => Return v
  | None =>
      match ATTR_HASH_TYPE_JSONPATH D with
      | None => Return VNone
      | Some p => _get_attr_attr record p
      end
  end.

(** ** Listing *)

(** [requests.get(url)], observed as one event whether it succeeds or not *)
Definition http_get (url : value) : M response :=
  emit (EvGet url);;; lift (requests_get E url).

(** [res.raise_for_status()] *)
Definition raise_for_status (res : response) : M unit :=
  if status_ok res then ret tt else raise HTTPError.

Definition is_none (v : value) : bool :=
  match v with VNone => true | _ => false end.

(** The record array of a page. *)
Definition files_raw_of (response : value) : outcome (list value) :=
  match META_FILES_JSONPATH D with
  | Some p =>
      let? jsonpath_expression :=
        match p with
        | inl s => parse E s
        | inr e => Return e
        end in
      find E jsonpath_expression response
  | None => iterate response
  end.

(** [f_path] of a record. *)
Definition f_path_of (folder_name f : value) : outcome value :=
  if is_none folder_name then _get_attr_name f
  else
    let? n := _get_attr_name f in
    let? p := Path2v folder_name n in
    Return (VStr p).

(** The dict appended for a record that is not a folder. *)
Definition file_entry (f f_path : value) (base_url : option string) : outcome entry :=
  let? l := _get_attr_link f base_url in
  let? sz := _get_attr_size f in
  let? h := _get_attr_hash f in
  let? ht := _get_attr_hash_type f in
  Return {| f_link := l; f_name := f_path; f_size := sz; f_hash := h; f_hash_type := ht |}.

(** [jsonpath_expression.find(response)[0].value] of the pagination path;
    not protected by a [try]. *)
Definition next_url_of (response : value) (p : string) : outcome value :=
  let? jsonpath_expression := parse E p in
  let? matches := find E jsonpath_expression response in
  index0 matches.

(** The body of [for f in files_raw]; [self_call] is the method itself,
    [result] the list being built. *)
Definition record_step (self_call : value -> value -> option string -> M (list entry))
    (folder_name : value) (base_url : option string)
    (result : list entry) (f : value) : M (list entry) :=
  let* f_path := lift (f_path_of folder_name f) in
  let* kind := lift (_get_attr_kind f) in
  if eq_str kind "folder" then
    let* l := lift (_get_attr_link f base_url) in
    let* sub := self_call l f_path None in
    ret (result ++ sub)
  else
    let* e := lift (file_entry f f_path base_url) in
    ret (result ++ [e]).

(** [if hasattr(self, "PAGINATION_JSONPATH"): ...] and the [return]. *)
Definition paginate (self_call : value -> value -> option string -> M (list entry))
    (response folder_name : value) (result : list entry) : M (list entry) :=
  match PAGINATION_JSONPATH D with
  | None => ret result
  | Some p =>
      let* next_url := lift (next_url_of response p) in
      if truthy next_url then
        let* more := self_call next_url folder_name None in
        ret (result ++ more)
      else ret result
  end.

(** The recursion has no bound in the source; [fuel] bounds the depth of
    the calls and [OutOfFuel] stands for a run that needs more.  The first
    statement of the method builds a [ValueError] for a [url] that is no
    string but does not raise it, so nothing corresponds to it here; such a
    [url] goes to [requests.get] like any other. *)
Fixpoint _get_files_recursive (fuel : nat) (url folder_name : value)
    (base_url : option string) : M (list entry) :=
  match fuel with
  | O => fun _ => OutOfFuel
  | S fuel' =>
      let* res := http_get url in
      raise_for_status res;;;
      let* response := lift (body_json res) in
      let* files_raw := lift (files_raw_of response) in
      let* result :=
        for_each (record_step (_get_files_recursive fuel') folder_name base_url)
                 files_raw [] in
      paginate (_get_files_recursive fuel') response folder_name result
  end.

(** ** Instance attributes *)

(** The class the methods are written in: inside it, an identifier
    [self.__x] is compiled to [self._DatasetDownloader__x].  A string given
    to [hasattr] is not an identifier and is looked up as it is. *)
Definition class_name : string := "DatasetDownloader".

Definition startswith2 (s : string) : bool :=
  match s with
  | String a (String b _) => Ascii.eqb a "_"%char && Ascii.eqb b "_"%char
  | _ => false
  end.

Definition mangle (identifier : string) : string :=
  if startswith2 identifier && negb (endswith identifier "__")
  then "_" +:+ class_name +:+ identifier
  else identifier.

Definition hasattr (name : string) : M bool :=
  fun s => Ok (bool_decide (is_Some (attrs s !! name))) s.

Definition setattr (name : string) (a : attr) : M unit :=
  fun s => Ok tt {| attrs := <[name := a]> (attrs s); fs_files := fs_files s;
                    fs_dirs := fs_dirs s; trace := trace s |}.

Definition getattr (name : string) : M attr :=
  fun s => match attrs s !! name with
           | Some a => Ok a s
           | None => Exc AttributeError s
           end.

(** ** Parameters *)

Definition _parse_url (url : value) : outcome (gmap string value) :=
  match url with
  | VStr u =>
      let? valid := _is_url E u in
      if valid then
        try_except
          (match REGEXP_ID D with
           | None => Raise AttributeError
           | Some pattern =>
               let? found := re_search_groupdict E pattern u in
               match found with
               | Some groupdict => Return groupdict
               | None => Raise AttributeError
               end
           end)
          (fun _ => Raise (ValueError "Failed to parse URL"))
      else Raise (ValueError "Not a valid URL.")
  | _ => Raise (ValueError "Not a valid URL.")
  end.

(** [new_params = self.params.copy(); new_params.update(url_params)] *)
Definition updated (caller url_params : gmap string value) : gmap string value :=
  map_fold (fun k v acc => <[k := v]> acc) caller url_params.

(** Truth value of [self.params]: [None] and the empty dict are false. *)
Definition params_given : option (gmap string value) :=
  match params C with
  | Some p => if bool_decide (p = ∅) then None else Some p
  | None => None
  end.

(** The property [_params].  The two calls are recorded in the trace, so
    that a run shows how often the parameters were resolved. *)
Definition _params : M (gmap string value) :=
  let* cached := hasattr "__params" in
  if cached then
    let* a := getattr (mangle "__params") in
    match a with AParams p => ret p | _ => raise TypeError end
  else
    emit (EvCall "_get_url");;;
    let* url := lift (_get_url E (resource C)) in
    emit (EvCall "_parse_url");;;
    let* url_params := lift (_parse_url url) in
    match params_given with
    | Some p => setattr (mangle "__params") (AParams (updated p url_params))
    | None => setattr (mangle "__params") (AParams url_params)
    end;;;
    let* a := getattr (mangle "__params") in
    match a with AParams p => ret p | _ => raise TypeError end.

(** The property [files]; [_pre_files] does nothing in this class. *)
Definition files (fuel : nat) : M (list entry) :=
  let* cached := hasattr "_files" in
  if cached then
    let* a := getattr (mangle "_files") in
    match a with AFiles l => ret l | _ => raise TypeError end
  else
    emit (EvCall "_get_url");;;
    let* url := lift (_get_url E (resource C)) in
    let* uri := lift (match url with
                      | VStr u => urlparse E u
                      | _ => Raise TypeError
                      end) in
    let base_url := fst uri +:+ "://" +:+ snd uri in
    let* template := lift (match API_URL_META D with
                           | Some t => Return t
                           | None => Raise AttributeError
                           end) in
    let* p := _params in
    let* meta_url := lift (str_format E template (API_URL D) base_url p) in
    let* l := _get_files_recursive fuel (VStr meta_url) VNone (Some base_url) in
    setattr (mangle "_files") (AFiles l);;;
    let* a := getattr (mangle "_files") in
    match a with AFiles l => ret l | _ => raise TypeError end.

(** ** The file system *)

Definition path_exists (p : string) : M bool :=
  fun s => Ok (bool_decide (is_Some (fs_files s !! p)) || bool_decide (p ∈ fs_dirs s)) s.

Definition isdir (p : string) : M bool :=
  fun s => Ok (bool_decide (p ∈ fs_dirs s)) s.

(** [Path(d).mkdir(parents=True, exist_ok=True)] and [os.makedirs]: nothing
    to do for an existing directory; a file in the way is an error. *)
Definition mkdir_parents (d : string) : M unit :=
  fun s =>
    if bool_decide (d ∈ fs_dirs s) then Ok tt s
    else if io_denied E d
            || List.existsb (fun a => bool_decide (is_Some (fs_files s !! a))) (ancestors d)
         then Exc OSError s
         else Ok tt {| attrs := attrs s; fs_files := fs_files s;
                       fs_dirs := fs_dirs s ∪ list_to_set (ancestors d);
                       trace := trace s |}.

(** [os.mkdir]: the directory must be new and its parent must exist. *)
Definition os_mkdir (d : string) : M unit :=
  fun s =>
    if io_denied E d
       || bool_decide (d ∈ fs_dirs s)
       || bool_decide (is_Some (fs_files s !! d))
       || negb (String.eqb (dirname d) "" || bool_decide (dirname d ∈ fs_dirs s))
    then Exc OSError s
    else Ok tt {| attrs := attrs s; fs_files := fs_files s;
                  fs_dirs := fs_dirs s ∪ {[ d ]}; trace := trace s |}.

(** [open(p, "wb")] and writing [data]: the file is created or replaced. *)
Definition write_file (p : string) (data : bytes) : M unit :=
  fun s =>
    if io_denied E p || bool_decide (p ∈ fs_dirs s) then Exc OSError s
    else Ok tt {| attrs := attrs s; fs_files := <[p := data]> (fs_files s);
                  fs_dirs := fs_dirs s; trace := trace s ++ [EvWrite p data] |}.

(** [open(p, "rb").read()] *)
Definition read_file (p : string) : M bytes :=
  fun s =>
    if io_denied E p then Exc OSError s
    else match fs_files s !! p with
         | Some data => Ok data s
         | None => Exc OSError s
         end.

(** Is [p] a path below the directory [top]? *)
Definition below (top p : string) : bool :=
  String.prefix (top +:+ "/") p.

(** [os.walk(top)], flattened: for every file below [top] the directory it
    is in and its name.  A [top] that is no directory gives nothing. *)
Definition os_walk (top : string) : M (list (string * string)) :=
  fun s =>
    if bool_decide (top ∈ fs_dirs s) then
      Ok (List.map (fun kv => (dirname (fst kv), basename (fst kv)))
            (List.filter (fun kv => below top (fst kv)) (map_to_list (fs_files s)))) s
    else Ok [] s.

(** ** Downloading one file *)

(** [file_size is not None and self.max_file_size is not None
     and file_size >= self.max_file_size] *)
Definition too_large (file_size : value) : outcome bool :=
  match file_size, max_file_size C with
  | VNone, _ => Return false
  | _, None => Return false
  | VInt z, Some m => Return (m <=? z)
  | VBool b, Some m => Return (m <=? Z.b2z b)
  | _, Some _ => Raise TypeError
  end.

(** The truth value of [re.match(pattern, subject)]: the pattern must match
    where the subject begins. *)
Definition re_match (pattern : string) (subject : value) : outcome bool :=
  match re_compile pattern with
  | Parsed p =>
      match subject with
      | VStr s => Return (match_here p true s)
      | _ => Raise TypeError
      end
  | Invalid => Raise ReError
  | Beyond => re_match_beyond E pattern subject
  end.

(** [self.filter_files and not re.match(self.filter_files, file_name)] *)
Definition filtered_out (file_name : value) : outcome bool :=
  match filter_files C with
  | None => Return false
  | Some pattern =>
      if String.eqb pattern "" then Return false
      else let? m := re_match pattern file_name in Return (negb m)
  end.

Definition report (file_name : value) (status : string) : M unit :=
  let* shown := lift (_format_filename E file_name) in
  emit (EvPrint (shown +:+ ": " +:+ status)).

(** [open(p, "wb")]: the file is created, or emptied when it is there. *)
Definition open_wb (p : string) : M unit :=
  fun s =>
    if io_denied E p || bool_decide (p ∈ fs_dirs s) then Exc OSError s
    else Ok tt {| attrs := attrs s; fs_files := <[p := []]> (fs_files s);
                  fs_dirs := fs_dirs s; trace := trace s |}.

(** [fout.write(chunk)] for each chunk received, on the file opened at
    [p]. *)
Definition write_chunks (p : string) (received : list bytes) : M unit :=
  fun s => Ok tt {| attrs := attrs s;
                    fs_files := <[p := List.concat received]> (fs_files s);
                    fs_dirs := fs_dirs s;
                    trace := trace s ++ [EvWrite p (List.concat received)] |}.

(** The branch [if self.progress] of the write.  The arguments of
    [tqdm.wrapattr] are evaluated in order: the file is opened first, then
    the label and the total are computed, each of which may raise with the
    file already created or emptied; then the chunks are written as they
    arrive.  The bar is drawn on stderr, which the trace does not record. *)
Definition write_with_progress (output_fp : string) (file_name : value)
    (res : response) : M unit :=
  open_wb output_fp;;;
  let* desc := lift (_format_filename E file_name) in
  let* total := lift (content_length res) in
  write_chunks output_fp (fst (iter_content res));;;
  match snd (iter_content res) with
  | Some e => raise e
  | None => ret tt
  end.

(** The branch [if not self.print_only] of [download_file]. *)
Definition fetch_and_write (file_link : value) (output_folder : string)
    (file_name : value) : M unit :=
  emit (EvLogInfo "Downloading file");;;
  let* res := http_get file_link in
  raise_for_status res;;;
  let* output_fp := lift (Path2v (VStr output_folder) file_name) in
  mkdir_parents (path_parent output_fp);;;
  let* present := path_exists output_fp in
  if negb (force_download C) && present then
    emit (EvPrint ("File already exists: " +:+ match file_name with
                                              | VStr n => n
                                              | _ => ""
                                              end))
  else if progress C then write_with_progress output_fp file_name res
  else write_file output_fp (content res).

Definition download_file (file_link : value) (output_folder : string)
    (file_name file_size file_hash file_hash_type : value) : M unit :=
  let* large := lift (too_large file_size) in
  if large then
    emit (EvLogInfo "Skipping large file");;;
    when (progress C) (report file_name "SKIPPED")
  else
    let* rejected := lift (filtered_out file_name) in
    if rejected then
      emit (EvLogInfo "Skipping file by filter");;;
      when (progress C) (report file_name "SKIPPED")
    else if negb (print_only C) then
      fetch_and_write file_link output_folder file_name
    else report file_name "COMPLETE".

(** ** Unpacking a single archive *)

(** [ZipFile.extract(member, path)] for a member whose name has no slash:
    [.] and [..] are dropped from the name, missing directories above the
    target are created and the data is written. *)
Definition extract_target (output_folder member : string) : string :=
  let arcname := if String.eqb member "." || String.eqb member ".." then "" else member in
  normpath (os_path_join output_folder arcname).

Definition zip_extract (member : string) (data : bytes) (output_folder : string) : M unit :=
  let targetpath := extract_target output_folder member in
  let upperdirs := dirname targetpath in
  let* present := path_exists upperdirs in
  when (negb (String.eqb upperdirs "") && negb present) (mkdir_parents upperdirs);;;
  write_file targetpath data.

Definition _unpack_single_folder (zip_url : value) (output_folder : string) : M unit :=
  let* r := http_get zip_url in
  raise_for_status r;;;
  let* z := lift (zip_infolist E (content r)) in
  for_each
    (fun (_ : unit) (zip_info : string * bytes) =>
       let* c := lift (last_char (fst zip_info)) in
       if Ascii.eqb c slash then ret tt
       else zip_extract (basename (fst zip_info)) (snd zip_info) output_folder)
    z tt.

(** ** Checksums *)

(** The chain of [if hash_type == ...] tests; at most one of them fires. *)
Definition newhash_of (hash_type : value) (data : bytes) : option string :=
  if eq_str hash_type "md5" then Some (hexdigest E "md5" data)
  else if eq_str hash_type "sha1" then Some (hexdigest E "sha1" data)
  else if eq_str hash_type "sha224" then Some (hexdigest E "sha224" data)
  else if eq_str hash_type "sha256" then Some (hexdigest E "sha256" data)
  else if eq_str hash_type "sha384" then Some (hexdigest E "sha384" data)
  else if eq_str hash_type "sha512" then Some (hexdigest E "sha512" data)
  else None.

(** [hash == newhash] *)
Definition hash_eq (h : value) (newhash : option string) : bool :=
  match h, newhash with
  | VNone, None => true
  | VStr a, Some b => String.eqb a b
  | _, _ => false
  end.

(** [list(filter(lambda x: x["name"] == file, files_info))] *)
Definition file_comp_of (file : string) (files_info : list entry) : list entry :=
  List.filter (fun x => eq_str (f_name x) file) files_info.

Definition py_bool (b : bool) : string := if b then "True" else "False".

(** The body of the loop over the files on disk; [checksums] is the dict
    being filled. *)
Definition checksum_step (files_info : list entry) (checksums : gmap string bool)
    (walked : string * string) : M (gmap string bool) :=
  let subdir := fst walked in
  let file := snd walked in
  let filepath := os_path_join subdir file in
  let file_comp := file_comp_of file files_info in
  let* hh := try_catch
               (let* first := lift (index0 file_comp) in
                ret (f_hash first, f_hash_type first))
               (fun e => match e with
                         | IndexError =>
                             emit (EvLogInfo "Setting hash and hash_type to None");;;
                             ret (VNone, VNone)
                         | _ => raise e
                         end) in
  let* data := read_file filepath in
  let newhash := newhash_of (snd hh) data in
  let hash_match := hash_eq (fst hh) newhash in
  if negb (is_none (fst hh)) && negb (is_none (snd hh)) then
    emit (EvPrint ("Checksum match: " +:+ py_bool hash_match +:+ " - " +:+ file));;;
    emit (EvLogInfo ("Checksum match: " +:+ py_bool hash_match +:+ " - " +:+ file));;;
    ret (<[file := hash_match]> checksums)
  else ret checksums.

(** The loop of [_check_checksums]: the dict it leaves in [checksums]. *)
Definition checksum_loop (output_folder : string) (files_info : list entry)
    : M (gmap string bool) :=
  let* walked := os_walk output_folder in
  for_each (checksum_step files_info) walked ∅.

(** What [_check_checksums] tries: the loop, then the report in the
    directory [generated]. *)
Definition checksum_report (output_folder : string) (files_info : list entry) : M unit :=
  let* checksums := checksum_loop output_folder files_info in
  let generated_path := output_folder +:+ "/generated" in
  let* there := isdir generated_path in
  when (negb there) (os_mkdir generated_path);;;
  write_file (generated_path +:+ "/checksums" +:+ timestamp E +:+ ".json")
             (json_dump E checksums).

Definition _check_checksums (output_folder : string) (files_info : list entry) : M unit :=
  try_catch
    (checksum_report output_folder files_info)
    (fun _ => emit (EvLogError "Failed at checksum")).

(** ** The orchestrator *)

(** The condition of the first [if] of [_get]; every [self.files] is an
    access to the property. *)
Definition single_zip_test (fuel : nat) : M bool :=
  let* listing := files fuel in
  if (List.length listing =? 1)%nat then
    let* listing0 := files fuel in
    let* first := lift (index0 listing0) in
    let* by_link := lift (endswith_v (f_link first) ".zip") in
    let* zipped :=
      if by_link then ret true
      else
        let* listing1 := files fuel in
        let* first1 := lift (index0 listing1) in
        lift (endswith_v (f_name first1) ".zip") in
    ret (zipped && unzip C)
  else ret false.

(** [for f in self.files: ...]; the value is [files_info] after the loop. *)
Definition download_all (fuel : nat) (output_folder : string) : M (list entry) :=
  let* listing := files fuel in
  for_each
    (fun files_info f =>
       let files_info' := files_info ++ [f] in
       download_file (f_link f) output_folder (f_name f) (f_size f)
                     (f_hash f) (f_hash_type f);;;
       ret files_info')
    listing [].

Definition _get (fuel : nat) (output_folder : string) : M unit :=
  let* single_zip := single_zip_test fuel in
  if single_zip then
    let* listing := files fuel in
    let* first := lift (index0 listing) in
    _unpack_single_folder (f_link first) output_folder
  else
    let* files_info := download_all fuel output_folder in
    when (checksum C) (_check_checksums output_folder files_info).

End Program.

(** * A small repository to run the code on *)

Module Demo.

(** A JSONPath engine for dotted paths: [$] is the document, [a.b] a field
    of a field, [xs[*]] every item of the list under [xs]. *)
Inductive step : Type :=
| Field (name : string)
| Items (name : string).

Fixpoint assoc (k : string) (d : list (string * value)) : option value :=
  match d with
  | [] => None
  | (k', v) :: rest => if String.eqb k k' then Some v else assoc k rest
  end.

Definition field (name : string) (v : value) : list value :=
  match v with
  | VDict d => match assoc name d with Some x => [x] | None => [] end
  | _ => []
  end.

Definition apply_step (st : step) (v : value) : list value :=
  match st with
  | Field name => field name v
  | Items name =>
      List.flat_map (fun x => match x with VList l => l | _ => [] end) (field name v)
  end.

Definition split_dot (s : string) : list string :=
  List.map string_of_list_ascii
    (List.fold_right
       (fun c acc => if Ascii.eqb c "."%char then [] :: acc
                     else match acc with
                          | [] => [[c]]
                          | h :: t => (c :: h) :: t
                          end)
       [[]] (list_ascii_of_string s)).

Definition path_step (s : string) : outcome step :=
  if String.eqb s "" then Raise JsonPathError
  else if endswith s "[*]" then Return (Items (String.substring 0 (String.length s - 3) s))
  else Return (Field s).

Fixpoint path_steps (l : list string) : outcome (list step) :=
  match l with
  | [] => Return []
  | x :: rest =>
      let? st := path_step x in
      let? more := path_steps rest in
      Return (st :: more)
  end.

Definition jp_parse (s : string) : outcome (list step) :=
  match split_dot s with
  | "$" :: rest => path_steps rest
  | l => path_steps l
  end.

Definition jp_find (e : list step) (v : value) : outcome (list value) :=
  Return (List.fold_left (fun vs st => List.flat_map (apply_step st) vs) e [v]).

Definition b (s : string) : bytes := list_byte_of_string s.

Definition file_record (n l : string) (sz : Z) : value :=
  VDict [("kind", VStr "file"); ("name", VStr n); ("link", VStr l); ("size", VInt sz);
         ("md5", VStr ("md5:" +:+ n))].

Definition folder_record (n l : string) : value :=
  VDict [("kind", VStr "folder"); ("name", VStr n); ("link", VStr l)].

Definition page (records : list value) (next : value) : response :=
  {| status_ok := true; content := [];
     body_json := Return (VDict [("data", VList records); ("next", next)]);
     content_length := Return 0; iter_content := ([], None) |}.

Definition download (data : string) : response :=
  {| status_ok := true; content := b data; body_json := Raise (ValueError "no JSON");
     content_length := Return (Z.of_nat (List.length (b data)));
     iter_content := ([b data], None) |}.

(** Two pages, the first with a folder between two files. *)
Definition remote (url : value) : outcome response :=
  match url with
  | VStr u =>
      if String.eqb u "https://repo.org/api/ds1" then
        Return (page [file_record "a.csv" "https://repo.org/f/a" 10;
                      folder_record "sub" "https://repo.org/api/ds1/sub";
                      file_record "b.txt" "https://repo.org/f/b" 2000]
                     (VStr "https://repo.org/api/ds1?page=2"))
      else if String.eqb u "https://repo.org/api/ds1/sub" then
        Return (page [file_record "c.csv" "https://repo.org/f/c" 30] VNone)
      else if String.eqb u "https://repo.org/api/ds1?page=2" then
        Return (page [file_record "d.csv" "https://repo.org/f/d" 40] (VStr ""))
      else if String.eqb u "https://repo.org/api/ds2" then
        Return (page [file_record "data.zip" "https://repo.org/f/data.zip" 99] VNone)
      else if String.eqb u "https://repo.org/f/a" then Return (download "aaa")
      else if String.eqb u "https://repo.org/f/b" then Return (download "bbb")
      else if String.eqb u "https://repo.org/f/c" then Return (download "ccc")
      else if String.eqb u "https://repo.org/f/d" then Return (download "ddd")
      else if String.eqb u "https://repo.org/f/data.zip" then Return (download "PK")
      else if String.eqb u "https://repo.org/f/gone" then
        Return {| status_ok := false; content := []; body_json := Raise (ValueError "no JSON");
                  content_length := Return 0; iter_content := ([], None) |}
      else Raise HTTPError
  | _ => Raise TypeError
  end.

Definition archive (data : bytes) : outcome (list (string * bytes)) :=
  if String.eqb (string_of_list_byte data) "PK" then
    Return [("top/", []); ("top/readme.txt", b "read me"); ("top/raw/x.csv", b "1,2")]
  else Raise BadZipFile.

Definition digest (algorithm : string) (data : bytes) : string :=
  algorithm +:+ ":" +:+ string_of_list_byte data.

Definition search_id (pattern url : string)
    : outcome (option (gmap string value)) :=
  if String.prefix "https://repo.org/dataset/" url then
    Return (Some {[ "record_id" := VStr (String.substring 25 (String.length url - 25) url);
                    "version" := VNone ]})
  else Return None.

Definition format_meta (template : string) (api_url : value) (base_url : string)
    (p : gmap string value) : outcome string :=
  match p !! "record_id" with
  | Some (VStr r) => Return (base_url +:+ "/api/" +:+ r)
  | _ => Raise KeyError
  end.

Definition dump (m : gmap string bool) : bytes :=
  b (String.concat ","
       (List.map (fun kv => fst kv +:+ "=" +:+ py_bool (snd kv)) (map_to_list m))).

Definition env : Env := {|
  jexpr := list step;
  parse := jp_parse;
  find := jp_find;
  requests_get := remote;
  zip_infolist := archive;
  hexdigest := digest;
  _format_filename := fun v => match v with VStr s => Return s | _ => Raise TypeError end;
  _is_url := fun u => Return (String.prefix "https://" u);
  _get_url := fun v => Return v;
  re_search_groupdict := search_id;
  re_match_beyond := fun _ _ => Raise ReError;
  urlparse := fun u => Return ("https", "repo.org");
  str_format := format_meta;
  json_dump := dump;
  timestamp := "1700000000";
  io_denied := fun p => String.eqb p "out/locked.csv"
|}.

Definition desc : descriptor env := {|
  API_URL := VNone;
  API_URL_META := Some "{base_url}/api/{record_id}";
  REGEXP_ID := Some "dataset/(?P<record_id>[^/]+)(?P<version>/v[0-9]+)?";
  META_FILES_JSONPATH := Some (inl "data[*]");
  PAGINATION_JSONPATH := Some "next";
  ATTR_KIND_JSONPATH := Some "kind";
  ATTR_NAME_JSONPATH := Some "name";
  ATTR_FILE_LINK_JSONPATH := Some "link";
  ATTR_FOLDER_LINK_JSONPATH := Some "link";
  ATTR_SIZE_JSONPATH := Some "size";
  ATTR_HASH_JSONPATH := Some "md5";
  ATTR_HASH_TYPE_JSONPATH := None;
  ATTR_HASH_TYPE_VALUE := Some (VStr "md5")
|}.

Definition conf (url : string) : config := {|
  resource := VStr url;
  max_file_size := None;
  filter_files := None;
  force_download := false;
  progress := true;
  unzip := true;
  checksum := false;
  print_only := false;
  params := None
|}.

Definition start : state := {|
  attrs := ∅;
  fs_files := ∅;
  fs_dirs := {[ "out" ]};
  trace := []
|}.

End Demo.

(** * What the listing is meant to be

    The flat list of a page, said without the loop: the contributions of
    its records, one after the other, followed by the list of the next
    page. *)

Section Listing.

Context (E : Env) (D : descriptor E).

(** The document a URL answers with. *)
Definition page_of (url : value) : outcome value :=
  let? res := requests_get E url in
  if status_ok res then body_json res else Raise HTTPError.

Inductive listing : value -> value -> option string -> list entry -> Prop :=
| listing_page url folder base response records here next :
    page_of url = Return response ->
    files_raw_of E D response = Return records ->
    contributions folder base records here ->
    following response folder next ->
    listing url folder base (here ++ next)

with contributions : value -> option string -> list value -> list entry -> Prop :=
| contributions_nil folder base :
    contributions folder base [] []
| contributions_file folder base f rest f_path kind e l :
    f_path_of E D folder f = Return f_path ->
    _get_attr_kind E D f = Return kind ->
    eq_str kind "folder" = false ->
    file_entry E D f f_path base = Return e ->
    contributions folder base rest l ->
    contributions folder base (f :: rest) (e :: l)
| contributions_folder folder base f rest f_path kind link sub l :
    f_path_of E D folder f = Return f_path ->
    _get_attr_kind E D f = Return kind ->
    eq_str kind "folder" = true ->
    _get_attr_link E D f base = Return link ->
    listing link f_path None sub ->
    contributions folder base rest l ->
    contributions folder base (f :: rest) (sub ++ l)

with following : value -> value -> list entry -> Prop :=
| following_undeclared response folder :
    PAGINATION_JSONPATH D = None ->
    following response folder []
| following_last response folder p next_url :
    PAGINATION_JSONPATH D = Some p ->
    next_url_of E response p = Return next_url ->
    truthy next_url = false ->
    following response folder []
| following_more response folder p next_url more :
    PAGINATION_JSONPATH D = Some p ->
    next_url_of E response p = Return next_url ->
    truthy next_url = true ->
    listing next_url folder None more ->
    following response folder more.

(** From the description to a run: with enough fuel the code returns the
    described list, whatever the state it starts in. *)
Definition runs_listing (url folder : value) (base : option string) (l : list entry) : Prop :=
  forall s, exists fuel s', forall n, (fuel <= n)%nat ->
    _get_files_recursive E D n url folder base s = Ok l s'.

Definition runs_contributions (folder : value) (base : option string)
    (records : list value) (here : list entry) : Prop :=
  forall acc s, exists fuel s', forall n, (fuel <= n)%nat ->
    for_each (record_step E D (_get_files_recursive E D n) folder base) records acc s
    = Ok (acc ++ here) s'.

Definition runs_following (response folder : value) (next : list entry) : Prop :=
  forall result s, exists fuel s', forall n, (fuel <= n)%nat ->
    paginate E D (_get_files_recursive E D n) response folder result s
    = Ok (result ++ next) s'.

End Listing.

Scheme listing_min := Minimality for listing Sort Prop
  with contributions_min := Minimality for contributions Sort Prop
  with following_min := Minimality for following Sort Prop.
Combined Scheme listing_mutind from listing_min, contributions_min, following_min.

(** * Notions used in the statements *)

Definition demo_listing : list entry :=
  let md5 := VStr "md5" in
  [ {| f_link := VStr "https://repo.org/f/a"; f_name := VStr "a.csv"; f_size := VInt 10;
       f_hash := VStr "md5:a.csv"; f_hash_type := md5 |};
    {| f_link := VStr "https://repo.org/f/c"; f_name := VStr "sub/c.csv"; f_size := VInt 30;
       f_hash := VStr "md5:c.csv"; f_hash_type := md5 |};
    {| f_link := VStr "https://repo.org/f/b"; f_name := VStr "b.txt"; f_size := VInt 2000;
       f_hash := VStr "md5:b.txt"; f_hash_type := md5 |};
    {| f_link := VStr "https://repo.org/f/d"; f_name := VStr "d.csv"; f_size := VInt 40;
       f_hash := VStr "md5:d.csv"; f_hash_type := md5 |} ].

Definition state_of {A} (r : result A) (otherwise : state) : state :=
  match r with
  | Ok _ s => s
  | Exc _ s => s
  | OutOfFuel => otherwise
  end.

Definition caller_params (C : config) : gmap string value := default ∅ (params C).

Definition with_attr (s : state) (name : string) (a : attr) : state :=
  {| attrs := <[name := a]> (attrs s); fs_files := fs_files s;
     fs_dirs := fs_dirs s; trace := trace s |}.

Definition add_events (s : state) (evs : list event) : state :=
  {| attrs := attrs s; fs_files := fs_files s; fs_dirs := fs_dirs s;
     trace := trace s ++ evs |}.

Definition demo_conf_params : config :=
  {| resource := VStr "https://repo.org/dataset/ds1";
     max_file_size := None; filter_files := None; force_download := false;
     progress := true; unzip := true; checksum := false; print_only := false;
     params := Some {[ "record_id" := VStr "other"; "token" := VStr "secret" ]} |}.

Definition csv_pattern : string := "\.csv$".

(** The compiled form of a pattern without operators. *)
Definition literal (p : string) : list ritem :=
  List.map (fun c => RChar (CLit c)) (list_ascii_of_string p).

Definition with_newline (p : string) : string := p +:+ String newline "".

Definition is_message (ev : event) : Prop :=
  match ev with
  | EvPrint _ | EvLogInfo _ | EvLogError _ => True
  | _ => False
  end.

(** Between [s] and [s'] nothing happened but printing and logging. *)
Definition only_messages (s s' : state) : Prop :=
  attrs s' = attrs s /\ fs_files s' = fs_files s /\ fs_dirs s' = fs_dirs s
  /\ exists evs, trace s' = trace s ++ evs /\ Forall is_message evs.

Definition csv_conf : config :=
  {| resource := VStr "https://repo.org/dataset/ds1";
     max_file_size := None; filter_files := Some csv_pattern; force_download := false;
     progress := true; unzip := true; checksum := false; print_only := false;
     params := None |}.

Definition demo_existing : state :=
  {| attrs := ∅; fs_files := {[ "out/a.csv" := Demo.b "old" ]};
     fs_dirs := {[ "out" ]}; trace := [] |}.

(** A member name that marks a directory. *)
Definition is_dir_name (name : string) : bool :=
  match last_char name with
  | Return c => Ascii.eqb c slash
  | Raise _ => false
  end.

Definition member_target (out : string) (m : string * bytes) : string :=
  extract_target out (basename (fst m)).

(** A member the unpacker can handle in a destination whose directories are
    [dirs]: its name is not empty and, unless it marks a directory, its
    target may be written, is no directory itself and lies in an existing
    directory. *)
Definition member_ok (E : Env) (dirs : gset string) (out : string)
    (m : string * bytes) : bool :=
  negb (String.eqb (fst m) "")
  && (is_dir_name (fst m)
      || negb (io_denied E (member_target out m))
         && negb (bool_decide (member_target out m ∈ dirs))
         && bool_decide (dirname (member_target out m) ∈ dirs)).

Definition wrote (s : state) (p : string) (data : bytes) : state :=
  {| attrs := attrs s; fs_files := <[p := data]> (fs_files s);
     fs_dirs := fs_dirs s; trace := trace s ++ [EvWrite p data] |}.

(** The state after the members were unpacked, one after the other. *)
Definition unpack_state (out : string) (members : list (string * bytes)) (s : state) : state :=
  List.fold_left
    (fun s m => if is_dir_name (fst m) then s else wrote s (member_target out m) (snd m))
    members s.







Definition demo_conf_zip (dry_run : bool) : config :=
  {| resource := VStr "https://repo.org/dataset/ds2";
     max_file_size := Some 1; filter_files := Some "nothing"; force_download := false;
     progress := true; unzip := true; checksum := true; print_only := dry_run;
     params := None |}.

Definition demo_nested : state :=
  {| attrs := ∅; fs_files := {[ "out/folder/data.csv" := Demo.b "abc" ]};
     fs_dirs := {[ "out"; "out/folder" ]}; trace := [] |}.

Definition demo_nested_info : list entry :=
  [ {| f_link := VStr "https://repo.org/f/x"; f_name := VStr "folder/data.csv";
       f_size := VNone; f_hash := VStr "md5:abc"; f_hash_type := VStr "md5" |} ].

Definition demo_flat : state :=
  {| attrs := ∅; fs_files := {[ "out/data.csv" := Demo.b "abc" ]};
     fs_dirs := {[ "out" ]}; trace := [] |}.

Definition demo_flat_info : list entry :=
  [ {| f_link := VStr "https://repo.org/f/x"; f_name := VStr "data.csv";
       f_size := VNone; f_hash := VStr "md5:abc"; f_hash_type := VStr "md5" |} ].

(** Code without a recursive call never waits for fuel. *)
Definition no_fuel_needed {A} (m : M A) : Prop := forall s, m s <> OutOfFuel.

Definition set_checksum (b : bool) (C : config) : config :=
  {| resource := resource C; max_file_size := max_file_size C;
     filter_files := filter_files C; force_download := force_download C;
     progress := progress C; unzip := unzip C; checksum := b;
     print_only := print_only C; params := params C |}.

(** How a run ended: normally, with an exception, or not within the fuel. *)
Definition ending {A} (r : result A) : option (option exn) :=
  match r with
  | Ok _ _ => Some None
  | Exc e _ => Some (Some e)
  | OutOfFuel => None
  end.

(** Code that only prints and logs, and needs no fuel. *)
Definition quiet {A} (m : M A) : Prop :=
  forall s, m s <> OutOfFuel /\ only_messages s (state_of (m s) s).

Definition demo_locked : state :=
  {| attrs := ∅; fs_files := {[ "out/locked.csv" := Demo.b "abc" ]};
     fs_dirs := {[ "out" ]}; trace := [] |}.

Definition demo_conf_dry_run : config :=
  {| resource := VStr "https://repo.org/dataset/ds1";
     max_file_size := Some 100; filter_files := None; force_download := false;
     progress := true; unzip := true; checksum := false; print_only := true;
     params := None |}.

(** * Further notions *)

(** ** The result handle *)

(** [DownloadResult]: the session it was made from is the state of the
    run, so the record keeps the folder only. *)
Record DownloadResult : Type := {
  result_folder : string
}.

Section Handle.

Context (E : Env) (D : descriptor E) (C : config).

(** [download] *)
Definition download (fuel : nat) (output_folder : string) : M DownloadResult :=
  _get E D C fuel output_folder;;;
  ret {| result_folder := output_folder |}.

(** [DownloadResult.__len__]: [len(self.dataset.files)] *)
Definition DownloadResult_len (fuel : nat) (r : DownloadResult) : M nat :=
  let* listing := files E D C fuel in
  ret (List.length listing).

End Handle.

(** ** Frames *)

(** The value of a getter that cannot fail. *)
Definition value_of (o : outcome value) : value :=
  match o with
  | Return v => v
  | Raise _ => VNone
  end.

(** The entry of a record at the top of a listing. *)
Definition entry_of_record (E : Env) (D : descriptor E) (base_url : option string)
    (f : value) : entry :=
  {| f_link := value_of (_get_attr_link E D f base_url);
     f_name := value_of (_get_attr_name E D f);
     f_size := value_of (_get_attr_size E D f);
     f_hash := value_of (_get_attr_hash E D f);
     f_hash_type := value_of (_get_attr_hash_type E D f) |}.

Definition is_request (ev : event) : Prop :=
  match ev with
  | EvGet _ => True
  | _ => False
  end.

(** Between [s] and [s'] nothing happened but requests. *)
Definition only_requests (s s' : state) : Prop :=
  attrs s' = attrs s /\ fs_files s' = fs_files s /\ fs_dirs s' = fs_dirs s
  /\ exists evs, trace s' = trace s ++ evs /\ Forall is_request evs.

(** Every state a run of [m] can end in is related to the one it started
    in. *)
Definition steps (R : state -> state -> Prop) {A} (m : M A) : Prop :=
  forall s, match m s with
            | Ok _ s' => R s s'
            | Exc _ s' => R s s'
            | OutOfFuel => True
            end.

(** ** More of the small repository *)

(** A repository without folders and pages: no kind path, no pagination
    path. *)
Definition flat_desc : descriptor Demo.env := {|
  API_URL := VNone;
  API_URL_META := Some "{base_url}/api/{record_id}";
  REGEXP_ID := Some "dataset/(?P<record_id>[^/]+)";
  META_FILES_JSONPATH := Some (inl "data[*]");
  PAGINATION_JSONPATH := None;
  ATTR_KIND_JSONPATH := None;
  ATTR_NAME_JSONPATH := Some "name";
  ATTR_FILE_LINK_JSONPATH := Some "link";
  ATTR_FOLDER_LINK_JSONPATH := None;
  ATTR_SIZE_JSONPATH := Some "size";
  ATTR_HASH_JSONPATH := Some "md5";
  ATTR_HASH_TYPE_JSONPATH := None;
  ATTR_HASH_TYPE_VALUE := Some (VStr "md5")
|}.

(** A repository with folders and a pagination path that no page has. *)
Definition cursor_tree_desc : descriptor Demo.env := {|
  API_URL := VNone;
  API_URL_META := Some "{base_url}/api/{record_id}";
  REGEXP_ID := Some "dataset/(?P<record_id>[^/]+)";
  META_FILES_JSONPATH := Some (inl "data[*]");
  PAGINATION_JSONPATH := Some "cursor";
  ATTR_KIND_JSONPATH := Some "kind";
  ATTR_NAME_JSONPATH := Some "name";
  ATTR_FILE_LINK_JSONPATH := Some "link";
  ATTR_FOLDER_LINK_JSONPATH := Some "link";
  ATTR_SIZE_JSONPATH := Some "size";
  ATTR_HASH_JSONPATH := Some "md5";
  ATTR_HASH_TYPE_JSONPATH := None;
  ATTR_HASH_TYPE_VALUE := Some (VStr "md5")
|}.

(** A repository whose name path finds nothing. *)
Definition nameless_desc : descriptor Demo.env := {|
  API_URL := VNone;
  API_URL_META := Some "{base_url}/api/{record_id}";
  REGEXP_ID := Some "dataset/(?P<record_id>[^/]+)";
  META_FILES_JSONPATH := Some (inl "data[*]");
  PAGINATION_JSONPATH := None;
  ATTR_KIND_JSONPATH := Some "kind";
  ATTR_NAME_JSONPATH := Some "title";
  ATTR_FILE_LINK_JSONPATH := Some "link";
  ATTR_FOLDER_LINK_JSONPATH := Some "link";
  ATTR_SIZE_JSONPATH := None;
  ATTR_HASH_JSONPATH := None;
  ATTR_HASH_TYPE_JSONPATH := None;
  ATTR_HASH_TYPE_VALUE := None
|}.

Definition sub_page_records : list value :=
  [Demo.file_record "c.csv" "https://repo.org/f/c" 30].

Definition sub_page_response : value :=
  VDict [("data", VList sub_page_records); ("next", VNone)].

(** What is on disk stays as it is: no file loses its content, no
    directory disappears. *)
Definition keeps_disk (s s' : state) : Prop :=
  (forall p data, fs_files s !! p = Some data -> fs_files s' !! p = Some data)
  /\ fs_dirs s ⊆ fs_dirs s'.

(** Nothing is deleted: what is on disk is still there, possibly with
    another content. *)
Definition keeps_paths (s s' : state) : Prop :=
  (forall p, is_Some (fs_files s !! p) -> is_Some (fs_files s' !! p))
  /\ fs_dirs s ⊆ fs_dirs s'.

Definition demo_conf_limit : config :=
  {| resource := VStr "https://repo.org/dataset/ds1";
     max_file_size := Some 100; filter_files := Some "**"; force_download := false;
     progress := true; unzip := true; checksum := false; print_only := false;
     params := None |}.

Definition demo_conf_force : config :=
  {| resource := VStr "https://repo.org/dataset/ds1";
     max_file_size := None; filter_files := None; force_download := true;
     progress := false; unzip := true; checksum := false; print_only := false;
     params := None |}.

Definition demo_conf_force_bar : config :=
  {| resource := VStr "https://repo.org/dataset/ds1";
     max_file_size := None; filter_files := None; force_download := true;
     progress := true; unzip := true; checksum := false; print_only := false;
     params := None |}.

(** The state after [open(p, "wb")]. *)
Definition opened (s : state) (p : string) : state :=
  {| attrs := attrs s; fs_files := <[p := []]> (fs_files s);
     fs_dirs := fs_dirs s; trace := trace s |}.

(** Between [s] and [s'] the attributes of the session are the same, no
    directory was removed and the files at the paths outside [T] are the
    same. *)
Definition outside (T : string -> Prop) (s s' : state) : Prop :=
  attrs s' = attrs s
  /\ fs_dirs s ⊆ fs_dirs s'
  /\ forall p, ~ T p -> fs_files s' !! p = fs_files s !! p.

(** The targets of the members of the archive behind [link]. *)
Definition archive_target (E : Env) (link : value) (out p : string) : Prop :=
  exists res members m,
    requests_get E link = Return res
    /\ zip_infolist E (content res) = Return members
    /\ In m members
    /\ is_dir_name (fst m) = false
    /\ p = member_target out m.

(** The small repository with another archive behind [data.zip]: two
    members with the same base name, and one without a name. *)
Definition archive_env (members : list (string * bytes)) : Env := {|
  jexpr := jexpr Demo.env;
  parse := parse Demo.env;
  find := find Demo.env;
  requests_get := requests_get Demo.env;
  zip_infolist := fun _ => Return members;
  hexdigest := hexdigest Demo.env;
  _format_filename := _format_filename Demo.env;
  _is_url := _is_url Demo.env;
  _get_url := _get_url Demo.env;
  re_search_groupdict := re_search_groupdict Demo.env;
  re_match_beyond := re_match_beyond Demo.env;
  urlparse := urlparse Demo.env;
  str_format := str_format Demo.env;
  json_dump := json_dump Demo.env;
  timestamp := timestamp Demo.env;
  io_denied := io_denied Demo.env
|}.

Definition colliding_members : list (string * bytes) :=
  [("a/x.csv", Demo.b "1"); ("b/x.csv", Demo.b "2")].

Definition nameless_members : list (string * bytes) :=
  [("a/x.csv", Demo.b "1"); ("", Demo.b "?"); ("b/y.csv", Demo.b "2")].

(** The algorithms [_check_checksums] computes. *)
Definition known_algorithm (a : string) : bool :=
  List.existsb (String.eqb a) ["md5"; "sha1"; "sha224"; "sha256"; "sha384"; "sha512"].

(** Where [_check_checksums] writes its report. *)
Definition report_path (E : Env) (out : string) : string :=
  (out +:+ "/generated") +:+ "/checksums" +:+ timestamp E +:+ ".json".

Definition demo_missing_folder : state :=
  {| attrs := ∅; fs_files := ∅; fs_dirs := {[ "elsewhere" ]}; trace := [] |}.

(** The disk is the same. *)
Definition same_disk (s s' : state) : Prop :=
  fs_files s' = fs_files s /\ fs_dirs s' = fs_dirs s.

(** Code that looks at the state and leaves it as it is. *)
Definition reads {A} (m : M A) : Prop :=
  forall s, match m s with
            | Ok _ s' => s' = s
            | Exc _ s' => s' = s
            | OutOfFuel => True
            end.

Definition demo_conf_plain : config :=
  {| resource := VStr "https://repo.org/dataset/ds1";
     max_file_size := None; filter_files := None; force_download := false;
     progress := false; unzip := false; checksum := false; print_only := false;
     params := None |}.

(** A list that is cached stays cached. *)
Definition cached_stays (s s' : state) : Prop :=
  forall l, attrs s !! "_files" = Some (AFiles l) -> attrs s' !! "_files" = Some (AFiles l).

(** A repository that declares no link path. *)
Definition linkless_desc : descriptor Demo.env := {|
  API_URL := VNone;
  API_URL_META := Some "{base_url}/api/{record_id}";
  REGEXP_ID := Some "dataset/(?P<record_id>[^/]+)";
  META_FILES_JSONPATH := Some (inl "data[*]");
  PAGINATION_JSONPATH := None;
  ATTR_KIND_JSONPATH := Some "kind";
  ATTR_NAME_JSONPATH := Some "name";
  ATTR_FILE_LINK_JSONPATH := None;
  ATTR_FOLDER_LINK_JSONPATH := None;
  ATTR_SIZE_JSONPATH := Some "size";
  ATTR_HASH_JSONPATH := None;
  ATTR_HASH_TYPE_JSONPATH := None;
  ATTR_HASH_TYPE_VALUE := None
|}.

Definition demo_conf_unknown : config :=
  {| resource := VStr "https://repo.org/other/ds1";
     max_file_size := None; filter_files := None; force_download := false;
     progress := true; unzip := true; checksum := false; print_only := false;
     params := None |}.

Definition demo_conf_gone : config :=
  {| resource := VStr "https://repo.org/dataset/gone";
     max_file_size := None; filter_files := None; force_download := false;
     progress := true; unzip := true; checksum := false; print_only := false;
     params := None |}.

(** What a run that raises leaves behind. *)
Definition failing (R : state -> state -> Prop) {A} (m : M A) : Prop :=
  forall s e s', m s = Exc e s' -> R s s'.

(** The attribute [name] is as before. *)
Definition keeps_slot (name : string) (s s' : state) : Prop :=
  attrs s' !! name = attrs s !! name.

Definition demo_conf_linkless : config :=
  {| resource := VStr "https://repo.org/dataset/ds2";
     max_file_size := None; filter_files := None; force_download := false;
     progress := true; unzip := false; checksum := false; print_only := true;
     params := None |}.

(** * Properties *)

(** ** Running effectful code *)

Lemma bind_ok {A B} (m : M A) (k : A -> M B) s b s' :
  bind m k s = Ok b s' -> exists a s1, m s = Ok a s1 /\ k a s1 = Ok b s'.
Proof.
  unfold bind. destruct (m s) as [a s1| |]; try discriminate.
  intros H. exists a, s1. split; [reflexivity | exact H].
Qed.

Lemma bind_step {A B} (m : M A) (k : A -> M B) s a s1 :
  m s = Ok a s1 -> bind m k s = k a s1.
Proof. unfold bind. intros ->. reflexivity. Qed.

Lemma bind_exc {A B} (m : M A) (k : A -> M B) s e s1 :
  m s = Exc e s1 -> bind m k s = Exc e s1.
Proof. unfold bind. intros ->. reflexivity. Qed.

Lemma lift_ok {A} (o : outcome A) s a s' :
  lift o s = Ok a s' -> o = Return a /\ s' = s.
Proof.
  destruct o; simpl; unfold ret, raise; intros H; inversion H; auto.
Qed.

Lemma lift_return {A} (o : outcome A) a s : o = Return a -> lift o s = Ok a s.
Proof. intros ->. reflexivity. Qed.

Lemma ret_ok {A} (a b : A) s s' : ret a s = Ok b s' -> a = b /\ s = s'.
Proof. unfold ret. intros H. inversion H. auto. Qed.

(** ** Attribute extraction never raises *)

(** C7: for every record and every path expression, [_get_attr_attr] returns
    normally; when the expression does not compile, when the search raises
    and when it finds nothing, the value returned is [None]. *)
Theorem get_attr_attr_never_raises (E : Env) (record : value) (jsonp : string) :
  (exists v, _get_attr_attr E record jsonp = Return v)
  /\ _get_attr_attr E record jsonp =
       Return (match parse E jsonp with
               | Return e =>
                   match find E e record with
                   | Return (v :: _) => v
                   | Return [] => VNone
                   | Raise _ => VNone
                   end
               | Raise _ => VNone
               end).
Proof.
  unfold _get_attr_attr, try_except, obind.
  destruct (parse E jsonp) as [e|x]; [|eauto].
  destruct (find E e record) as [[|v l]|x]; simpl; eauto.
Qed.

(** ** The listing *)

Section ListingProofs.

Context (E : Env) (D : descriptor E).

Lemma http_get_ok url s res s' :
  http_get E url s = Ok res s' -> requests_get E url = Return res.
Proof.
  unfold http_get. intros H. apply bind_ok in H as (u & s1 & _ & H).
  apply lift_ok in H as [H _]. exact H.
Qed.

Lemma http_get_return url s res :
  requests_get E url = Return res ->
  exists s1, http_get E url s = Ok res s1.
Proof.
  intros H. unfold http_get, bind, emit. rewrite H. simpl. eauto.
Qed.

Lemma record_loop_sound self_call folder base :
  (forall url f b s l s', self_call url f b s = Ok l s' -> listing E D url f b l) ->
  forall records acc s res s',
    for_each (record_step E D self_call folder base) records acc s = Ok res s' ->
    exists here, res = acc ++ here /\ contributions E D folder base records here.
Proof.
  intros Hself records.
  induction records as [|f rest IH]; intros acc s res s' H; simpl in H.
  - apply ret_ok in H as [<- _]. exists []. rewrite app_nil_r. split; [reflexivity | constructor].
  - apply bind_ok in H as (acc1 & s1 & Hstep & H).
    apply IH in H as (l & -> & Hl).
    unfold record_step in Hstep.
    apply bind_ok in Hstep as (f_path & s2 & Hp & Hstep). apply lift_ok in Hp as [Hp ->].
    apply bind_ok in Hstep as (kind & s2 & Hk & Hstep). apply lift_ok in Hk as [Hk ->].
    destruct (eq_str kind "folder") eqn:Hfolder.
    + apply bind_ok in Hstep as (link & s2 & Hlink & Hstep). apply lift_ok in Hlink as [Hlink ->].
      apply bind_ok in Hstep as (sub & s2 & Hsub & Hstep).
      apply ret_ok in Hstep as [<- _].
      exists (sub ++ l). rewrite app_assoc. split; [reflexivity|].
      eapply contributions_folder; eauto.
    + apply bind_ok in Hstep as (e & s2 & He & Hstep). apply lift_ok in He as [He ->].
      apply ret_ok in Hstep as [<- _].
      exists (e :: l). rewrite <- app_assoc. split; [reflexivity|].
      eapply contributions_file; eauto.
Qed.

Lemma paginate_sound self_call response folder :
  (forall url f b s l s', self_call url f b s = Ok l s' -> listing E D url f b l) ->
  forall result s res s',
    paginate E D self_call response folder result s = Ok res s' ->
    exists next, res = result ++ next /\ following E D response folder next.
Proof.
  intros Hself result s res s' H. unfold paginate in H.
  destruct (PAGINATION_JSONPATH D) as [p|] eqn:Hp.
  - apply bind_ok in H as (next_url & s1 & Hn & H). apply lift_ok in Hn as [Hn ->].
    destruct (truthy next_url) eqn:Ht.
    + apply bind_ok in H as (more & s2 & Hm & H). apply ret_ok in H as [<- _].
      exists more. split; [reflexivity|]. eapply following_more; eauto.
    + apply ret_ok in H as [<- _]. exists []. rewrite app_nil_r.
      split; [reflexivity|]. eapply following_last; eauto.
  - apply ret_ok in H as [<- _]. exists []. rewrite app_nil_r.
    split; [reflexivity|]. apply following_undeclared; assumption.
Qed.

Lemma traversal_sound fuel :
  forall url folder base s l s',
    _get_files_recursive E D fuel url folder base s = Ok l s' ->
    listing E D url folder base l.
Proof.
  induction fuel as [|fuel IH]; intros url folder base s l s' H; simpl in H; [discriminate|].
  apply bind_ok in H as (res & s1 & Hget & H). apply http_get_ok in Hget.
  apply bind_ok in H as (u & s2 & Hstatus & H).
  unfold raise_for_status in Hstatus.
  destruct (status_ok res) eqn:Hokay; [|discriminate].
  apply bind_ok in H as (response & s3 & Hjson & H). apply lift_ok in Hjson as [Hjson ->].
  apply bind_ok in H as (records & s3 & Hraw & H). apply lift_ok in Hraw as [Hraw ->].
  apply bind_ok in H as (result & s3 & Hloop & H).
  apply (record_loop_sound _ _ _ IH) in Hloop as (here & -> & Hhere).
  apply (paginate_sound _ _ _ IH) in H as (next & -> & Hnext).
  simpl. eapply listing_page; eauto.
  unfold page_of. rewrite Hget. simpl. rewrite Hokay. exact Hjson.
Qed.

Lemma traversal_complete :
  (forall url folder base l, listing E D url folder base l -> runs_listing E D url folder base l)
  /\ (forall folder base records here,
        contributions E D folder base records here ->
        runs_contributions E D folder base records here)
  /\ (forall response folder next,
        following E D response folder next -> runs_following E D response folder next).
Proof.
  apply listing_mutind.
  - (* a page *)
    intros url folder base response records here next Hpage Hraw _ IHc _ IHf s.
    unfold page_of in Hpage.
    destruct (requests_get E url) as [res|] eqn:Hget; [|discriminate]. simpl in Hpage.
    destruct (status_ok res) eqn:Hokay; [|discriminate].
    destruct (http_get_return url s res Hget) as [s1 Hs1].
    destruct (IHc [] s1) as (n1 & s2 & H1).
    destruct (IHf here s2) as (n2 & s3 & H2).
    exists (S (Nat.max n1 n2)), s3. intros n Hn.
    destruct n as [|n]; [lia|]. simpl.
    rewrite (bind_step _ _ _ _ _ Hs1).
    unfold raise_for_status. rewrite Hokay.
    rewrite (bind_step _ _ _ tt s1) by reflexivity.
    rewrite (bind_step _ _ _ _ _ (lift_return _ _ s1 Hpage)).
    rewrite (bind_step _ _ _ _ _ (lift_return _ _ s1 Hraw)).
    rewrite (bind_step _ _ _ _ _ (H1 n ltac:(lia))). simpl.
    apply H2. lia.
  - (* no record *)
    intros folder base acc s. exists O, s. intros n _. simpl. rewrite app_nil_r. reflexivity.
  - (* a file *)
    intros folder base f rest f_path kind e l Hp Hk Hfolder He _ IH acc s.
    destruct (IH (acc ++ [e]) s) as (n1 & s1 & H1).
    exists n1, s1. intros n Hn. simpl.
    assert (Hstep : record_step E D (_get_files_recursive E D n) folder base acc f s
                    = Ok (acc ++ [e]) s).
    { unfold record_step.
      rewrite (bind_step _ _ _ _ _ (lift_return _ _ s Hp)).
      rewrite (bind_step _ _ _ _ _ (lift_return _ _ s Hk)).
      rewrite Hfolder.
      rewrite (bind_step _ _ _ _ _ (lift_return _ _ s He)). reflexivity. }
    rewrite (bind_step _ _ _ _ _ Hstep).
    rewrite (H1 n Hn). rewrite <- app_assoc. reflexivity.
  - (* a folder *)
    intros folder base f rest f_path kind link sub l Hp Hk Hfolder Hlink _ IHsub _ IH acc s.
    destruct (IHsub s) as (n1 & s1 & H1).
    destruct (IH (acc ++ sub) s1) as (n2 & s2 & H2).
    exists (Nat.max n1 n2), s2. intros n Hn. simpl.
    assert (Hstep : record_step E D (_get_files_recursive E D n) folder base acc f s
                    = Ok (acc ++ sub) s1).
    { unfold record_step.
      rewrite (bind_step _ _ _ _ _ (lift_return _ _ s Hp)).
      rewrite (bind_step _ _ _ _ _ (lift_return _ _ s Hk)).
      rewrite Hfolder.
      rewrite (bind_step _ _ _ _ _ (lift_return _ _ s Hlink)).
      rewrite (bind_step _ _ _ _ _ (H1 n ltac:(lia))). reflexivity. }
    rewrite (bind_step _ _ _ _ _ Hstep).
    rewrite (H2 n ltac:(lia)). rewrite <- app_assoc. reflexivity.
  - (* no pagination path *)
    intros response folder Hp result s. exists O, s. intros n _.
    unfold paginate. rewrite Hp, app_nil_r. reflexivity.
  - (* the last page *)
    intros response folder p next_url Hp Hn Ht result s. exists O, s. intros n _.
    unfold paginate. rewrite Hp.
    rewrite (bind_step _ _ _ _ _ (lift_return _ _ s Hn)).
    rewrite Ht, app_nil_r. reflexivity.
  - (* one more page *)
    intros response folder p next_url more Hp Hn Ht _ IH result s.
    destruct (IH s) as (n1 & s1 & H1).
    exists n1, s1. intros n Hle.
    unfold paginate. rewrite Hp.
    rewrite (bind_step _ _ _ _ _ (lift_return _ _ s Hn)).
    rewrite Ht.
    rewrite (bind_step _ _ _ _ _ (H1 n Hle)). reflexivity.
Qed.

End ListingProofs.

(** C1: the list [_get_files_recursive] returns is the one [listing]
    describes, and every described list is returned once the fuel covers the
    depth of the remote tree: the records contribute in their order, a
    folder contributes the list of its link under the joined prefix at its
    place, any other record exactly one entry, and the next page follows
    under the same prefix.  Without a kind path every record is a file. *)
Theorem traversal_is_listing (E : Env) (D : descriptor E) :
  (forall fuel url folder base s l s',
      _get_files_recursive E D fuel url folder base s = Ok l s' ->
      listing E D url folder base l)
  /\ (forall url folder base l,
        listing E D url folder base l ->
        forall s, exists fuel s', _get_files_recursive E D fuel url folder base s = Ok l s')
  /\ (forall f, ATTR_KIND_JSONPATH D = None -> _get_attr_kind E D f = Return (VStr "file")).
Proof.
  split; [|split].
  - intros fuel. apply traversal_sound.
  - intros url folder base l H s.
    destruct (proj1 (traversal_complete E D) _ _ _ _ H s) as (fuel & s' & Hrun).
    exists fuel, s'. apply Hrun. lia.
  - intros f H. unfold _get_attr_kind. rewrite H. reflexivity.
Qed.

Lemma traversal_is_listing_witness :
  listing Demo.env Demo.desc (VStr "https://repo.org/api/ds1") VNone
          (Some "https://repo.org") demo_listing.
Proof.
  apply (proj1 (traversal_is_listing Demo.env Demo.desc) 3%nat _ _ _ Demo.start _
           (state_of (_get_files_recursive Demo.env Demo.desc 3
                        (VStr "https://repo.org/api/ds1") VNone (Some "https://repo.org")
                        Demo.start) Demo.start)).
  vm_compute. reflexivity.
Defined.

(** ** Parameters *)

Lemma updated_lookup (caller url_params : gmap string value) (k : string) :
  updated caller url_params !! k =
    match url_params !! k with
    | Some v => Some v
    | None => caller !! k
    end.
Proof.
  unfold updated. revert k.
  apply (map_fold_weak_ind
           (fun r m => forall k, r !! k = match m !! k with Some v => Some v | None => caller !! k end)).
  - intros k. rewrite lookup_empty. reflexivity.
  - intros i x m r Hm IH k. destruct (decide (i = k)) as [->|Hne].
    + rewrite !lookup_insert_eq. reflexivity.
    + rewrite !lookup_insert_ne by assumption. apply IH.
Qed.

Lemma updated_union (caller url_params : gmap string value) :
  updated caller url_params = url_params ∪ caller.
Proof.
  apply map_eq. intros k. rewrite updated_lookup, lookup_union.
  destruct (url_params !! k), (caller !! k); reflexivity.
Qed.

Lemma params_given_union (C : config) (url_params : gmap string value) :
  match params_given C with
  | Some p => updated p url_params
  | None => url_params
  end = url_params ∪ caller_params C.
Proof.
  unfold params_given, caller_params.
  destruct (params C) as [p|]; simpl.
  - case_bool_decide as Hp.
    + subst p. rewrite (right_id_L ∅ (∪)). reflexivity.
    + apply updated_union.
  - rewrite (right_id_L ∅ (∪)). reflexivity.
Qed.

Lemma params_run (E : Env) (D : descriptor E) (C : config) s url url_params :
  attrs s !! "__params" = None ->
  _get_url E (resource C) = Return url ->
  _parse_url E D url = Return url_params ->
  _params E D C s =
    Ok (url_params ∪ caller_params C)
       (with_attr (add_events s [EvCall "_get_url"; EvCall "_parse_url"])
                  "_DatasetDownloader__params" (AParams (url_params ∪ caller_params C))).
Proof.
  intros Hfresh Hurl Hparse.
  unfold _params, bind, hasattr. rewrite Hfresh.
  rewrite bool_decide_eq_false_2 by (intros [x Hx]; discriminate).
  unfold emit. rewrite Hurl. simpl. rewrite Hparse. simpl.
  change (mangle "__params") with "_DatasetDownloader__params".
  pose proof (params_given_union C url_params) as Hu.
  destruct (params_given C) as [p|]; [rewrite Hu | rewrite <- Hu];
    unfold setattr, getattr; simpl;
    rewrite lookup_insert_eq; unfold ret, with_attr, add_events; simpl;
    rewrite <- app_assoc; reflexivity.
Qed.

Lemma params_inv (E : Env) (D : descriptor E) (C : config) s p s1 :
  attrs s !! "__params" = None ->
  _params E D C s = Ok p s1 ->
  exists url url_params,
    _get_url E (resource C) = Return url /\ _parse_url E D url = Return url_params.
Proof.
  intros Hfresh H. unfold _params in H.
  apply bind_ok in H as (cached & s0 & Hc & H).
  unfold hasattr in Hc. rewrite Hfresh in Hc.
  rewrite bool_decide_eq_false_2 in Hc by (intros [x Hx]; discriminate).
  inversion Hc; subst cached s0; clear Hc.
  apply bind_ok in H as (u & s2 & _ & H).
  apply bind_ok in H as (url & s3 & Hurl & H). apply lift_ok in Hurl as [Hurl ->].
  apply bind_ok in H as (u' & s3 & _ & H).
  apply bind_ok in H as (url_params & s4 & Hp & H). apply lift_ok in Hp as [Hp ->].
  eauto.
Qed.

(** C8: on a session whose URL is recognised, [_params] is the caller's
    mapping updated with the groups taken from the URL: a key of the URL
    has the URL's value, also when the caller gave one, and every other key
    keeps the caller's value. *)
Theorem params_url_takes_precedence (E : Env) (D : descriptor E) (C : config)
    (s : state) (url : value) (url_params : gmap string value) :
  attrs s !! "__params" = None ->
  _get_url E (resource C) = Return url ->
  _parse_url E D url = Return url_params ->
  exists resolved s',
    _params E D C s = Ok resolved s'
    /\ resolved = url_params ∪ caller_params C
    /\ (forall k v, url_params !! k = Some v -> resolved !! k = Some v)
    /\ (forall k, url_params !! k = None -> resolved !! k = caller_params C !! k).
Proof.
  intros Hfresh Hurl Hparse.
  eexists _, _. split; [apply (params_run E D C s url url_params); assumption|].
  split; [reflexivity|]. split.
  - intros k v Hk. rewrite lookup_union, Hk. destruct (caller_params C !! k); reflexivity.
  - intros k Hk. rewrite lookup_union, Hk. destruct (caller_params C !! k); reflexivity.
Qed.

Lemma params_url_takes_precedence_witness :
  exists resolved s',
    _params Demo.env Demo.desc demo_conf_params Demo.start = Ok resolved s'
    /\ resolved !! "record_id" = Some (VStr "ds1")
    /\ resolved !! "token" = Some (VStr "secret").
Proof.
  destruct (params_url_takes_precedence Demo.env Demo.desc demo_conf_params Demo.start
              (VStr "https://repo.org/dataset/ds1")
              {[ "record_id" := VStr "ds1"; "version" := VNone ]})
    as (resolved & s' & Hrun & _ & Hurl & Hcaller).
  - reflexivity.
  - reflexivity.
  - vm_compute. reflexivity.
  - exists resolved, s'. split; [exact Hrun|]. split.
    + apply Hurl. reflexivity.
    + rewrite Hcaller by reflexivity. reflexivity.
Defined.

(** C3 (the parameters): the value is stored under the mangled name
    [_DatasetDownloader__params], while [hasattr] looks for the attribute
    [__params], which never exists; so an access after the first one finds no
    cache, and calls [_get_url] and [_parse_url] again. *)
Theorem params_cache_is_never_hit (E : Env) (D : descriptor E) (C : config)
    (s : state) (p : gmap string value) (s1 : state) :
  attrs s !! "__params" = None ->
  _params E D C s = Ok p s1 ->
  attrs s1 !! "__params" = None
  /\ attrs s1 !! "_DatasetDownloader__params" = Some (AParams p)
  /\ exists s2, _params E D C s1 = Ok p s2
       /\ trace s2 = trace s1 ++ [EvCall "_get_url"; EvCall "_parse_url"].
Proof.
  intros Hfresh Hrun.
  destruct (params_inv E D C s p s1 Hfresh Hrun) as (url & url_params & Hurl & Hparse).
  rewrite (params_run E D C s url url_params Hfresh Hurl Hparse) in Hrun.
  inversion Hrun; subst p s1; clear Hrun.
  assert (Hfresh1 : attrs (with_attr (add_events s [EvCall "_get_url"; EvCall "_parse_url"])
                             "_DatasetDownloader__params"
                             (AParams (url_params ∪ caller_params C))) !! "__params" = None).
  { simpl. rewrite lookup_insert_ne by discriminate. exact Hfresh. }
  split; [exact Hfresh1|]. split.
  - simpl. apply lookup_insert_eq.
  - eexists. split; [apply (params_run E D C _ url url_params Hfresh1 Hurl Hparse)|].
    reflexivity.
Qed.

Lemma params_cache_is_never_hit_witness :
  exists p s1 s2,
    _params Demo.env Demo.desc (Demo.conf "https://repo.org/dataset/ds1") Demo.start = Ok p s1
    /\ _params Demo.env Demo.desc (Demo.conf "https://repo.org/dataset/ds1") s1 = Ok p s2
    /\ trace s2 = [EvCall "_get_url"; EvCall "_parse_url"; EvCall "_get_url"; EvCall "_parse_url"].
Proof.
  pose (r := _params Demo.env Demo.desc (Demo.conf "https://repo.org/dataset/ds1") Demo.start).
  assert (Hr : r = Ok {[ "record_id" := VStr "ds1"; "version" := VNone ]} (state_of r Demo.start)).
  { vm_compute. reflexivity. }
  destruct (params_cache_is_never_hit Demo.env Demo.desc
              (Demo.conf "https://repo.org/dataset/ds1") Demo.start _ _ eq_refl Hr)
    as (_ & _ & s2 & Hagain & Htrace).
  eexists _, _, s2. split; [exact Hr|]. split; [exact Hagain|].
  rewrite Htrace. reflexivity.
Defined.

(** ** The per-file download *)

Lemma append_nil (t : string) : "" +:+ t = t.
Proof. reflexivity. Qed.

Lemma append_cons (a : ascii) (s t : string) : String a s +:+ t = String a (s +:+ t).
Proof. reflexivity. Qed.

Lemma string_eqb_cons a s b t :
  String.eqb (String a s) (String b t) = Ascii.eqb a b && String.eqb s t.
Proof. simpl. destruct (Ascii.eqb a b); reflexivity. Qed.

(** A literal pattern closed by [$], tried where the subject begins, accepts
    the literal itself and the literal followed by one newline. *)
Lemma match_literal_eol (p : string) :
  forall at_start s,
    match_here (literal p ++ [REol]) at_start s
    = String.eqb s p || String.eqb s (with_newline p).
Proof.
  induction p as [|a p IH]; intros at_start s.
  - cbn [literal list_ascii_of_string List.map app match_here].
    unfold with_newline. rewrite append_nil, andb_true_r.
    destruct s as [|c [|c' r]]; cbn [at_end]; try reflexivity.
    + rewrite string_eqb_cons. cbn [String.eqb orb].
      rewrite andb_true_r. reflexivity.
    + rewrite string_eqb_cons. cbn [String.eqb orb].
      rewrite andb_false_r. reflexivity.
  - cbn [literal list_ascii_of_string List.map app match_here].
    fold (literal p). destruct s as [|c s]; [reflexivity|].
    unfold with_newline. rewrite append_cons. fold (with_newline p).
    rewrite !string_eqb_cons, IH. cbn [catom_accepts].
    rewrite (Ascii.eqb_sym a c). destruct (Ascii.eqb c a); reflexivity.
Qed.

Lemma csv_pattern_match (E : Env) (name : string) :
  re_match E csv_pattern (VStr name)
  = Return (String.eqb name ".csv" || String.eqb name (with_newline ".csv")).
Proof.
  unfold re_match.
  change (re_compile csv_pattern) with (Parsed (literal ".csv" ++ [REol])).
  cbv iota. rewrite match_literal_eol. reflexivity.
Qed.

Lemma skip_only_messages (E : Env) (C : config) (msg : string) (name : value)
    (status : string) (s : state) :
  let r := (emit (EvLogInfo msg);;; when (progress C) (report E name status)) s in
  r <> OutOfFuel /\ only_messages s (state_of r s).
Proof.
  unfold bind, emit, when, report, bind, lift.
  destruct (progress C); [destruct (_format_filename E name) as [shown|e]|]; simpl.
  - split; [discriminate|]. repeat split. eexists. rewrite <- app_assoc.
    split; [reflexivity|]. repeat constructor.
  - split; [discriminate|]. repeat split. eexists.
    split; [reflexivity|]. repeat constructor.
  - split; [discriminate|]. repeat split. eexists.
    split; [reflexivity|]. repeat constructor.
Qed.

(** C5, against the claim: [data.csv] ends in [.csv], and with the filter
    [\.csv$] it is skipped: no request, no write. *)
Lemma csv_filter_skips_data_csv :
  endswith "data.csv" ".csv" = true
  /\ download_file Demo.env csv_conf (VStr "https://repo.org/f/a") "out"
       (VStr "data.csv") (VInt 10) VNone VNone Demo.start
     = Ok tt (add_events Demo.start
                [EvLogInfo "Skipping file by filter"; EvPrint "data.csv: SKIPPED"]).
Proof. split; vm_compute; reflexivity. Qed.

(** C5, as the code has it: [re.match] tries the pattern where the name
    begins, so with the filter [\.csv$] the names that pass are [.csv] and
    [.csv] followed by a newline; these go on to the download step.  Every
    other name, [data.csv] included, is skipped: the entry is logged,
    reported [SKIPPED] when progress is shown, and nothing is requested or
    written. *)
Theorem csv_filter_matches_from_start (E : Env) (C : config)
    (link : value) (out name : string) (size h ht : value) (s : state) :
  filter_files C = Some csv_pattern ->
  too_large C size = Return false ->
  let passes := String.eqb name ".csv" || String.eqb name (with_newline ".csv") in
  let r := download_file E C link out (VStr name) size h ht s in
  r = (if passes
       then (if negb (print_only C)
             then fetch_and_write E C link out (VStr name) s
             else report E (VStr name) "COMPLETE" s)
       else (emit (EvLogInfo "Skipping file by filter");;;
             when (progress C) (report E (VStr name) "SKIPPED")) s)
  /\ (passes = false -> r <> OutOfFuel /\ only_messages s (state_of r s)).
Proof.
  intros Hfilter Hsize passes r.
  assert (Hr : r = (if passes
       then (if negb (print_only C)
             then fetch_and_write E C link out (VStr name) s
             else report E (VStr name) "COMPLETE" s)
       else (emit (EvLogInfo "Skipping file by filter");;;
             when (progress C) (report E (VStr name) "SKIPPED")) s)).
  { unfold r, download_file.
    rewrite (bind_step _ _ _ _ _ (lift_return _ _ s Hsize)).
    assert (Hout : filtered_out E C (VStr name) = Return (negb passes)).
    { unfold filtered_out. rewrite Hfilter.
      change (String.eqb csv_pattern "") with false. cbv iota.
      rewrite csv_pattern_match. reflexivity. }
    rewrite (bind_step _ _ _ _ _ (lift_return _ _ s Hout)).
    destruct passes; cbn [negb]; [|reflexivity].
    destruct (negb (print_only C)); reflexivity. }
  split; [exact Hr|].
  intros Hp. rewrite Hr, Hp. apply skip_only_messages.
Qed.

Lemma csv_filter_matches_from_start_witness :
  download_file Demo.env csv_conf (VStr "https://repo.org/f/a") "out"
    (VStr "sub/c.csv") (VInt 30) VNone VNone Demo.start
  = Ok tt (add_events Demo.start
             [EvLogInfo "Skipping file by filter"; EvPrint "sub/c.csv: SKIPPED"])
  /\ download_file Demo.env csv_conf (VStr "https://repo.org/f/a") "out"
       (VStr ".csv") (VInt 30) VNone VNone Demo.start
     = fetch_and_write Demo.env csv_conf (VStr "https://repo.org/f/a") "out"
         (VStr ".csv") Demo.start.
Proof.
  split.
  - rewrite (proj1 (csv_filter_matches_from_start Demo.env csv_conf
                      (VStr "https://repo.org/f/a") "out" "sub/c.csv" (VInt 30) VNone VNone
                      Demo.start eq_refl eq_refl)).
    vm_compute. reflexivity.
  - rewrite (proj1 (csv_filter_matches_from_start Demo.env csv_conf
                      (VStr "https://repo.org/f/a") "out" ".csv" (VInt 30) VNone VNone
                      Demo.start eq_refl eq_refl)).
    reflexivity.
Defined.

(** C10: an entry that passes the size test and the filter, with
    [print_only] off, is requested first; only then is the target looked
    at.  When the target exists and [force_download] is off, a failing
    request raises (the run stops there), and a successful one ends in
    [File already exists]; the files on disk are the same in each case. *)
Theorem download_requests_before_exists_check (E : Env) (C : config)
    (link : value) (out n : string) (size h ht : value) (s : state) (old : bytes) :
  too_large C size = Return false ->
  filtered_out E C (VStr n) = Return false ->
  print_only C = false ->
  force_download C = false ->
  fs_files s !! Path2 out n = Some old ->
  path_parent (Path2 out n) ∈ fs_dirs s ->
  download_file E C link out (VStr n) size h ht s =
    match requests_get E link with
    | Return res =>
        if status_ok res
        then Ok tt (add_events s [EvLogInfo "Downloading file"; EvGet link;
                                  EvPrint ("File already exists: " +:+ n)])
        else Exc HTTPError (add_events s [EvLogInfo "Downloading file"; EvGet link])
    | Raise e => Exc e (add_events s [EvLogInfo "Downloading file"; EvGet link])
    end.
Proof.
  intros Hsize Hfilter Hprint Hforce Hold Hparent.
  unfold download_file.
  rewrite (bind_step _ _ _ _ _ (lift_return _ _ s Hsize)).
  rewrite (bind_step _ _ _ _ _ (lift_return _ _ s Hfilter)).
  rewrite Hprint. cbn [negb].
  unfold fetch_and_write, http_get, bind, emit, raise_for_status, lift, add_events.
  cbn [trace attrs fs_files fs_dirs].
  destruct (requests_get E link) as [res|e]; cbn [ret raise].
  - destruct (status_ok res); cbn [ret raise Path2v].
    + unfold mkdir_parents, path_exists. cbn [fs_dirs fs_files trace attrs].
      rewrite (bool_decide_eq_true_2 _ Hparent).
      cbn [fs_dirs fs_files trace attrs].
      rewrite Hold, Hforce.
      rewrite (bool_decide_eq_true_2 (is_Some (Some old))) by eauto.
      cbn [negb andb orb trace attrs fs_files fs_dirs].
      rewrite <- !app_assoc. reflexivity.
    + rewrite <- !app_assoc. reflexivity.
  - rewrite <- !app_assoc. reflexivity.
Qed.

Lemma download_requests_before_exists_check_witness :
  download_file Demo.env (Demo.conf "https://repo.org/dataset/ds1")
    (VStr "https://repo.org/f/gone") "out" (VStr "a.csv") (VInt 10) VNone VNone demo_existing
  = Exc HTTPError (add_events demo_existing
                     [EvLogInfo "Downloading file"; EvGet (VStr "https://repo.org/f/gone")])
  /\ download_file Demo.env (Demo.conf "https://repo.org/dataset/ds1")
       (VStr "https://repo.org/f/a") "out" (VStr "a.csv") (VInt 10) VNone VNone demo_existing
     = Ok tt (add_events demo_existing
                [EvLogInfo "Downloading file"; EvGet (VStr "https://repo.org/f/a");
                 EvPrint "File already exists: a.csv"]).
Proof.
  assert (Hparent : path_parent (Path2 "out" "a.csv") ∈ fs_dirs demo_existing).
  { change (path_parent (Path2 "out" "a.csv")) with "out". simpl. set_solver. }
  split.
  - rewrite (download_requests_before_exists_check Demo.env
               (Demo.conf "https://repo.org/dataset/ds1") (VStr "https://repo.org/f/gone")
               "out" "a.csv" (VInt 10) VNone VNone demo_existing (Demo.b "old")
               eq_refl eq_refl eq_refl eq_refl eq_refl Hparent).
    reflexivity.
  - rewrite (download_requests_before_exists_check Demo.env
               (Demo.conf "https://repo.org/dataset/ds1") (VStr "https://repo.org/f/a")
               "out" "a.csv" (VInt 10) VNone VNone demo_existing (Demo.b "old")
               eq_refl eq_refl eq_refl eq_refl eq_refl Hparent).
    reflexivity.
Defined.

(** ** The cached listing *)

Lemma files_again (E : Env) (D : descriptor E) (C : config) fuel s l :
  attrs s !! "_files" = Some (AFiles l) ->
  files E D C fuel s = Ok l s.
Proof.
  intros H. unfold files, bind, hasattr, getattr.
  rewrite H. rewrite bool_decide_eq_true_2 by eauto.
  change (mangle "_files") with "_files". rewrite H. reflexivity.
Qed.

(** After the first access, [files] answers from [_files]: the same list, and
    the state is left as it is (no request, no event). *)
Lemma files_cached (E : Env) (D : descriptor E) (C : config) fuel s l s1 :
  files E D C fuel s = Ok l s1 ->
  attrs s1 !! "_files" = Some (AFiles l)
  /\ forall fuel', files E D C fuel' s1 = Ok l s1.
Proof.
  intros H.
  assert (Hattr : attrs s1 !! "_files" = Some (AFiles l)).
  { unfold files in H. change (mangle "_files") with "_files" in H.
    apply bind_ok in H as (cached & s0 & Hc & H).
    unfold hasattr in Hc. inversion Hc; subst cached s0; clear Hc.
    case_bool_decide as Hhas.
    - apply bind_ok in H as (a & s0 & Ha & H).
      unfold getattr in Ha. destruct (attrs s !! "_files") as [a'|] eqn:Hl; [|discriminate].
      inversion Ha; subst a' s0; clear Ha.
      destruct a as [p|l']; [discriminate|].
      apply ret_ok in H as [-> ->]. exact Hl.
    - apply bind_ok in H as (u1 & s2 & _ & H).
      apply bind_ok in H as (url & s3 & _ & H).
      apply bind_ok in H as (uri & s4 & _ & H).
      apply bind_ok in H as (template & s5 & _ & H).
      apply bind_ok in H as (p & s6 & _ & H).
      apply bind_ok in H as (meta_url & s7 & _ & H).
      apply bind_ok in H as (l0 & s8 & _ & H).
      apply bind_ok in H as (u2 & s9 & Hset & H).
      unfold setattr in Hset. inversion Hset; subst u2 s9; clear Hset.
      apply bind_ok in H as (a & s10 & Ha & H).
      unfold getattr in Ha. cbn [attrs] in Ha. rewrite lookup_insert_eq in Ha.
      inversion Ha; subst a s10; clear Ha.
      apply ret_ok in H as [-> <-]. cbn [attrs]. apply lookup_insert_eq. }
  split; [exact Hattr|]. intros fuel'. apply files_again. exact Hattr.
Qed.

(** ** A single archive *)

Lemma last_char_nonempty (name : string) :
  String.eqb name "" = false -> exists c, last_char name = Return c.
Proof.
  unfold last_char. destruct name as [|a r]; [discriminate|]. intros _.
  cbn [list_ascii_of_string List.rev].
  destruct (List.rev (list_ascii_of_string r) ++ [a]) as [|c l] eqn:Hl.
  - apply app_eq_nil in Hl as [_ Hl]. discriminate.
  - eauto.
Qed.

Lemma unpack_state_dirs out members s :
  fs_dirs (unpack_state out members s) = fs_dirs s.
Proof.
  revert s. induction members as [|m ms IH]; intros s; [reflexivity|].
  simpl. rewrite IH. destruct (is_dir_name (fst m)); reflexivity.
Qed.

Lemma unpack_state_attrs out members s :
  attrs (unpack_state out members s) = attrs s.
Proof.
  revert s. induction members as [|m ms IH]; intros s; [reflexivity|].
  simpl. rewrite IH. destruct (is_dir_name (fst m)); reflexivity.
Qed.


Lemma unpack_state_other out members s p :
  (forall m, In m members -> is_dir_name (fst m) = false -> member_target out m <> p) ->
  fs_files (unpack_state out members s) !! p = fs_files s !! p.
Proof.
  revert s. induction members as [|m ms IH]; intros s H; [reflexivity|].
  simpl. rewrite IH by (intros m' Hin; apply H; right; exact Hin).
  destruct (is_dir_name (fst m)) eqn:Hd; [reflexivity|].
  simpl. apply lookup_insert_ne. apply H; [left; reflexivity | exact Hd].
Qed.



Lemma unpack_loop (E : Env) (out : string) (members : list (string * bytes)) :
  forall s,
    List.forallb (member_ok E (fs_dirs s) out) members = true ->
    for_each
      (fun (_ : unit) (zip_info : string * bytes) =>
         let* c := lift (last_char (fst zip_info)) in
         if Ascii.eqb c slash then ret tt
         else zip_extract E (basename (fst zip_info)) (snd zip_info) out)
      members tt s
    = Ok tt (unpack_state out members s).
Proof.
  induction members as [|m ms IH]; intros s Hok; [reflexivity|].
  cbn [List.forallb] in Hok. apply andb_prop in Hok as [Hm Hms].
  unfold member_ok in Hm. apply andb_prop in Hm as [Hname Hm].
  apply negb_true_iff in Hname.
  destruct (last_char_nonempty _ Hname) as [c Hc].
  cbn [for_each].
  change (unpack_state out (m :: ms) s)
    with (unpack_state out ms (if is_dir_name (fst m) then s
                               else wrote s (member_target out m) (snd m))).
  assert (Hdir : is_dir_name (fst m) = Ascii.eqb c slash).
  { unfold is_dir_name. rewrite Hc. reflexivity. }
  rewrite Hdir in *.
  assert (Hstep : (let* c := lift (last_char (fst m)) in
                   if Ascii.eqb c slash then ret tt
                   else zip_extract E (basename (fst m)) (snd m) out) s
                  = Ok tt (if Ascii.eqb c slash then s
                           else wrote s (member_target out m) (snd m))).
  { rewrite (bind_step _ _ _ _ _ (lift_return _ _ s Hc)).
    destruct (Ascii.eqb c slash); [reflexivity|].
    cbn [orb] in Hm. apply andb_prop in Hm as [Hm Hup].
    apply andb_prop in Hm as [Hden Hnd].
    apply negb_true_iff in Hden. apply negb_true_iff in Hnd.
    unfold zip_extract, bind, path_exists, when, write_file, wrote.
    fold (member_target out m). rewrite Hup, orb_true_r, andb_false_r.
    unfold ret. rewrite Hden, Hnd. reflexivity. }
  rewrite (bind_step _ _ _ _ _ Hstep).
  apply IH. destruct (Ascii.eqb c slash); exact Hms.
Qed.

Lemma unpack_run (E : Env) (link : value) (out : string) (s : state)
    (r : response) (members : list (string * bytes)) :
  requests_get E link = Return r ->
  status_ok r = true ->
  zip_infolist E (content r) = Return members ->
  List.forallb (member_ok E (fs_dirs s) out) members = true ->
  _unpack_single_folder E link out s
  = Ok tt (unpack_state out members (add_events s [EvGet link])).
Proof.
  intros Hget Hstatus Hzip Hok.
  unfold _unpack_single_folder.
  assert (Hg : http_get E link s = Ok r (add_events s [EvGet link])).
  { unfold http_get, bind, emit. rewrite Hget. reflexivity. }
  rewrite (bind_step _ _ _ _ _ Hg).
  unfold raise_for_status. rewrite Hstatus.
  rewrite (bind_step _ _ _ tt (add_events s [EvGet link])) by reflexivity.
  rewrite (bind_step _ _ _ _ _ (lift_return _ _ _ Hzip)).
  apply unpack_loop. exact Hok.
Qed.













(** ** The dry run *)

(** C2, the failing run: with [print_only] on, a listing that is a single
    zip entry is still fetched and unpacked; the archive is requested and
    its two members are written to the destination. *)
Theorem print_only_single_zip_is_unpacked :
  print_only (demo_conf_zip true) = true
  /\ exists s',
       _get Demo.env Demo.desc (demo_conf_zip true) 3 "out" Demo.start = Ok tt s'
       /\ trace s' =
            [EvCall "_get_url"; EvCall "_get_url"; EvCall "_parse_url";
             EvGet (VStr "https://repo.org/api/ds2");
             EvGet (VStr "https://repo.org/f/data.zip");
             EvWrite "out/readme.txt" (Demo.b "read me");
             EvWrite "out/x.csv" (Demo.b "1,2")]
       /\ fs_files Demo.start = ∅
       /\ fs_files s' !! "out/readme.txt" = Some (Demo.b "read me")
       /\ fs_files s' !! "out/x.csv" = Some (Demo.b "1,2").
Proof.
  split; [reflexivity|].
  exists (state_of (_get Demo.env Demo.desc (demo_conf_zip true) 3 "out" Demo.start)
            Demo.start).
  split; [|split; [|split; [|split]]]; vm_compute; reflexivity.
Qed.

Lemma only_messages_refl (s : state) : only_messages s s.
Proof.
  repeat split. exists []. rewrite app_nil_r. split; [reflexivity | constructor].
Qed.

Lemma only_messages_trans (s1 s2 s3 : state) :
  only_messages s1 s2 -> only_messages s2 s3 -> only_messages s1 s3.
Proof.
  intros (Ha & Hf & Hd & evs & Ht & Hm) (Ha' & Hf' & Hd' & evs' & Ht' & Hm').
  repeat split; try congruence.
  exists (evs ++ evs'). split.
  - rewrite Ht', Ht, app_assoc. reflexivity.
  - apply Forall_app. split; assumption.
Qed.

Lemma quiet_ret {A} (a : A) : quiet (ret a).
Proof. intros s. split; [discriminate | apply only_messages_refl]. Qed.

Lemma quiet_raise {A} (e : exn) : quiet (@raise A e).
Proof. intros s. split; [discriminate | apply only_messages_refl]. Qed.

Lemma quiet_lift {A} (o : outcome A) : quiet (lift o).
Proof. destruct o; [apply quiet_ret | apply quiet_raise]. Qed.

Lemma quiet_emit (ev : event) : is_message ev -> quiet (emit ev).
Proof.
  intros Hev s. split; [discriminate|]. simpl. repeat split.
  exists [ev]. split; [reflexivity | repeat constructor; exact Hev].
Qed.

Lemma quiet_bind {A B} (m : M A) (k : A -> M B) :
  quiet m -> (forall a, quiet (k a)) -> quiet (bind m k).
Proof.
  intros Hm Hk s. unfold bind. destruct (Hm s) as [Hnf Hs].
  destruct (m s) as [a s1|e s1|]; simpl in Hs.
  - destruct (Hk a s1) as [Hnf1 Hs1]. split; [exact Hnf1|].
    apply (only_messages_trans s s1); [exact Hs|].
    destruct (k a s1); simpl in *; try exact Hs1. congruence.
  - split; [discriminate | exact Hs].
  - congruence.
Qed.

Lemma quiet_when (b : bool) (m : M unit) : quiet m -> quiet (when b m).
Proof. intros Hm. destruct b; [exact Hm | apply quiet_ret]. Qed.

Lemma quiet_for_each {A R} (body : R -> A -> M R) (xs : list A) :
  (forall acc x, quiet (body acc x)) -> forall acc, quiet (for_each body xs acc).
Proof.
  intros Hbody. induction xs as [|x rest IH]; intros acc; simpl.
  - apply quiet_ret.
  - apply quiet_bind; [apply Hbody | exact IH].
Qed.

Lemma quiet_report (E : Env) (name : value) (status : string) : quiet (report E name status).
Proof.
  unfold report. apply quiet_bind; [apply quiet_lift|].
  intros shown. apply quiet_emit. exact I.
Qed.

(** With [print_only] on, [download_file] requests and writes nothing. *)
Lemma download_file_dry_run (E : Env) (C : config) link out name size h ht :
  print_only C = true ->
  quiet (download_file E C link out name size h ht).
Proof.
  intros Hprint. unfold download_file.
  apply quiet_bind; [apply quiet_lift|]. intros large.
  destruct large.
  - apply quiet_bind; [apply quiet_emit; exact I|]. intros _.
    apply quiet_when, quiet_report.
  - apply quiet_bind; [apply quiet_lift|]. intros rejected.
    destruct rejected.
    + apply quiet_bind; [apply quiet_emit; exact I|]. intros _.
      apply quiet_when, quiet_report.
    + rewrite Hprint. cbn [negb]. apply quiet_report.
Qed.

(** Once the listing is cached, the test for a single archive reads the
    cache and leaves the state as it is. *)
Lemma single_zip_test_cached (E : Env) (D : descriptor E) (C : config) fuel s l :
  attrs s !! "_files" = Some (AFiles l) ->
  (exists b, single_zip_test E D C fuel s = Ok b s)
  \/ (exists e, single_zip_test E D C fuel s = Exc e s).
Proof.
  intros Hattr. pose proof (files_again E D C fuel s l Hattr) as Hfiles.
  unfold single_zip_test.
  rewrite (bind_step _ _ _ _ _ Hfiles).
  destruct (List.length l =? 1)%nat; [|left; eexists; reflexivity].
  rewrite (bind_step _ _ _ _ _ Hfiles).
  destruct l as [|first rest]; cbn [index0 lift]; [right; eexists; reflexivity|].
  rewrite (bind_step _ _ _ first s) by reflexivity.
  destruct (endswith_v (f_link first) ".zip") as [by_link|e] eqn:Hlink;
    cbn [lift]; [|right; eexists; reflexivity].
  rewrite (bind_step _ _ _ by_link s) by reflexivity.
  destruct by_link.
  - rewrite (bind_step _ _ _ true s) by reflexivity. left; eexists; reflexivity.
  - match goal with
    | |- (exists b, bind ?m _ s = _) \/ _ =>
        assert (Hz : (exists z, m s = Ok z s) \/ (exists e, m s = Exc e s))
    end.
    { rewrite (bind_step _ _ _ _ _ Hfiles). cbn [index0 lift].
      rewrite (bind_step _ _ _ first s) by reflexivity.
      destruct (endswith_v (f_name first) ".zip"); cbn [lift]; eauto. }
    destruct Hz as [[z Hz]|[e Hz]].
    + rewrite (bind_step _ _ _ _ _ Hz). left; eexists; reflexivity.
    + rewrite (bind_exc _ _ _ _ _ Hz). right; eexists; reflexivity.
Qed.

(** The part of the dry run that holds (C2): when the listing is not taken
    for a single archive and the checksum pass is off, [_get] with
    [print_only] on does nothing after the listing but print and log: no
    request, no write. *)
Lemma dry_run_only_prints (E : Env) (D : descriptor E) (C : config) fuel out s l s1 :
  print_only C = true ->
  checksum C = false ->
  files E D C fuel s = Ok l s1 ->
  single_zip_test E D C fuel s1 <> Ok true s1 ->
  _get E D C fuel out s1 <> OutOfFuel
  /\ only_messages s1 (state_of (_get E D C fuel out s1) s1).
Proof.
  intros Hprint Hchecksum Hfiles Hnot.
  destruct (files_cached E D C fuel s l s1 Hfiles) as [Hattr Hagain].
  unfold _get.
  destruct (single_zip_test_cached E D C fuel s1 l Hattr) as [[b Ht]|[e Ht]].
  - destruct b; [contradiction|].
    rewrite (bind_step _ _ _ _ _ Ht). cbv iota. rewrite Hchecksum. cbn [when].
    match goal with
    | |- ?run s1 <> _ /\ _ =>
        assert (Heq : run s1
                      = bind (for_each
                                (fun files_info f =>
                                   download_file E C (f_link f) out (f_name f) (f_size f)
                                                 (f_hash f) (f_hash_type f);;;
                                   ret (files_info ++ [f]))
                                l [])
                             (fun _ => ret tt) s1)
    end.
    { unfold download_all, bind. rewrite (Hagain fuel). reflexivity. }
    rewrite Heq.
    apply quiet_bind; [|intros; apply quiet_ret].
    apply quiet_for_each. intros acc x.
    apply quiet_bind; [apply download_file_dry_run; exact Hprint|].
    intros _. apply quiet_ret.
  - rewrite (bind_exc _ _ _ _ _ Ht). split; [discriminate | apply only_messages_refl].
Qed.

(** ** Checksums *)

(** C4, the failing run: the file [out/folder/data.csv] was downloaded for
    the entry named [folder/data.csv], whose last segment is the name of the
    file and which declares a hash and an algorithm; the pass compares the
    whole name of the entry with [data.csv], finds no entry and records
    nothing.  The same file directly under the destination, listed as
    [data.csv], is recorded. *)
Theorem nested_file_is_not_verified :
  basename "folder/data.csv" = "data.csv"
  /\ file_comp_of "data.csv" demo_nested_info = []
  /\ checksum_loop Demo.env "out" demo_nested_info demo_nested
     = Ok ∅ (add_events demo_nested [EvLogInfo "Setting hash and hash_type to None"])
  /\ checksum_loop Demo.env "out" demo_flat_info demo_flat
     = Ok {[ "data.csv" := true ]}
          (add_events demo_flat [EvPrint "Checksum match: True - data.csv";
                                 EvLogInfo "Checksum match: True - data.csv"]).
Proof. split; [|split; [|split]]; vm_compute; reflexivity. Qed.

(** ** The checksum pass is contained *)

Lemma nf_ret {A} (a : A) : no_fuel_needed (ret a).
Proof. intros s. discriminate. Qed.

Lemma nf_raise {A} (e : exn) : no_fuel_needed (@raise A e).
Proof. intros s. discriminate. Qed.

Lemma nf_lift {A} (o : outcome A) : no_fuel_needed (lift o).
Proof. destruct o; intros s; discriminate. Qed.

Lemma nf_emit (ev : event) : no_fuel_needed (emit ev).
Proof. intros s. discriminate. Qed.

Lemma nf_bind {A B} (m : M A) (k : A -> M B) :
  no_fuel_needed m -> (forall a, no_fuel_needed (k a)) -> no_fuel_needed (bind m k).
Proof.
  intros Hm Hk s. unfold bind. specialize (Hm s).
  destruct (m s) as [a s'|e s'|]; [apply Hk | discriminate | congruence].
Qed.

Lemma nf_try_catch {A} (m : M A) (h : exn -> M A) :
  no_fuel_needed m -> (forall e, no_fuel_needed (h e)) -> no_fuel_needed (try_catch m h).
Proof.
  intros Hm Hh s. unfold try_catch. specialize (Hm s).
  destruct (m s) as [a s'|e s'|]; [discriminate | apply Hh | congruence].
Qed.

Lemma nf_when (b : bool) (m : M unit) : no_fuel_needed m -> no_fuel_needed (when b m).
Proof. intros Hm. destruct b; [exact Hm | apply nf_ret]. Qed.

Lemma nf_for_each {A R} (body : R -> A -> M R) (xs : list A) :
  (forall acc x, no_fuel_needed (body acc x)) ->
  forall acc, no_fuel_needed (for_each body xs acc).
Proof.
  intros Hbody. induction xs as [|x rest IH]; intros acc; simpl.
  - apply nf_ret.
  - apply nf_bind; [apply Hbody | exact IH].
Qed.

Lemma nf_read_file (E : Env) p : no_fuel_needed (read_file E p).
Proof.
  intros s. unfold read_file.
  destruct (io_denied E p); [discriminate|]. destruct (fs_files s !! p); discriminate.
Qed.

Lemma nf_write_file (E : Env) p data : no_fuel_needed (write_file E p data).
Proof. intros s. unfold write_file. destruct (_ || _); discriminate. Qed.

Lemma nf_os_mkdir (E : Env) d : no_fuel_needed (os_mkdir E d).
Proof. intros s. unfold os_mkdir. destruct (_ || _); discriminate. Qed.

Lemma nf_isdir p : no_fuel_needed (isdir p).
Proof. intros s. discriminate. Qed.

Lemma nf_os_walk top : no_fuel_needed (os_walk top).
Proof. intros s. unfold os_walk. destruct (bool_decide _); discriminate. Qed.

Create HintDb nofuel.
#[local] Hint Resolve nf_ret nf_raise nf_lift nf_emit nf_bind nf_try_catch nf_when
  nf_for_each nf_read_file nf_write_file nf_os_mkdir nf_isdir nf_os_walk : nofuel.

Lemma nf_checksum_step (E : Env) files_info checksums walked :
  no_fuel_needed (checksum_step E files_info checksums walked).
Proof.
  unfold checksum_step.
  apply nf_bind.
  - apply nf_try_catch; [auto with nofuel|].
    intros e. destruct e; auto with nofuel.
  - intros hh. apply nf_bind; [auto with nofuel|]. intros data.
    destruct (_ && _); auto 6 with nofuel.
Qed.

Lemma nf_checksum_loop (E : Env) out files_info :
  no_fuel_needed (checksum_loop E out files_info).
Proof.
  unfold checksum_loop. apply nf_bind; [auto with nofuel|].
  intros walked. apply nf_for_each. intros acc x. apply nf_checksum_step.
Qed.

(** [_check_checksums] always returns: what its body raises is caught and
    logged. *)
Lemma nf_checksum_report (E : Env) out files_info :
  no_fuel_needed (checksum_report E out files_info).
Proof.
  unfold checksum_report.
  apply nf_bind; [apply nf_checksum_loop|]. intros checksums.
  apply nf_bind; [auto with nofuel|]. intros there.
  apply nf_bind; auto with nofuel.
Qed.

Lemma check_checksums_returns (E : Env) out files_info s :
  exists s', _check_checksums E out files_info s = Ok tt s'.
Proof.
  unfold _check_checksums, try_catch.
  pose proof (nf_checksum_report E out files_info s) as Hnf.
  destruct (checksum_report E out files_info s) as [[] s1|e s1|].
  - eauto.
  - unfold emit. eauto.
  - congruence.
Qed.

Lemma ending_bind {A B} (m : M A) (k1 k2 : A -> M B) (s : state) :
  (forall a s', ending (k1 a s') = ending (k2 a s')) ->
  ending (bind m k1 s) = ending (bind m k2 s).
Proof. intros H. unfold bind. destruct (m s); auto. Qed.

(** C9: [_check_checksums] returns normally from every state and for every
    list of entries, whatever fails inside it (a file that cannot be read,
    a directory or report that cannot be created, an unknown algorithm, a
    file without entry); an exception of its body is answered by the error
    log line and nothing else; and a download run ends the same way,
    normally or with the same exception, with the checksum pass as without
    it. *)
Theorem checksum_pass_never_raises (E : Env) (D : descriptor E) (C : config) :
  (forall out files_info s, exists s', _check_checksums E out files_info s = Ok tt s')
  /\ (forall out files_info s e s1,
        checksum_report E out files_info s = Exc e s1 ->
        _check_checksums E out files_info s
        = Ok tt (add_events s1 [EvLogError "Failed at checksum"]))
  /\ (forall fuel out s,
        ending (_get E D (set_checksum true C) fuel out s)
        = ending (_get E D (set_checksum false C) fuel out s)).
Proof.
  split; [|split].
  - intros. apply check_checksums_returns.
  - intros out files_info s e s1 H. unfold _check_checksums, try_catch. rewrite H. reflexivity.
  - intros fuel out s. unfold _get.
    change (single_zip_test E D (set_checksum true C)) with (single_zip_test E D C).
    change (single_zip_test E D (set_checksum false C)) with (single_zip_test E D C).
    change (files E D (set_checksum true C)) with (files E D C).
    change (files E D (set_checksum false C)) with (files E D C).
    change (download_all E D (set_checksum true C)) with (download_all E D C).
    change (download_all E D (set_checksum false C)) with (download_all E D C).
    cbn [set_checksum checksum when].
    apply ending_bind. intros single_zip s1.
    destruct single_zip; [reflexivity|].
    apply ending_bind. intros files_info s2.
    destruct (check_checksums_returns E out files_info s2) as [s3 ->]. reflexivity.
Qed.

(** ** The code at work *)

(** An expression that does not compile, a field that is missing and a
    record that is no mapping all give [None]. *)
Example get_attr_attr_examples :
  _get_attr_attr Demo.env (VDict [("name", VStr "x")]) "" = Return VNone
  /\ _get_attr_attr Demo.env (VDict [("name", VStr "x")]) "size" = Return VNone
  /\ _get_attr_attr Demo.env (VInt 3) "name" = Return VNone
  /\ _get_attr_attr Demo.env (VDict [("name", VStr "x")]) "name" = Return (VStr "x").
Proof. split; [|split; [|split]]; vm_compute; reflexivity. Qed.

(** A file that cannot be opened stops the checksum pass: the error is
    logged, no report is written and the caller sees a normal return. *)
Example checksum_pass_denied_file :
  checksum_report Demo.env "out" [] demo_locked
  = Exc OSError (add_events demo_locked [EvLogInfo "Setting hash and hash_type to None"])
  /\ _check_checksums Demo.env "out" [] demo_locked
     = Ok tt (add_events demo_locked [EvLogInfo "Setting hash and hash_type to None";
                                      EvLogError "Failed at checksum"]).
Proof. split; vm_compute; reflexivity. Qed.

(** A dry run over the two pages: the listing is fetched, four lines are
    printed, nothing is requested or written for the files. *)
Example dry_run_example :
  exists s',
    _get Demo.env Demo.desc demo_conf_dry_run 3 "out" Demo.start = Ok tt s'
    /\ fs_files s' = ∅
    /\ trace s' =
         [EvCall "_get_url"; EvCall "_get_url"; EvCall "_parse_url";
          EvGet (VStr "https://repo.org/api/ds1");
          EvGet (VStr "https://repo.org/api/ds1/sub");
          EvGet (VStr "https://repo.org/api/ds1?page=2");
          EvPrint "a.csv: COMPLETE"; EvPrint "sub/c.csv: COMPLETE";
          EvLogInfo "Skipping large file"; EvPrint "b.txt: SKIPPED";
          EvPrint "d.csv: COMPLETE"].
Proof.
  exists (state_of (_get Demo.env Demo.desc demo_conf_dry_run 3 "out" Demo.start) Demo.start).
  split; [|split]; vm_compute; reflexivity.
Qed.

(** * Further properties *)

(** ** Frames of effectful code *)

Section Frames.

Variable R : state -> state -> Prop.
Hypothesis R_refl : forall s, R s s.
Hypothesis R_trans : forall s1 s2 s3, R s1 s2 -> R s2 s3 -> R s1 s3.

Lemma steps_ret {A} (a : A) : steps R (ret a).
Proof. intros s. apply R_refl. Qed.

Lemma steps_raise {A} (e : exn) : steps R (@raise A e).
Proof. intros s. apply R_refl. Qed.

Lemma steps_lift {A} (o : outcome A) : steps R (lift o).
Proof. destruct o; [apply steps_ret | apply steps_raise]. Qed.

Lemma steps_bind {A B} (m : M A) (k : A -> M B) :
  steps R m -> (forall a, steps R (k a)) -> steps R (bind m k).
Proof.
  intros Hm Hk s. unfold bind. specialize (Hm s).
  destruct (m s) as [a s1|e s1|]; [|exact Hm|exact I].
  specialize (Hk a s1). destruct (k a s1); try exact I; eapply R_trans; eauto.
Qed.

Lemma steps_try_catch {A} (m : M A) (h : exn -> M A) :
  steps R m -> (forall e, steps R (h e)) -> steps R (try_catch m h).
Proof.
  intros Hm Hh s. unfold try_catch. specialize (Hm s).
  destruct (m s) as [a s1|e s1|]; [exact Hm| |exact I].
  specialize (Hh e s1). destruct (h e s1); try exact I; eapply R_trans; eauto.
Qed.

Lemma steps_when (b : bool) (m : M unit) : steps R m -> steps R (when b m).
Proof. intros Hm. destruct b; [exact Hm | apply steps_ret]. Qed.

Lemma steps_for_each {A B} (body : B -> A -> M B) (xs : list A) :
  (forall acc x, steps R (body acc x)) -> forall acc, steps R (for_each body xs acc).
Proof.
  intros Hbody. induction xs as [|x rest IH]; intros acc; simpl.
  - apply steps_ret.
  - apply steps_bind; [apply Hbody | exact IH].
Qed.

Lemma steps_for_each_in {A B} (body : B -> A -> M B) (xs : list A) :
  (forall acc x, In x xs -> steps R (body acc x)) ->
  forall acc, steps R (for_each body xs acc).
Proof.
  induction xs as [|x rest IH]; intros Hbody acc; simpl.
  - apply steps_ret.
  - apply steps_bind; [apply Hbody; left; reflexivity|].
    intros acc'. apply IH. intros acc0 y Hy. apply Hbody. right. exact Hy.
Qed.

End Frames.

Lemma for_each_app {A B} (body : B -> A -> M B) (xs ys : list A) (acc : B) (s : state) :
  for_each body (xs ++ ys) acc s
  = bind (for_each body xs acc) (fun acc' => for_each body ys acc') s.
Proof.
  revert acc s. induction xs as [|x rest IH]; intros acc s; cbn [app for_each].
  - reflexivity.
  - unfold bind. destruct (body acc x s) as [acc1 s1|e s1|]; [|reflexivity|reflexivity].
    rewrite IH. reflexivity.
Qed.

Lemma only_requests_refl (s : state) : only_requests s s.
Proof.
  repeat split. exists []. rewrite app_nil_r. split; [reflexivity | constructor].
Qed.

Lemma only_requests_trans (s1 s2 s3 : state) :
  only_requests s1 s2 -> only_requests s2 s3 -> only_requests s1 s3.
Proof.
  intros (Ha & Hf & Hd & evs & Ht & Hm) (Ha' & Hf' & Hd' & evs' & Ht' & Hm').
  repeat split; try congruence.
  exists (evs ++ evs'). split.
  - rewrite Ht', Ht, app_assoc. reflexivity.
  - apply Forall_app. split; assumption.
Qed.

Lemma steps_http_get (E : Env) (url : value) : steps only_requests (http_get E url).
Proof.
  intros s. unfold http_get, bind, emit.
  assert (H : only_requests s {| attrs := attrs s; fs_files := fs_files s;
                                 fs_dirs := fs_dirs s; trace := trace s ++ [EvGet url] |}).
  { repeat split. exists [EvGet url]. split; [reflexivity | repeat constructor]. }
  destruct (requests_get E url); exact H.
Qed.

(** Walks through binds, loops and branches; [leaf] closes what is left. *)
Ltac frame R_refl R_trans leaf :=
  repeat first
    [ leaf
    | apply (steps_ret _ R_refl)
    | apply (steps_raise _ R_refl)
    | apply (steps_lift _ R_refl)
    | apply (steps_when _ R_refl)
    | apply (steps_for_each _ R_refl R_trans); intros ? ?
    | apply (steps_bind _ R_trans); [|intros ?]
    | apply (steps_try_catch _ R_trans); [|intros ?]
    | match goal with
      | |- steps _ (if ?b then _ else _) => destruct b
      | |- steps _ (match ?x with _ => _ end) => destruct x
      end ].

Lemma steps_traversal (E : Env) (D : descriptor E) (fuel : nat) :
  forall url folder base, steps only_requests (_get_files_recursive E D fuel url folder base).
Proof.
  induction fuel as [|fuel IH]; intros url folder base; [intros s; exact I|].
  cbn [_get_files_recursive]. unfold raise_for_status, record_step, paginate.
  frame only_requests_refl only_requests_trans
        ltac:(first [apply steps_http_get | apply IH]).
Qed.

(** X1: a listing only makes requests: whether it returns or raises, the
    attributes of the session and the files and directories on disk are as
    before, and the only events are the requests for its pages. *)
Theorem listing_only_requests (E : Env) (D : descriptor E) (fuel : nat)
    (url folder : value) (base : option string) (s : state) :
  let r := _get_files_recursive E D fuel url folder base s in
  r = OutOfFuel \/ only_requests s (state_of r s).
Proof.
  intros r. unfold r.
  pose proof (steps_traversal E D fuel url folder base s) as H.
  destruct (_get_files_recursive E D fuel url folder base s); simpl; auto.
Qed.

(** Decides a closed statement by evaluating its decision procedure. *)
Ltac by_compute :=
  match goal with
  | |- ?P => apply (@bool_decide_unpack P _); vm_compute; exact I
  end.

(** ** Attributes of a record *)

Lemma get_attr_attr_value (E : Env) (record : value) (jsonp : string) :
  _get_attr_attr E record jsonp = Return (value_of (_get_attr_attr E record jsonp)).
Proof.
  unfold _get_attr_attr, try_except, obind.
  destruct (parse E jsonp) as [e|x]; [|reflexivity].
  destruct (find E e record) as [[|v l]|x]; reflexivity.
Qed.

Lemma get_attr_kind_value (E : Env) (D : descriptor E) f :
  _get_attr_kind E D f = Return (value_of (_get_attr_kind E D f)).
Proof.
  unfold _get_attr_kind. destruct (ATTR_KIND_JSONPATH D); [apply get_attr_attr_value | reflexivity].
Qed.

Lemma get_attr_name_value (E : Env) (D : descriptor E) f :
  _get_attr_name E D f = Return (value_of (_get_attr_name E D f)).
Proof.
  unfold _get_attr_name. destruct (ATTR_NAME_JSONPATH D); [apply get_attr_attr_value | reflexivity].
Qed.

Lemma get_attr_size_value (E : Env) (D : descriptor E) f :
  _get_attr_size E D f = Return (value_of (_get_attr_size E D f)).
Proof.
  unfold _get_attr_size. destruct (ATTR_SIZE_JSONPATH D); [apply get_attr_attr_value | reflexivity].
Qed.

Lemma get_attr_hash_value (E : Env) (D : descriptor E) f :
  _get_attr_hash E D f = Return (value_of (_get_attr_hash E D f)).
Proof.
  unfold _get_attr_hash. destruct (ATTR_HASH_JSONPATH D); [apply get_attr_attr_value | reflexivity].
Qed.

Lemma get_attr_hash_type_value (E : Env) (D : descriptor E) f :
  _get_attr_hash_type E D f = Return (value_of (_get_attr_hash_type E D f)).
Proof.
  unfold _get_attr_hash_type. destruct (ATTR_HASH_TYPE_VALUE D); [reflexivity|].
  destruct (ATTR_HASH_TYPE_JSONPATH D); [apply get_attr_attr_value | reflexivity].
Qed.

Lemma get_attr_link_value (E : Env) (D : descriptor E) f base :
  _get_attr_link E D f base = Return (value_of (_get_attr_link E D f base)).
Proof.
  unfold _get_attr_link. rewrite (get_attr_kind_value E D f). cbn [obind].
  destruct (eq_str _ "folder").
  - destruct (ATTR_FOLDER_LINK_JSONPATH D); [apply get_attr_attr_value | reflexivity].
  - destruct (ATTR_FILE_LINK_JSONPATH D); [apply get_attr_attr_value | reflexivity].
Qed.

Lemma file_entry_value (E : Env) (D : descriptor E) f f_path base :
  file_entry E D f f_path base =
    Return {| f_link := value_of (_get_attr_link E D f base); f_name := f_path;
              f_size := value_of (_get_attr_size E D f);
              f_hash := value_of (_get_attr_hash E D f);
              f_hash_type := value_of (_get_attr_hash_type E D f) |}.
Proof.
  unfold file_entry.
  rewrite (get_attr_link_value E D f base). cbn [obind].
  rewrite (get_attr_size_value E D f). cbn [obind].
  rewrite (get_attr_hash_value E D f). cbn [obind].
  rewrite (get_attr_hash_type_value E D f). reflexivity.
Qed.

(** X2: no record, whatever its shape, makes an attribute getter raise, and
    a record always gives an entry: kind, name, link, size, hash and hash
    type return a value ([None] for what is not found), and [file_entry]
    returns the entry made of them.  The link of a record that is no folder
    is read through the file link path, never the folder link path. *)
Theorem record_attributes_never_raise (E : Env) (D : descriptor E)
    (f f_path : value) (base : option string) :
  (exists kind name link size h ht,
      _get_attr_kind E D f = Return kind
      /\ _get_attr_name E D f = Return name
      /\ _get_attr_link E D f base = Return link
      /\ _get_attr_size E D f = Return size
      /\ _get_attr_hash E D f = Return h
      /\ _get_attr_hash_type E D f = Return ht
      /\ file_entry E D f f_path base
         = Return {| f_link := link; f_name := f_path; f_size := size;
                     f_hash := h; f_hash_type := ht |}
      /\ (eq_str kind "folder" = false ->
          link = match ATTR_FILE_LINK_JSONPATH D with
                 | Some p => value_of (_get_attr_attr E f p)
                 | None => VNone
                 end)).
Proof.
  exists (value_of (_get_attr_kind E D f)), (value_of (_get_attr_name E D f)),
         (value_of (_get_attr_link E D f base)), (value_of (_get_attr_size E D f)),
         (value_of (_get_attr_hash E D f)), (value_of (_get_attr_hash_type E D f)).
  repeat split.
  - apply get_attr_kind_value.
  - apply get_attr_name_value.
  - apply get_attr_link_value.
  - apply get_attr_size_value.
  - apply get_attr_hash_value.
  - apply get_attr_hash_type_value.
  - apply file_entry_value.
  - intros Hkind. unfold _get_attr_link.
    rewrite (get_attr_kind_value E D f). cbn [obind]. rewrite Hkind.
    destruct (ATTR_FILE_LINK_JSONPATH D); reflexivity.
Qed.

(** ** Listings without folders *)

Lemma page_fetch (E : Env) (D : descriptor E) fuel url folder base s res response :
  requests_get E url = Return res ->
  status_ok res = true ->
  body_json res = Return response ->
  _get_files_recursive E D (S fuel) url folder base s
  = (let* files_raw := lift (files_raw_of E D response) in
     let* result :=
       for_each (record_step E D (_get_files_recursive E D fuel) folder base) files_raw [] in
     paginate E D (_get_files_recursive E D fuel) response folder result)
      (add_events s [EvGet url]).
Proof.
  intros Hget Hstatus Hjson. cbn [_get_files_recursive].
  assert (Hg : http_get E url s = Ok res (add_events s [EvGet url])).
  { unfold http_get, bind, emit. rewrite Hget. reflexivity. }
  rewrite (bind_step _ _ _ _ _ Hg).
  unfold raise_for_status. rewrite Hstatus.
  rewrite (bind_step _ _ _ tt (add_events s [EvGet url])) by reflexivity.
  rewrite (bind_step _ _ _ _ _ (lift_return _ _ _ Hjson)). reflexivity.
Qed.

Lemma flat_loop (E : Env) (D : descriptor E) self_call base records :
  ATTR_KIND_JSONPATH D = None ->
  forall acc s,
    for_each (record_step E D self_call VNone base) records acc s
    = Ok (acc ++ List.map (entry_of_record E D base) records) s.
Proof.
  intros Hkind. induction records as [|f rest IH]; intros acc s; cbn [for_each List.map].
  - rewrite app_nil_r. reflexivity.
  - assert (Hstep : record_step E D self_call VNone base acc f s
                    = Ok (acc ++ [entry_of_record E D base f]) s).
    { unfold record_step, f_path_of. cbn [is_none].
      rewrite (bind_step _ _ _ _ _ (lift_return _ _ s (get_attr_name_value E D f))).
      unfold _get_attr_kind. rewrite Hkind. cbn [lift].
      rewrite (bind_step _ _ _ (VStr "file") s) by reflexivity.
      change (eq_str (VStr "file") "folder") with false. cbv iota.
      rewrite (bind_step _ _ _ _ _ (lift_return _ _ s (file_entry_value E D f _ base))).
      reflexivity. }
    rewrite (bind_step _ _ _ _ _ Hstep). rewrite IH, <- app_assoc. reflexivity.
Qed.

(** X3: for a repository without kind path and without pagination path, a
    listing is one request: every record of the page gives exactly one
    entry, in the order of the page, named by its name field as it is, and
    no further page or folder is visited (fuel 1 suffices). *)
Theorem flat_listing (E : Env) (D : descriptor E) (fuel : nat) (url : value)
    (base : option string) (s : state) (res : response) (response : value)
    (records : list value) :
  ATTR_KIND_JSONPATH D = None ->
  PAGINATION_JSONPATH D = None ->
  requests_get E url = Return res ->
  status_ok res = true ->
  body_json res = Return response ->
  files_raw_of E D response = Return records ->
  _get_files_recursive E D (S fuel) url VNone base s
  = Ok (List.map (entry_of_record E D base) records) (add_events s [EvGet url])
  /\ List.length (List.map (entry_of_record E D base) records) = List.length records.
Proof.
  intros Hkind Hpage Hget Hstatus Hjson Hraw.
  split; [|apply length_map].
  rewrite (page_fetch E D fuel url VNone base s res response Hget Hstatus Hjson).
  rewrite (bind_step _ _ _ _ _ (lift_return _ _ _ Hraw)).
  rewrite (bind_step _ _ _ _ _ (flat_loop E D _ base records Hkind [] _)).
  unfold paginate. rewrite Hpage. reflexivity.
Qed.

Lemma flat_listing_witness :
  _get_files_recursive Demo.env flat_desc 1 (VStr "https://repo.org/api/ds1/sub") VNone
    (Some "https://repo.org") Demo.start
  = Ok [ {| f_link := VStr "https://repo.org/f/c"; f_name := VStr "c.csv";
            f_size := VInt 30; f_hash := VStr "md5:c.csv"; f_hash_type := VStr "md5" |} ]
       (add_events Demo.start [EvGet (VStr "https://repo.org/api/ds1/sub")]).
Proof.
  apply (proj1 (flat_listing Demo.env flat_desc 0 (VStr "https://repo.org/api/ds1/sub")
                  (Some "https://repo.org") Demo.start
                  (Demo.page sub_page_records VNone) sub_page_response sub_page_records
                  eq_refl eq_refl eq_refl eq_refl eq_refl eq_refl)).
Defined.

(** X4: when a pagination path is declared, every page must answer it: on a
    page where the path finds nothing the listing raises [IndexError], after
    the records of the page were read, and no entry is returned.  This holds
    for every class, with or without folders, at the top of a listing and
    below a folder: once the records of the page were read the call raises
    in the state they left, and however they were read the call does not
    return a list. *)
Theorem missing_next_link_aborts (E : Env) (D : descriptor E) (fuel : nat)
    (url folder : value) (base : option string) (s : state) (res : response)
    (response : value) (records : list value) (p : string) (je : jexpr E) :
  PAGINATION_JSONPATH D = Some p ->
  requests_get E url = Return res ->
  status_ok res = true ->
  body_json res = Return response ->
  files_raw_of E D response = Return records ->
  parse E p = Return je ->
  find E je response = Return [] ->
  let loop := for_each (record_step E D (_get_files_recursive E D fuel) folder base)
                records [] (add_events s [EvGet url]) in
  let run := _get_files_recursive E D (S fuel) url folder base s in
  (forall result s1, loop = Ok result s1 -> run = Exc IndexError s1)
  /\ (forall l s', run <> Ok l s').
Proof.
  intros Hpage Hget Hstatus Hjson Hraw Hparse Hfind loop run.
  assert (Hrun : run = bind (fun _ => loop)
                        (paginate E D (_get_files_recursive E D fuel) response folder)
                        (add_events s [EvGet url])).
  { unfold run.
    rewrite (page_fetch E D fuel url folder base s res response Hget Hstatus Hjson).
    rewrite (bind_step _ _ _ _ _ (lift_return _ _ _ Hraw)). reflexivity. }
  assert (Hnext : forall result s1,
             paginate E D (_get_files_recursive E D fuel) response folder result s1
             = Exc IndexError s1).
  { intros result s1. unfold paginate. rewrite Hpage.
    unfold next_url_of. rewrite Hparse. cbn [obind]. rewrite Hfind. reflexivity. }
  rewrite Hrun. unfold bind. split.
  - intros result s1 ->. apply Hnext.
  - intros l s'. destruct loop as [result s1|e s1|]; [rewrite Hnext| |]; discriminate.
Qed.

Lemma missing_next_link_aborts_witness :
  _get_files_recursive Demo.env cursor_tree_desc 1 (VStr "https://repo.org/api/ds1/sub")
    (VStr "sub") None Demo.start
  = Exc IndexError (add_events Demo.start [EvGet (VStr "https://repo.org/api/ds1/sub")]).
Proof.
  eapply (proj1 (missing_next_link_aborts Demo.env cursor_tree_desc 0
                   (VStr "https://repo.org/api/ds1/sub") (VStr "sub") None Demo.start
                   (Demo.page sub_page_records VNone) sub_page_response sub_page_records
                   "cursor" [Demo.Field "cursor"]
                   eq_refl eq_refl eq_refl eq_refl eq_refl eq_refl eq_refl)).
  vm_compute. reflexivity.
Defined.

(** X5: below a folder every record needs a name that is a string: a first
    record whose name is absent (or no string) makes the listing of the
    folder raise [TypeError], because the name is joined to the prefix
    before the kind of the record is looked at. *)
Theorem nameless_record_under_folder_raises (E : Env) (D : descriptor E) (fuel : nat)
    (url : value) (prefix : string) (base : option string) (s : state)
    (res : response) (response f : value) (rest : list value) :
  requests_get E url = Return res ->
  status_ok res = true ->
  body_json res = Return response ->
  files_raw_of E D response = Return (f :: rest) ->
  (forall n, _get_attr_name E D f <> Return (VStr n)) ->
  _get_files_recursive E D (S fuel) url (VStr prefix) base s
  = Exc TypeError (add_events s [EvGet url]).
Proof.
  intros Hget Hstatus Hjson Hraw Hname.
  rewrite (page_fetch E D fuel url _ base s res response Hget Hstatus Hjson).
  rewrite (bind_step _ _ _ _ _ (lift_return _ _ _ Hraw)).
  cbn [for_each]. unfold record_step at 1, f_path_of. cbn [is_none].
  rewrite (get_attr_name_value E D f) in *. cbn [obind].
  destruct (value_of (_get_attr_name E D f)) as [| | |n| |]; try reflexivity.
  exfalso. apply (Hname n). reflexivity.
Qed.

Lemma nameless_record_under_folder_raises_witness :
  _get_files_recursive Demo.env nameless_desc 1 (VStr "https://repo.org/api/ds1/sub")
    (VStr "sub") None Demo.start
  = Exc TypeError (add_events Demo.start [EvGet (VStr "https://repo.org/api/ds1/sub")]).
Proof.
  apply (nameless_record_under_folder_raises Demo.env nameless_desc 0
           (VStr "https://repo.org/api/ds1/sub") "sub" None Demo.start
           (Demo.page sub_page_records VNone) sub_page_response
           (Demo.file_record "c.csv" "https://repo.org/f/c" 30) []
           eq_refl eq_refl eq_refl eq_refl).
  intros n H. vm_compute in H. discriminate.
Defined.

(** ** The per-file download, continued *)

(** X6: the size limit comes first.  With a limit [m], an entry whose size
    is an integer at or above [m] is skipped without a request or a write,
    whatever its link, its name and the filter are (a filter that does not
    compile is not even looked at); a smaller size and an unknown size pass
    the test; a size that is a string cannot be compared and the download of
    the entry raises [TypeError]. *)
Theorem size_limit_policy (E : Env) (C : config) (m : Z) :
  max_file_size C = Some m ->
  (forall z link out name h ht s,
      m <= z ->
      let r := download_file E C link out name (VInt z) h ht s in
      r = (emit (EvLogInfo "Skipping large file");;;
           when (progress C) (report E name "SKIPPED")) s
      /\ r <> OutOfFuel /\ only_messages s (state_of r s))
  /\ (forall z, z < m -> too_large C (VInt z) = Return false)
  /\ too_large C VNone = Return false
  /\ (forall t link out name h ht s,
        download_file E C link out name (VStr t) h ht s = Exc TypeError s).
Proof.
  intros Hmax. split; [|split; [|split]].
  - intros z link out name h ht s Hz r.
    assert (Hr : r = (emit (EvLogInfo "Skipping large file");;;
                      when (progress C) (report E name "SKIPPED")) s).
    { unfold r, download_file, too_large. rewrite Hmax.
      rewrite (proj2 (Z.leb_le m z) Hz). reflexivity. }
    split; [exact Hr|]. rewrite Hr. apply skip_only_messages.
  - intros z Hz. unfold too_large. rewrite Hmax.
    rewrite (proj2 (Z.leb_gt m z) Hz). reflexivity.
  - reflexivity.
  - intros. unfold download_file, too_large. rewrite Hmax. reflexivity.
Qed.

Lemma size_limit_policy_witness :
  download_file Demo.env demo_conf_limit (VStr "https://repo.org/f/b") "out"
    VNone (VInt 2000) VNone VNone Demo.start
  = (emit (EvLogInfo "Skipping large file");;;
     when true (report Demo.env VNone "SKIPPED")) Demo.start
  /\ too_large demo_conf_limit (VInt 99) = Return false.
Proof.
  destruct (size_limit_policy Demo.env demo_conf_limit 100 eq_refl) as (Hskip & Hsmall & _).
  split.
  - apply (Hskip 2000 (VStr "https://repo.org/f/b") "out" VNone VNone VNone Demo.start).
    lia.
  - apply Hsmall. lia.
Defined.

Lemma download_reaches_write (E : Env) (C : config) (link : value) (out n : string)
    (size h ht : value) (s : state) (res : response) :
  too_large C size = Return false ->
  filtered_out E C (VStr n) = Return false ->
  print_only C = false ->
  requests_get E link = Return res ->
  status_ok res = true ->
  path_parent (Path2 out n) ∈ fs_dirs s ->
  Path2 out n ∉ fs_dirs s ->
  force_download C = true \/ fs_files s !! Path2 out n = None ->
  download_file E C link out (VStr n) size h ht s
  = (if progress C then write_with_progress E (Path2 out n) (VStr n) res
     else write_file E (Path2 out n) (content res))
      (add_events s [EvLogInfo "Downloading file"; EvGet link]).
Proof.
  intros Hsize Hfilter Hprint Hget Hstatus Hparent Hnodir Hfresh.
  unfold download_file.
  rewrite (bind_step _ _ _ _ _ (lift_return _ _ s Hsize)).
  rewrite (bind_step _ _ _ _ _ (lift_return _ _ s Hfilter)).
  rewrite Hprint. cbn [negb].
  unfold fetch_and_write.
  rewrite (bind_step _ _ _ tt (add_events s [EvLogInfo "Downloading file"])) by reflexivity.
  assert (Hg : http_get E link (add_events s [EvLogInfo "Downloading file"])
               = Ok res (add_events s [EvLogInfo "Downloading file"; EvGet link])).
  { unfold http_get, bind, emit, add_events. cbn [trace attrs fs_files fs_dirs].
    rewrite Hget, <- app_assoc. reflexivity. }
  rewrite (bind_step _ _ _ _ _ Hg).
  unfold raise_for_status. rewrite Hstatus.
  rewrite (bind_step _ _ _ tt (add_events s [EvLogInfo "Downloading file"; EvGet link]))
    by reflexivity.
  cbn [Path2v lift].
  rewrite (bind_step _ _ _ (Path2 out n)
             (add_events s [EvLogInfo "Downloading file"; EvGet link])) by reflexivity.
  assert (Hmk : mkdir_parents E (path_parent (Path2 out n))
                  (add_events s [EvLogInfo "Downloading file"; EvGet link])
                = Ok tt (add_events s [EvLogInfo "Downloading file"; EvGet link])).
  { unfold mkdir_parents. cbn [add_events fs_dirs].
    rewrite (bool_decide_eq_true_2 _ Hparent). reflexivity. }
  rewrite (bind_step _ _ _ _ _ Hmk).
  unfold bind at 1, path_exists. cbn [add_events fs_dirs fs_files].
  rewrite (bool_decide_eq_false_2 _ Hnodir), orb_false_r.
  assert (Hwrite : negb (force_download C)
                   && bool_decide (is_Some (fs_files s !! Path2 out n)) = false).
  { destruct Hfresh as [-> | ->]; [reflexivity|].
    rewrite bool_decide_eq_false_2 by (intros [x Hx]; discriminate).
    apply andb_false_r. }
  rewrite Hwrite. reflexivity.
Qed.

Lemma wrote_opened (s : state) (p : string) (data : bytes) :
  wrote (opened s p) p data = wrote s p data.
Proof.
  unfold wrote, opened. cbn [attrs fs_files fs_dirs trace].
  rewrite insert_insert_eq. reflexivity.
Qed.

(** X7: a download that goes through, and one that stops half way.  For an
    entry that passes the size test and the filter, with [print_only] off, a
    successful request, an existing parent directory and a target that may
    be opened and is absent (or any such target when [force_download] is
    on), the body is stored at [Path(output_folder, file_name)] after one
    request, with one write, replacing the former content if any.  With
    [progress] off it is the content of the answer.  With [progress] on the
    file is opened first; then a label or a total that cannot be computed
    raises and leaves the target empty; otherwise the chunks received are
    written, and a stream that breaks raises after them. *)
Theorem download_writes_file (E : Env) (C : config) (link : value) (out n : string)
    (size h ht : value) (s : state) (res : response) :
  too_large C size = Return false ->
  filtered_out E C (VStr n) = Return false ->
  print_only C = false ->
  requests_get E link = Return res ->
  status_ok res = true ->
  path_parent (Path2 out n) ∈ fs_dirs s ->
  Path2 out n ∉ fs_dirs s ->
  io_denied E (Path2 out n) = false ->
  force_download C = true \/ fs_files s !! Path2 out n = None ->
  let s1 := add_events s [EvLogInfo "Downloading file"; EvGet link] in
  let run := download_file E C link out (VStr n) size h ht s in
  (progress C = false -> run = Ok tt (wrote s1 (Path2 out n) (content res)))
  /\ (progress C = true ->
      match _format_filename E (VStr n), content_length res with
      | Return _, Return _ =>
          match snd (iter_content res) with
          | None => run = Ok tt (wrote s1 (Path2 out n) (List.concat (fst (iter_content res))))
          | Some e =>
              run = Exc e (wrote s1 (Path2 out n) (List.concat (fst (iter_content res))))
          end
      | Return _, Raise e => run = Exc e (opened s1 (Path2 out n))
      | Raise e, _ => run = Exc e (opened s1 (Path2 out n))
      end).
Proof.
  intros Hsize Hfilter Hprint Hget Hstatus Hparent Hnodir Hallowed Hfresh s1 run.
  assert (Hrun : run = (if progress C
                        then write_with_progress E (Path2 out n) (VStr n) res
                        else write_file E (Path2 out n) (content res)) s1).
  { apply download_reaches_write; assumption. }
  assert (Hopen : open_wb E (Path2 out n) s1 = Ok tt (opened s1 (Path2 out n))).
  { unfold open_wb. subst s1. cbn [add_events fs_dirs].
    rewrite Hallowed, (bool_decide_eq_false_2 _ Hnodir). reflexivity. }
  split; intros Hprogress; rewrite Hprogress in Hrun; rewrite Hrun.
  - unfold write_file. subst s1. cbn [add_events fs_dirs].
    rewrite Hallowed, (bool_decide_eq_false_2 _ Hnodir). reflexivity.
  - unfold write_with_progress. rewrite (bind_step _ _ _ _ _ Hopen).
    destruct (_format_filename E (VStr n)) as [shown|e]; [|reflexivity].
    rewrite (bind_step _ _ _ shown (opened s1 (Path2 out n))) by reflexivity.
    destruct (content_length res) as [total|e]; [|reflexivity].
    rewrite (bind_step _ _ _ total (opened s1 (Path2 out n))) by reflexivity.
    rewrite <- (wrote_opened s1 (Path2 out n) (List.concat (fst (iter_content res)))).
    destruct (snd (iter_content res)) as [e|]; reflexivity.
Qed.

Lemma download_writes_file_witness :
  download_file Demo.env demo_conf_force_bar (VStr "https://repo.org/f/a") "out"
    (VStr "a.csv") (VInt 10) VNone VNone demo_existing
  = Ok tt (wrote (add_events demo_existing
                    [EvLogInfo "Downloading file"; EvGet (VStr "https://repo.org/f/a")])
                 "out/a.csv" (Demo.b "aaa"))
  /\ download_file Demo.env demo_conf_force (VStr "https://repo.org/f/a") "out"
       (VStr "a.csv") (VInt 10) VNone VNone demo_existing
     = Ok tt (wrote (add_events demo_existing
                       [EvLogInfo "Downloading file"; EvGet (VStr "https://repo.org/f/a")])
                    "out/a.csv" (Demo.b "aaa")).
Proof.
  assert (Hparent : path_parent (Path2 "out" "a.csv") ∈ fs_dirs demo_existing).
  { change (path_parent (Path2 "out" "a.csv")) with "out". simpl. set_solver. }
  assert (Hnodir : Path2 "out" "a.csv" ∉ fs_dirs demo_existing).
  { change (Path2 "out" "a.csv") with "out/a.csv". simpl. set_solver. }
  split.
  - exact (proj2 (download_writes_file Demo.env demo_conf_force_bar
                    (VStr "https://repo.org/f/a") "out" "a.csv" (VInt 10) VNone VNone
                    demo_existing (Demo.download "aaa")
                    eq_refl eq_refl eq_refl eq_refl eq_refl Hparent Hnodir eq_refl
                    (or_introl eq_refl)) eq_refl).
  - exact (proj1 (download_writes_file Demo.env demo_conf_force
                    (VStr "https://repo.org/f/a") "out" "a.csv" (VInt 10) VNone VNone
                    demo_existing (Demo.download "aaa")
                    eq_refl eq_refl eq_refl eq_refl eq_refl Hparent Hnodir eq_refl
                    (or_introl eq_refl)) eq_refl).
Defined.

(** *** What a download leaves alone *)

Lemma keeps_disk_refl (s : state) : keeps_disk s s.
Proof. split; [auto | set_solver]. Qed.

Lemma keeps_disk_trans (s1 s2 s3 : state) :
  keeps_disk s1 s2 -> keeps_disk s2 s3 -> keeps_disk s1 s3.
Proof. intros [Hf Hd] [Hf' Hd']. split; [auto | set_solver]. Qed.

Lemma keeps_paths_refl (s : state) : keeps_paths s s.
Proof. split; [auto | set_solver]. Qed.

Lemma keeps_paths_trans (s1 s2 s3 : state) :
  keeps_paths s1 s2 -> keeps_paths s2 s3 -> keeps_paths s1 s3.
Proof. intros [Hf Hd] [Hf' Hd']. split; [auto | set_solver]. Qed.

Lemma keeps_disk_paths (s s' : state) : keeps_disk s s' -> keeps_paths s s'.
Proof.
  intros [Hf Hd]. split; [|exact Hd].
  intros p [data Hp]. exists data. apply Hf. exact Hp.
Qed.

Lemma steps_weaken (R1 R2 : state -> state -> Prop) {A} (m : M A) :
  (forall s s', R1 s s' -> R2 s s') -> steps R1 m -> steps R2 m.
Proof.
  intros Hsub Hm s. specialize (Hm s). destruct (m s); auto.
Qed.

Lemma steps_emit_disk (ev : event) : steps keeps_disk (emit ev).
Proof. intros s. simpl. split; [auto | set_solver]. Qed.

Lemma steps_http_get_disk (E : Env) (url : value) : steps keeps_disk (http_get E url).
Proof.
  intros s. unfold http_get, bind, emit.
  destruct (requests_get E url); simpl; (split; [auto | set_solver]).
Qed.

Lemma steps_mkdir_parents_disk (E : Env) (d : string) : steps keeps_disk (mkdir_parents E d).
Proof.
  intros s. unfold mkdir_parents.
  destruct (bool_decide _); [apply keeps_disk_refl|].
  destruct (_ || _); [apply keeps_disk_refl|].
  simpl. split; [auto | set_solver].
Qed.

Lemma steps_report_disk (E : Env) (name : value) (status : string) :
  steps keeps_disk (report E name status).
Proof.
  unfold report.
  frame keeps_disk_refl keeps_disk_trans ltac:(apply steps_emit_disk).
Qed.

(** Writing to a path that holds no file keeps what is on disk. *)
Lemma write_new_keeps_disk (E : Env) (p : string) (data : bytes) (s : state) :
  fs_files s !! p = None ->
  match write_file E p data s with
  | Ok _ s' => keeps_disk s s'
  | Exc _ s' => keeps_disk s s'
  | OutOfFuel => True
  end.
Proof.
  intros Hnew. unfold write_file.
  destruct (_ || _); [apply keeps_disk_refl|].
  split; cbn [fs_files fs_dirs]; [|set_solver].
  intros q d Hq. destruct (decide (p = q)) as [->|Hne]; [congruence|].
  rewrite lookup_insert_ne by exact Hne. exact Hq.
Qed.

Lemma new_file_keeps_disk (p : string) (s s' : state) :
  fs_files s !! p = None ->
  fs_dirs s ⊆ fs_dirs s' ->
  (forall q, q <> p -> fs_files s' !! q = fs_files s !! q) ->
  keeps_disk s s'.
Proof.
  intros Hnew Hdirs Hother. split; [|exact Hdirs].
  intros q d Hq. rewrite Hother; [exact Hq|]. intros ->. congruence.
Qed.

Lemma progress_new_keeps_disk (E : Env) (p : string) (name : value) (res : response)
    (s : state) :
  fs_files s !! p = None ->
  match write_with_progress E p name res s with
  | Ok _ s' => keeps_disk s s'
  | Exc _ s' => keeps_disk s s'
  | OutOfFuel => True
  end.
Proof.
  intros Hnew. unfold write_with_progress, bind, open_wb, write_chunks.
  destruct (_ || _); [apply keeps_disk_refl|].
  assert (Hopened : forall tr,
             keeps_disk s {| attrs := attrs s; fs_files := <[p := []]> (fs_files s);
                             fs_dirs := fs_dirs s; trace := tr |}).
  { intros tr. apply (new_file_keeps_disk p); [exact Hnew|reflexivity|].
    intros q Hq. cbn [fs_files]. apply lookup_insert_ne. congruence. }
  assert (Hwritten : forall data tr,
             keeps_disk s {| attrs := attrs s;
                             fs_files := <[p := data]> (<[p := []]> (fs_files s));
                             fs_dirs := fs_dirs s; trace := tr |}).
  { intros data tr. apply (new_file_keeps_disk p); [exact Hnew|reflexivity|].
    intros q Hq. cbn [fs_files]. rewrite !lookup_insert_ne by congruence. reflexivity. }
  destruct (_format_filename E name) as [shown|e]; cbn [lift ret raise]; [|apply Hopened].
  destruct (content_length res) as [total|e]; cbn [lift ret raise]; [|apply Hopened].
  cbn [attrs fs_files fs_dirs trace].
  destruct (snd (iter_content res)); apply Hwritten.
Qed.

Lemma steps_open_wb_paths (E : Env) (p : string) : steps keeps_paths (open_wb E p).
Proof.
  intros s. unfold open_wb.
  destruct (_ || _); [apply keeps_paths_refl|].
  split; cbn [fs_files fs_dirs]; [|set_solver].
  intros q Hq. destruct (decide (p = q)) as [->|Hne].
  - rewrite lookup_insert_eq. eauto.
  - rewrite lookup_insert_ne by exact Hne. exact Hq.
Qed.

Lemma steps_write_chunks_paths (p : string) (received : list bytes) :
  steps keeps_paths (write_chunks p received).
Proof.
  intros s. unfold write_chunks.
  split; cbn [fs_files fs_dirs]; [|set_solver].
  intros q Hq. destruct (decide (p = q)) as [->|Hne].
  - rewrite lookup_insert_eq. eauto.
  - rewrite lookup_insert_ne by exact Hne. exact Hq.
Qed.

Lemma steps_write_paths (E : Env) (p : string) (data : bytes) :
  steps keeps_paths (write_file E p data).
Proof.
  intros s. unfold write_file.
  destruct (_ || _); [apply keeps_paths_refl|].
  split; cbn [fs_files fs_dirs]; [|set_solver].
  intros q Hq. destruct (decide (p = q)) as [->|Hne].
  - rewrite lookup_insert_eq. eauto.
  - rewrite lookup_insert_ne by exact Hne. exact Hq.
Qed.

Lemma steps_fetch_and_write_disk (E : Env) (C : config) link out name :
  force_download C = false ->
  steps keeps_disk (fetch_and_write E C link out name).
Proof.
  intros Hforce. unfold fetch_and_write. rewrite Hforce. cbn [negb andb].
  apply (steps_bind _ keeps_disk_trans); [apply steps_emit_disk|]. intros _.
  apply (steps_bind _ keeps_disk_trans); [apply steps_http_get_disk|]. intros res.
  apply (steps_bind _ keeps_disk_trans).
  { unfold raise_for_status.
    destruct (status_ok res); [apply steps_ret | apply steps_raise]; apply keeps_disk_refl. }
  intros _.
  apply (steps_bind _ keeps_disk_trans); [apply steps_lift, keeps_disk_refl|]. intros fp.
  apply (steps_bind _ keeps_disk_trans); [apply steps_mkdir_parents_disk|]. intros _.
  intros s. unfold bind, path_exists.
  destruct (bool_decide (is_Some (fs_files s !! fp))) eqn:Hthere; cbn [orb].
  - apply steps_emit_disk.
  - destruct (bool_decide (fp ∈ fs_dirs s)); [apply steps_emit_disk|].
    assert (Hnew : fs_files s !! fp = None).
    { apply bool_decide_eq_false in Hthere.
      destruct (fs_files s !! fp); [exfalso; apply Hthere; eauto | reflexivity]. }
    destruct (progress C);
      [apply progress_new_keeps_disk | apply write_new_keeps_disk]; exact Hnew.
Qed.

Lemma steps_download_file_disk (E : Env) (C : config) link out name size h ht :
  force_download C = false ->
  steps keeps_disk (download_file E C link out name size h ht).
Proof.
  intros Hforce. unfold download_file.
  frame keeps_disk_refl keeps_disk_trans
        ltac:(first [ apply steps_emit_disk | apply steps_report_disk
                    | apply steps_fetch_and_write_disk; exact Hforce ]).
Qed.

(** Walks through binds, loops and branches for [no_fuel_needed]. *)
Ltac nofuel leaf :=
  repeat first
    [ leaf
    | apply nf_ret | apply nf_raise | apply nf_lift | apply nf_emit
    | apply nf_when
    | apply nf_for_each; intros ? ?
    | apply nf_bind; [|intros ?]
    | apply nf_try_catch; [|intros ?]
    | match goal with
      | |- no_fuel_needed (if ?b then _ else _) => destruct b
      | |- no_fuel_needed (match ?x with _ => _ end) => destruct x
      end ].

Lemma nf_http_get (E : Env) (url : value) : no_fuel_needed (http_get E url).
Proof. unfold http_get. nofuel fail. Qed.

Lemma nf_path_exists (p : string) : no_fuel_needed (path_exists p).
Proof. intros s. discriminate. Qed.

Lemma nf_mkdir_parents (E : Env) (d : string) : no_fuel_needed (mkdir_parents E d).
Proof.
  intros s. unfold mkdir_parents.
  destruct (bool_decide _); [discriminate|]. destruct (_ || _); discriminate.
Qed.

Lemma nf_report (E : Env) (name : value) (status : string) :
  no_fuel_needed (report E name status).
Proof. unfold report. nofuel fail. Qed.

Lemma nf_open_wb (E : Env) (p : string) : no_fuel_needed (open_wb E p).
Proof. intros s. unfold open_wb. destruct (_ || _); discriminate. Qed.

Lemma nf_write_chunks (p : string) (received : list bytes) :
  no_fuel_needed (write_chunks p received).
Proof. intros s. discriminate. Qed.

Lemma nf_fetch_and_write (E : Env) (C : config) link out name :
  no_fuel_needed (fetch_and_write E C link out name).
Proof.
  unfold fetch_and_write, write_with_progress, raise_for_status.
  nofuel ltac:(first [ apply nf_http_get | apply nf_path_exists | apply nf_mkdir_parents
                     | apply nf_write_file | apply nf_open_wb | apply nf_write_chunks ]).
Qed.

Lemma nf_download_file (E : Env) (C : config) link out name size h ht :
  no_fuel_needed (download_file E C link out name size h ht).
Proof.
  unfold download_file.
  nofuel ltac:(first [ apply nf_report | apply nf_fetch_and_write ]).
Qed.

(** X8: with [force_download] off, downloading an entry never changes a
    file that is already there: however the call ends (written, skipped,
    "already exists", or an exception at any point), every file of the disk
    has the content it had and every directory is still a directory. *)
Theorem download_keeps_existing_files (E : Env) (C : config) (link : value)
    (out : string) (name size h ht : value) (s : state) :
  force_download C = false ->
  let r := download_file E C link out name size h ht s in
  r <> OutOfFuel /\ keeps_disk s (state_of r s).
Proof.
  intros Hforce r.
  pose proof (steps_download_file_disk E C link out name size h ht Hforce s) as H.
  fold r in H. split.
  - apply nf_download_file.
  - destruct r; simpl; auto. apply keeps_disk_refl.
Qed.

Lemma download_keeps_existing_files_witness :
  let r := download_file Demo.env (Demo.conf "https://repo.org/dataset/ds1")
             (VStr "https://repo.org/f/a") "out" (VStr "a.csv") (VInt 10) VNone VNone
             demo_existing in
  keeps_disk demo_existing (state_of r demo_existing)
  /\ fs_files (state_of r demo_existing) !! "out/a.csv" = Some (Demo.b "old").
Proof.
  intros r.
  pose proof (proj2 (download_keeps_existing_files Demo.env
                       (Demo.conf "https://repo.org/dataset/ds1")
                       (VStr "https://repo.org/f/a") "out" (VStr "a.csv") (VInt 10)
                       VNone VNone demo_existing eq_refl)) as H.
  split; [exact H|]. apply (proj1 H). reflexivity.
Defined.

(** ** Unpacking, continued *)

Lemma outside_refl (T : string -> Prop) (s : state) : outside T s s.
Proof. split; [reflexivity | split; [set_solver | auto]]. Qed.

Lemma outside_trans (T : string -> Prop) (s1 s2 s3 : state) :
  outside T s1 s2 -> outside T s2 s3 -> outside T s1 s3.
Proof.
  intros (Ha & Hd & Hf) (Ha' & Hd' & Hf'). repeat split.
  - congruence.
  - set_solver.
  - intros p Hp. rewrite (Hf' p Hp). apply Hf. exact Hp.
Qed.

Lemma steps_emit_outside (T : string -> Prop) (ev : event) : steps (outside T) (emit ev).
Proof. intros s. split; [reflexivity | split; [cbn [fs_dirs]; set_solver | auto]]. Qed.

Lemma steps_http_get_outside (T : string -> Prop) (E : Env) (url : value) :
  steps (outside T) (http_get E url).
Proof.
  intros s. unfold http_get, bind, emit.
  destruct (requests_get E url); repeat split; solve [set_solver | auto].
Qed.

Lemma steps_path_exists_outside (T : string -> Prop) (p : string) :
  steps (outside T) (path_exists p).
Proof. intros s. apply outside_refl. Qed.

Lemma steps_isdir_outside (T : string -> Prop) (p : string) : steps (outside T) (isdir p).
Proof. intros s. apply outside_refl. Qed.

Lemma steps_mkdir_parents_outside (T : string -> Prop) (E : Env) (d : string) :
  steps (outside T) (mkdir_parents E d).
Proof.
  intros s. unfold mkdir_parents.
  destruct (bool_decide _); [apply outside_refl|].
  destruct (_ || _); [apply outside_refl|].
  repeat split; cbn [fs_dirs fs_files attrs]; solve [set_solver | auto].
Qed.

Lemma steps_os_mkdir_outside (T : string -> Prop) (E : Env) (d : string) :
  steps (outside T) (os_mkdir E d).
Proof.
  intros s. unfold os_mkdir.
  destruct (_ || _); [apply outside_refl|].
  repeat split; cbn [fs_dirs fs_files attrs]; solve [set_solver | auto].
Qed.

Lemma steps_write_file_outside (T : string -> Prop) (E : Env) (p : string) (data : bytes) :
  T p -> steps (outside T) (write_file E p data).
Proof.
  intros Hp s. unfold write_file.
  destruct (_ || _); [apply outside_refl|].
  repeat split; cbn [fs_dirs fs_files attrs]; [set_solver|].
  intros q Hq. apply lookup_insert_ne. intros ->. exact (Hq Hp).
Qed.

Lemma steps_open_wb_outside (T : string -> Prop) (E : Env) (p : string) :
  T p -> steps (outside T) (open_wb E p).
Proof.
  intros Hp s. unfold open_wb.
  destruct (_ || _); [apply outside_refl|].
  repeat split; cbn [fs_dirs fs_files attrs]; [set_solver|].
  intros q Hq. apply lookup_insert_ne. intros ->. exact (Hq Hp).
Qed.

Lemma steps_write_chunks_outside (T : string -> Prop) (p : string) (received : list bytes) :
  T p -> steps (outside T) (write_chunks p received).
Proof.
  intros Hp s. unfold write_chunks.
  repeat split; cbn [fs_dirs fs_files attrs]; [set_solver|].
  intros q Hq. apply lookup_insert_ne. intros ->. exact (Hq Hp).
Qed.

Lemma steps_read_file_outside (T : string -> Prop) (E : Env) (p : string) :
  steps (outside T) (read_file E p).
Proof.
  intros s. unfold read_file.
  destruct (io_denied E p); [apply outside_refl|].
  destruct (fs_files s !! p); apply outside_refl.
Qed.

Lemma steps_os_walk_outside (T : string -> Prop) (top : string) :
  steps (outside T) (os_walk top).
Proof. intros s. unfold os_walk. destruct (bool_decide _); apply outside_refl. Qed.

Lemma nf_zip_extract (E : Env) member data out : no_fuel_needed (zip_extract E member data out).
Proof.
  unfold zip_extract.
  nofuel ltac:(first [ apply nf_path_exists | apply nf_mkdir_parents | apply nf_write_file ]).
Qed.

Lemma nf_unpack (E : Env) link out : no_fuel_needed (_unpack_single_folder E link out).
Proof.
  unfold _unpack_single_folder, raise_for_status.
  nofuel ltac:(first [ apply nf_http_get | apply nf_zip_extract ]).
Qed.

Lemma is_dir_name_last (name : string) (c : ascii) :
  last_char name = Return c -> is_dir_name name = Ascii.eqb c slash.
Proof. intros H. unfold is_dir_name. rewrite H. reflexivity. Qed.

Lemma steps_zip_extract_outside (T : string -> Prop) (E : Env) member data out :
  T (extract_target out member) ->
  steps (outside T) (zip_extract E member data out).
Proof.
  intros HT. unfold zip_extract.
  frame (outside_refl T) (outside_trans T)
        ltac:(first [ apply steps_path_exists_outside | apply steps_mkdir_parents_outside
                    | apply steps_write_file_outside; exact HT ]).
Qed.

Lemma steps_unpack_outside (E : Env) (link : value) (out : string) :
  steps (outside (archive_target E link out)) (_unpack_single_folder E link out).
Proof.
  set (T := archive_target E link out).
  unfold _unpack_single_folder.
  intros s. unfold bind at 1.
  pose proof (steps_http_get_outside T E link s) as Hget.
  destruct (http_get E link s) as [res s1|e s1|] eqn:Hg; [|exact Hget|exact I].
  apply http_get_ok in Hg.
  assert (Hrest : steps (outside T)
            (raise_for_status res;;;
             let* z := lift (zip_infolist E (content res)) in
             for_each
               (fun (_ : unit) (zip_info : string * bytes) =>
                  let* c := lift (last_char (fst zip_info)) in
                  if Ascii.eqb c slash then ret tt
                  else zip_extract E (basename (fst zip_info)) (snd zip_info) out)
               z tt)).
  { apply (steps_bind _ (outside_trans T)).
    { unfold raise_for_status.
      destruct (status_ok res); [apply steps_ret | apply steps_raise]; apply outside_refl. }
    intros _.
    destruct (zip_infolist E (content res)) as [members|e] eqn:Hzip;
      [|intros s0; apply outside_refl].
    intros s0. unfold bind at 1. cbn [lift ret]. revert s0.
    apply (steps_for_each_in _ (outside_refl T) (outside_trans T)).
    intros [] m Hin s0. unfold bind.
    destruct (last_char (fst m)) as [c|e] eqn:Hc; cbn [lift ret raise];
      [|apply outside_refl].
    destruct (Ascii.eqb c slash) eqn:Hslash; [apply outside_refl|].
    apply steps_zip_extract_outside.
    exists res, members, m. repeat split; try assumption.
    rewrite (is_dir_name_last _ _ Hc). exact Hslash. }
  specialize (Hrest s1). cbv beta in Hrest.
  match goal with
  | |- match ?run with _ => _ end =>
      destruct run; try exact I; eapply outside_trans; eauto
  end.
Qed.

(** X9: the footprint of the unpacker.  However a run of
    [_unpack_single_folder] ends, also when the request fails, the archive
    is damaged or a member cannot be written half way, the attributes of
    the session are untouched, no directory is removed, and the only files
    that can differ from before are the targets of the members of the
    archive that are no directories. *)
Theorem unpack_footprint (E : Env) (link : value) (out : string) (s : state) :
  let r := _unpack_single_folder E link out s in
  r <> OutOfFuel
  /\ attrs (state_of r s) = attrs s
  /\ fs_dirs s ⊆ fs_dirs (state_of r s)
  /\ forall p,
       (forall res members m,
           requests_get E link = Return res ->
           zip_infolist E (content res) = Return members ->
           In m members ->
           is_dir_name (fst m) = false ->
           extract_target out (basename (fst m)) <> p) ->
       fs_files (state_of r s) !! p = fs_files s !! p.
Proof.
  intros r. split; [apply nf_unpack|].
  pose proof (steps_unpack_outside E link out s) as H. fold r in H.
  assert (Hout : outside (archive_target E link out) s (state_of r s)).
  { destruct r; simpl; auto. apply outside_refl. }
  destruct Hout as (Ha & Hd & Hf). split; [exact Ha|]. split; [exact Hd|].
  intros p Hp. apply Hf.
  intros (res & members & m & Hget & Hzip & Hin & Hdir & ->).
  exact (Hp res members m Hget Hzip Hin Hdir eq_refl).
Qed.

Lemma unpack_state_app out (pre post : list (string * bytes)) s :
  unpack_state out (pre ++ post) s = unpack_state out post (unpack_state out pre s).
Proof. unfold unpack_state. apply fold_left_app. Qed.

Lemma unpack_fetch (E : Env) (link : value) (out : string) (s : state)
    (r : response) (members : list (string * bytes)) :
  requests_get E link = Return r ->
  status_ok r = true ->
  zip_infolist E (content r) = Return members ->
  _unpack_single_folder E link out s
  = for_each
      (fun (_ : unit) (zip_info : string * bytes) =>
         let* c := lift (last_char (fst zip_info)) in
         if Ascii.eqb c slash then ret tt
         else zip_extract E (basename (fst zip_info)) (snd zip_info) out)
      members tt (add_events s [EvGet link]).
Proof.
  intros Hget Hstatus Hzip. unfold _unpack_single_folder.
  assert (Hg : http_get E link s = Ok r (add_events s [EvGet link])).
  { unfold http_get, bind, emit. rewrite Hget. reflexivity. }
  rewrite (bind_step _ _ _ _ _ Hg).
  unfold raise_for_status. rewrite Hstatus.
  rewrite (bind_step _ _ _ tt (add_events s [EvGet link])) by reflexivity.
  rewrite (bind_step _ _ _ _ _ (lift_return _ _ _ Hzip)). reflexivity.
Qed.

(** X10: a member without a name stops the unpacking with [IndexError]: the
    members before it are already in the destination and stay there, the
    members after it are not unpacked. *)
Theorem nameless_member_stops_unpacking (E : Env) (link : value) (out : string)
    (s : state) (r : response) (pre post : list (string * bytes)) (data : bytes) :
  requests_get E link = Return r ->
  status_ok r = true ->
  zip_infolist E (content r) = Return (pre ++ ("", data) :: post) ->
  List.forallb (member_ok E (fs_dirs s) out) pre = true ->
  _unpack_single_folder E link out s
  = Exc IndexError (unpack_state out pre (add_events s [EvGet link])).
Proof.
  intros Hget Hstatus Hzip Hpre.
  rewrite (unpack_fetch E link out s r _ Hget Hstatus Hzip).
  rewrite for_each_app.
  rewrite (bind_step _ _ _ _ _ (unpack_loop E out pre (add_events s [EvGet link]) Hpre)).
  reflexivity.
Qed.

Lemma nameless_member_stops_unpacking_witness :
  exists s',
    _unpack_single_folder (archive_env nameless_members) (VStr "https://repo.org/f/data.zip")
      "out" Demo.start = Exc IndexError s'
    /\ fs_files s' !! "out/x.csv" = Some (Demo.b "1")
    /\ fs_files s' !! "out/y.csv" = None.
Proof.
  eexists. split.
  - apply (nameless_member_stops_unpacking (archive_env nameless_members)
             (VStr "https://repo.org/f/data.zip") "out" Demo.start (Demo.download "PK")
             [("a/x.csv", Demo.b "1")] [("b/y.csv", Demo.b "2")] (Demo.b "?")
             eq_refl eq_refl eq_refl).
    vm_compute. reflexivity.
  - split; vm_compute; reflexivity.
Defined.

(** X11: members that share a base name share a target, and the last one
    stays: after a run that unpacks every member, the target of a member
    holds the data of that member when no later member has the same
    target. *)
Theorem colliding_members_last_wins (E : Env) (link : value) (out : string)
    (s : state) (r : response) (pre post : list (string * bytes)) (m : string * bytes) :
  requests_get E link = Return r ->
  status_ok r = true ->
  zip_infolist E (content r) = Return (pre ++ m :: post) ->
  List.forallb (member_ok E (fs_dirs s) out) (pre ++ m :: post) = true ->
  is_dir_name (fst m) = false ->
  (forall m', In m' post -> is_dir_name (fst m') = false ->
     extract_target out (basename (fst m')) <> extract_target out (basename (fst m))) ->
  exists s',
    _unpack_single_folder E link out s = Ok tt s'
    /\ fs_files s' !! extract_target out (basename (fst m)) = Some (snd m).
Proof.
  intros Hget Hstatus Hzip Hok Hfile Hlast.
  eexists. split.
  - apply (unpack_run E link out s r _ Hget Hstatus Hzip Hok).
  - rewrite unpack_state_app. cbn [unpack_state List.fold_left]. rewrite Hfile.
    fold (unpack_state out post
            (wrote (unpack_state out pre (add_events s [EvGet link]))
                   (member_target out m) (snd m))).
    rewrite (unpack_state_other out post _ _ Hlast).
    cbn [wrote fs_files]. apply lookup_insert_eq.
Qed.

Lemma colliding_members_last_wins_witness :
  exists s',
    _unpack_single_folder (archive_env colliding_members)
      (VStr "https://repo.org/f/data.zip") "out" Demo.start = Ok tt s'
    /\ fs_files s' !! "out/x.csv" = Some (Demo.b "2").
Proof.
  destruct (colliding_members_last_wins (archive_env colliding_members)
              (VStr "https://repo.org/f/data.zip") "out" Demo.start (Demo.download "PK")
              [("a/x.csv", Demo.b "1")] [] ("b/x.csv", Demo.b "2")
              eq_refl eq_refl eq_refl)
    as (s' & Hrun & Hlast).
  - vm_compute. reflexivity.
  - reflexivity.
  - intros m' [].
  - exists s'. split; [exact Hrun | exact Hlast].
Defined.

(** ** Checksums, continued *)

Lemma newhash_known (E : Env) (a : string) (data : bytes) :
  newhash_of E (VStr a) data
  = if known_algorithm a then Some (hexdigest E a data) else None.
Proof.
  unfold newhash_of, known_algorithm. cbn [eq_str List.existsb].
  repeat match goal with
         | |- context [String.eqb a ?k] =>
             destruct (String.eqb_spec a k) as [->|?]; [reflexivity|]; cbn [orb]
         end.
  reflexivity.
Qed.

(** X12: what the pass records for a file.  When the first entry whose name
    is the name of the file declares a hash [h] and an algorithm [a], and
    the file can be read, the file is recorded, with [True] exactly when [a]
    is one of the six algorithms and [h] is the digest of the content; an
    algorithm the code does not know is recorded as a mismatch.  Entries
    after the first one with that name play no part. *)
Theorem checksum_step_records (E : Env) (files_info : list entry)
    (checksums : gmap string bool) (subdir file : string) (s : state)
    (e : entry) (rest : list entry) (h a : string) (data : bytes) :
  file_comp_of file files_info = e :: rest ->
  f_hash e = VStr h ->
  f_hash_type e = VStr a ->
  io_denied E (os_path_join subdir file) = false ->
  fs_files s !! os_path_join subdir file = Some data ->
  let verdict := known_algorithm a && String.eqb h (hexdigest E a data) in
  checksum_step E files_info checksums (subdir, file) s
  = Ok (<[file := verdict]> checksums)
       (add_events s
          [EvPrint ("Checksum match: " +:+ py_bool verdict +:+ " - " +:+ file);
           EvLogInfo ("Checksum match: " +:+ py_bool verdict +:+ " - " +:+ file)]).
Proof.
  intros Hcomp Hhash Htype Hallowed Hdata verdict.
  unfold checksum_step. cbn [fst snd]. rewrite Hcomp.
  match goal with
  | |- bind ?m _ s = _ => assert (Hhh : m s = Ok (f_hash e, f_hash_type e) s) by reflexivity
  end.
  rewrite (bind_step _ _ _ _ _ Hhh).
  assert (Hread : read_file E (os_path_join subdir file) s = Ok data s).
  { unfold read_file. rewrite Hallowed, Hdata. reflexivity. }
  rewrite (bind_step _ _ _ _ _ Hread). cbn [fst snd].
  rewrite Hhash, Htype. cbn [is_none negb andb].
  rewrite newhash_known.
  assert (Hv : hash_eq (VStr h) (if known_algorithm a then Some (hexdigest E a data) else None)
               = verdict).
  { unfold verdict. destruct (known_algorithm a); reflexivity. }
  rewrite Hv. unfold bind, emit, ret, add_events. cbn [trace attrs fs_files fs_dirs].
  rewrite <- app_assoc. reflexivity.
Qed.

Lemma checksum_step_records_witness :
  checksum_step Demo.env demo_flat_info ∅ ("out", "data.csv") demo_flat
  = Ok {[ "data.csv" := true ]}
       (add_events demo_flat [EvPrint "Checksum match: True - data.csv";
                              EvLogInfo "Checksum match: True - data.csv"]).
Proof.
  apply (checksum_step_records Demo.env demo_flat_info ∅ "out" "data.csv" demo_flat
           _ [] "md5:abc" "md5" (Demo.b "abc") eq_refl eq_refl eq_refl eq_refl eq_refl).
Defined.

Lemma steps_checksum_step_outside (T : string -> Prop) (E : Env) fi cs walked :
  steps (outside T) (checksum_step E fi cs walked).
Proof.
  unfold checksum_step.
  frame (outside_refl T) (outside_trans T)
        ltac:(first [ apply steps_emit_outside | apply steps_read_file_outside ]).
Qed.

Lemma steps_checksum_report_outside (E : Env) (out : string) (fi : list entry) :
  steps (outside (fun p => p = report_path E out)) (checksum_report E out fi).
Proof.
  unfold checksum_report, checksum_loop.
  frame (outside_refl (fun p => p = report_path E out))
        (outside_trans (fun p => p = report_path E out))
        ltac:(first [ apply steps_os_walk_outside | apply steps_isdir_outside
                    | apply steps_os_mkdir_outside
                    | apply steps_checksum_step_outside
                    | apply steps_write_file_outside; reflexivity ]).
Qed.

(** X13: the footprint of the checksum pass.  From every state
    [_check_checksums] returns normally, and whatever happened inside it the
    attributes of the session are untouched, no directory is removed and no
    file other than the report itself has changed: the downloaded files are
    only read. *)
Theorem checksum_pass_footprint (E : Env) (out : string) (files_info : list entry)
    (s : state) :
  exists s',
    _check_checksums E out files_info s = Ok tt s'
    /\ attrs s' = attrs s
    /\ fs_dirs s ⊆ fs_dirs s'
    /\ forall p, p <> report_path E out -> fs_files s' !! p = fs_files s !! p.
Proof.
  destruct (check_checksums_returns E out files_info s) as [s' Hrun].
  exists s'. split; [exact Hrun|].
  assert (H : steps (outside (fun p => p = report_path E out))
                    (_check_checksums E out files_info)).
  { unfold _check_checksums.
    apply (steps_try_catch _ (outside_trans _)); [apply steps_checksum_report_outside|].
    intros e. apply steps_emit_outside. }
  specialize (H s). rewrite Hrun in H. destruct H as (Ha & Hd & Hf).
  split; [exact Ha|]. split; [exact Hd|]. intros p Hp. apply Hf. exact Hp.
Qed.

(** X14: without the output folder there is no report.  When the folder to
    verify is no directory (nothing was downloaded, as after a dry run into
    a new folder), the pass finds no file, cannot create [generated] below
    it, logs the error and returns: nothing is written. *)
Theorem checksum_pass_without_folder (E : Env) (out : string) (files_info : list entry)
    (s : state) :
  out ∉ fs_dirs s ->
  out +:+ "/generated" ∉ fs_dirs s ->
  String.eqb (dirname (out +:+ "/generated")) "" = false ->
  dirname (out +:+ "/generated") ∉ fs_dirs s ->
  _check_checksums E out files_info s
  = Ok tt (add_events s [EvLogError "Failed at checksum"]).
Proof.
  intros Hout Hgen Hrel Hparent.
  assert (Hwalk : os_walk out s = Ok [] s).
  { unfold os_walk. rewrite (bool_decide_eq_false_2 _ Hout). reflexivity. }
  assert (Hloop : checksum_loop E out files_info s = Ok ∅ s).
  { unfold checksum_loop. rewrite (bind_step _ _ _ _ _ Hwalk). reflexivity. }
  unfold _check_checksums, try_catch, checksum_report.
  rewrite (bind_step _ _ _ _ _ Hloop).
  unfold bind at 1, isdir. rewrite (bool_decide_eq_false_2 _ Hgen). cbn [negb when].
  unfold bind at 1, os_mkdir.
  rewrite (bool_decide_eq_false_2 _ Hparent), Hrel. cbn [orb negb].
  rewrite !orb_true_r. reflexivity.
Qed.

Lemma checksum_pass_without_folder_witness :
  _check_checksums Demo.env "out" demo_flat_info demo_missing_folder
  = Ok tt (add_events demo_missing_folder [EvLogError "Failed at checksum"]).
Proof.
  apply (checksum_pass_without_folder Demo.env "out" demo_flat_info demo_missing_folder).
  - simpl. set_solver.
  - change ("out" +:+ "/generated") with "out/generated". simpl. set_solver.
  - reflexivity.
  - change (dirname ("out" +:+ "/generated")) with "out". simpl. set_solver.
Defined.

Lemma append_same (a b : string) : a +:+ b = a -> b = "".
Proof.
  induction a as [|c a IH]; intros H.
  - exact H.
  - rewrite append_cons in H. injection H as H. apply IH. exact H.
Qed.

Lemma report_path_not_generated (E : Env) (out : string) :
  report_path E out <> out +:+ "/generated".
Proof.
  unfold report_path. intros H. apply append_same in H. discriminate.
Qed.

(** X15: the report.  When the loop over the files ends normally with the
    dict [checksums], and [generated] exists below the output folder or can
    be created there, the pass stores [json.dump(checksums)] at
    [generated/checksums<timestamp>.json]; afterwards [generated] is a
    directory and the write of the report is the only event after the
    loop. *)
Theorem checksum_report_is_written (E : Env) (out : string) (files_info : list entry)
    (s s1 : state) (checksums : gmap string bool) :
  checksum_loop E out files_info s = Ok checksums s1 ->
  (out +:+ "/generated" ∈ fs_dirs s1
   \/ (io_denied E (out +:+ "/generated") = false
       /\ fs_files s1 !! (out +:+ "/generated") = None
       /\ (String.eqb (dirname (out +:+ "/generated")) "" = true
           \/ dirname (out +:+ "/generated") ∈ fs_dirs s1))) ->
  io_denied E (report_path E out) = false ->
  report_path E out ∉ fs_dirs s1 ->
  exists s2,
    _check_checksums E out files_info s = Ok tt s2
    /\ fs_files s2 = <[report_path E out := json_dump E checksums]> (fs_files s1)
    /\ out +:+ "/generated" ∈ fs_dirs s2
    /\ trace s2 = trace s1 ++ [EvWrite (report_path E out) (json_dump E checksums)].
Proof.
  intros Hloop Hgen Hallowed Hnodir.
  unfold _check_checksums, try_catch, checksum_report.
  rewrite (bind_step _ _ _ _ _ Hloop).
  fold (report_path E out).
  unfold bind at 1, isdir.
  destruct (decide (out +:+ "/generated" ∈ fs_dirs s1)) as [Hthere|Hnew].
  - rewrite (bool_decide_eq_true_2 _ Hthere). cbn [negb when].
    unfold bind, ret, write_file.
    rewrite Hallowed, (bool_decide_eq_false_2 _ Hnodir). cbn [orb].
    eexists. split; [reflexivity|]. cbn [fs_files fs_dirs trace].
    repeat split. exact Hthere.
  - destruct Hgen as [Hthere|(Hmk & Hnofile & Hparent)]; [contradiction|].
    rewrite (bool_decide_eq_false_2 _ Hnew). cbn [negb when].
    unfold bind at 1, os_mkdir.
    rewrite Hmk, (bool_decide_eq_false_2 _ Hnew), Hnofile.
    rewrite (bool_decide_eq_false_2 (is_Some None)) by (intros [x Hx]; discriminate).
    assert (Hp : String.eqb (dirname (out +:+ "/generated")) ""
                 || bool_decide (dirname (out +:+ "/generated") ∈ fs_dirs s1) = true).
    { destruct Hparent as [-> | Hp]; [reflexivity|].
      rewrite (bool_decide_eq_true_2 _ Hp). apply orb_true_r. }
    rewrite Hp. cbn [orb negb].
    unfold write_file. cbn [fs_dirs fs_files trace attrs].
    rewrite Hallowed.
    assert (Hnodir' : report_path E out ∉ fs_dirs s1 ∪ {[ out +:+ "/generated" ]}).
    { intros [H|H]%elem_of_union; [exact (Hnodir H)|].
      apply elem_of_singleton in H. exact (report_path_not_generated E out H). }
    rewrite (bool_decide_eq_false_2 _ Hnodir'). cbn [orb].
    eexists. split; [reflexivity|]. cbn [fs_files fs_dirs trace].
    repeat split. apply elem_of_union_r, elem_of_singleton. reflexivity.
Qed.

Lemma checksum_report_is_written_witness :
  exists s2,
    _check_checksums Demo.env "out" demo_flat_info demo_flat = Ok tt s2
    /\ fs_files s2 !! "out/generated/checksums1700000000.json"
       = Some (Demo.dump {[ "data.csv" := true ]})
    /\ fs_files s2 !! "out/data.csv" = Some (Demo.b "abc").
Proof.
  pose (loop := checksum_loop Demo.env "out" demo_flat_info demo_flat).
  assert (Hloop : loop = Ok {[ "data.csv" := true ]} (state_of loop demo_flat)).
  { vm_compute. reflexivity. }
  destruct (checksum_report_is_written Demo.env "out" demo_flat_info demo_flat _ _ Hloop)
    as (s2 & Hrun & Hfiles & _).
  - right. split; [reflexivity|]. split; [vm_compute; reflexivity|].
    right. by_compute.
  - reflexivity.
  - by_compute.
  - exists s2. split; [exact Hrun|]. rewrite Hfiles. split; vm_compute; reflexivity.
Defined.

(** ** What a run leaves alone *)

Lemma steps_reads (R : state -> state -> Prop) {A} (m : M A) :
  (forall s, R s s) -> reads m -> steps R m.
Proof.
  intros Hrefl Hm s. specialize (Hm s).
  destruct (m s); try exact I; subst; apply Hrefl.
Qed.

Lemma reads_path_exists (p : string) : reads (path_exists p).
Proof. intros s. reflexivity. Qed.

Lemma reads_isdir (p : string) : reads (isdir p).
Proof. intros s. reflexivity. Qed.

Lemma reads_hasattr (name : string) : reads (hasattr name).
Proof. intros s. reflexivity. Qed.

Lemma reads_getattr (name : string) : reads (getattr name).
Proof. intros s. unfold getattr. destruct (attrs s !! name); reflexivity. Qed.

Lemma reads_os_walk (top : string) : reads (os_walk top).
Proof. intros s. unfold os_walk. destruct (bool_decide _); reflexivity. Qed.

Lemma reads_read_file (E : Env) (p : string) : reads (read_file E p).
Proof.
  intros s. unfold read_file. destruct (io_denied E p); [reflexivity|].
  destruct (fs_files s !! p); reflexivity.
Qed.

Lemma same_disk_refl (s : state) : same_disk s s.
Proof. split; reflexivity. Qed.

Lemma same_disk_trans (s1 s2 s3 : state) :
  same_disk s1 s2 -> same_disk s2 s3 -> same_disk s1 s3.
Proof. intros [Hf Hd] [Hf' Hd']. split; congruence. Qed.

Lemma same_disk_keeps (s s' : state) : same_disk s s' -> keeps_disk s s'.
Proof. intros [Hf Hd]. split; [rewrite Hf; auto | rewrite Hd; set_solver]. Qed.

Lemma only_requests_same_disk (s s' : state) : only_requests s s' -> same_disk s s'.
Proof. intros (_ & Hf & Hd & _). split; assumption. Qed.

Lemma steps_emit_same (ev : event) : steps same_disk (emit ev).
Proof. intros s. split; reflexivity. Qed.

Lemma steps_setattr_same (name : string) (a : attr) : steps same_disk (setattr name a).
Proof. intros s. split; reflexivity. Qed.

Lemma steps_params_same (E : Env) (D : descriptor E) (C : config) :
  steps same_disk (_params E D C).
Proof.
  unfold _params.
  frame same_disk_refl same_disk_trans
        ltac:(first [ apply steps_emit_same | apply steps_setattr_same
                    | apply (steps_reads _ _ same_disk_refl (reads_hasattr _))
                    | apply (steps_reads _ _ same_disk_refl (reads_getattr _)) ]).
Qed.

Lemma steps_files_same (E : Env) (D : descriptor E) (C : config) (fuel : nat) :
  steps same_disk (files E D C fuel).
Proof.
  unfold files.
  frame same_disk_refl same_disk_trans
        ltac:(first [ apply steps_emit_same | apply steps_setattr_same
                    | apply steps_params_same
                    | apply (steps_weaken _ _ _ only_requests_same_disk), steps_traversal
                    | apply (steps_reads _ _ same_disk_refl (reads_hasattr _))
                    | apply (steps_reads _ _ same_disk_refl (reads_getattr _)) ]).
Qed.

Lemma steps_single_zip_test_same (E : Env) (D : descriptor E) (C : config) (fuel : nat) :
  steps same_disk (single_zip_test E D C fuel).
Proof.
  unfold single_zip_test.
  frame same_disk_refl same_disk_trans ltac:(apply steps_files_same).
Qed.

Lemma single_zip_test_needs_unzip (E : Env) (D : descriptor E) (C : config) fuel s b s' :
  unzip C = false ->
  single_zip_test E D C fuel s = Ok b s' ->
  b = false.
Proof.
  intros Hunzip H. unfold single_zip_test in H.
  apply bind_ok in H as (listing & s1 & _ & H).
  destruct (List.length listing =? 1)%nat.
  - apply bind_ok in H as (l0 & s2 & _ & H).
    apply bind_ok in H as (first & s3 & _ & H).
    apply bind_ok in H as (by_link & s4 & _ & H).
    apply bind_ok in H as (zipped & s5 & _ & H).
    apply ret_ok in H as [<- _]. rewrite Hunzip. apply andb_false_r.
  - apply ret_ok in H as [<- _]. reflexivity.
Qed.

Lemma steps_download_all_disk (E : Env) (D : descriptor E) (C : config) fuel out :
  force_download C = false ->
  steps keeps_disk (download_all E D C fuel out).
Proof.
  intros Hforce. unfold download_all.
  frame keeps_disk_refl keeps_disk_trans
        ltac:(first [ apply (steps_weaken _ _ _ same_disk_keeps), steps_files_same
                    | apply steps_download_file_disk; exact Hforce ]).
Qed.

Lemma nf_hasattr (name : string) : no_fuel_needed (hasattr name).
Proof. intros s. discriminate. Qed.

Lemma nf_getattr (name : string) : no_fuel_needed (getattr name).
Proof. intros s. unfold getattr. destruct (attrs s !! name); discriminate. Qed.

Lemma nf_setattr (name : string) (a : attr) : no_fuel_needed (setattr name a).
Proof. intros s. discriminate. Qed.

(** X16: with [force_download], [unzip] and [checksum] off, a download never
    changes what is already on disk: however [download] ends, every file
    that was there has the content it had, and every directory is still
    there.  Running it again over a finished download rewrites nothing. *)
Theorem download_keeps_existing_disk (E : Env) (D : descriptor E) (C : config)
    (fuel : nat) (out : string) (s : state) :
  force_download C = false ->
  unzip C = false ->
  checksum C = false ->
  let r := download E D C fuel out s in
  r = OutOfFuel \/ keeps_disk s (state_of r s).
Proof.
  intros Hforce Hunzip Hchecksum r.
  assert (H : steps keeps_disk (download E D C fuel out)).
  { unfold download.
    apply (steps_bind _ keeps_disk_trans); [|intros; apply steps_ret, keeps_disk_refl].
    unfold _get. rewrite Hchecksum. cbn [when].
    intros s0. unfold bind at 1.
    pose proof (steps_single_zip_test_same E D C fuel s0) as Htest.
    destruct (single_zip_test E D C fuel s0) as [b s1|e s1|] eqn:Hb;
      [|apply same_disk_keeps; exact Htest|exact I].
    rewrite (single_zip_test_needs_unzip E D C fuel s0 b s1 Hunzip Hb).
    apply same_disk_keeps in Htest.
    assert (Hrest : steps keeps_disk
                      (let* files_info := download_all E D C fuel out in ret tt)).
    { apply (steps_bind _ keeps_disk_trans); [apply steps_download_all_disk; exact Hforce|].
      intros; apply steps_ret, keeps_disk_refl. }
    specialize (Hrest s1). cbv beta in Hrest.
    match goal with
    | |- match ?run with _ => _ end =>
        destruct run; try exact I; eapply keeps_disk_trans; eauto
    end. }
  specialize (H s). fold r in H.
  destruct r; simpl; auto.
Qed.

Lemma download_keeps_existing_disk_witness :
  keeps_disk demo_existing
    (state_of (download Demo.env Demo.desc demo_conf_plain 3 "out" demo_existing)
              demo_existing).
Proof.
  destruct (download_keeps_existing_disk Demo.env Demo.desc demo_conf_plain 3 "out"
              demo_existing eq_refl eq_refl eq_refl) as [H|H].
  - exfalso. vm_compute in H. discriminate.
  - exact H.
Defined.

Lemma steps_os_mkdir_disk (E : Env) (d : string) : steps keeps_disk (os_mkdir E d).
Proof.
  intros s. unfold os_mkdir.
  destruct (_ || _); [apply keeps_disk_refl|].
  split; cbn [fs_files fs_dirs]; [auto | set_solver].
Qed.

Lemma steps_fetch_and_write_paths (E : Env) (C : config) link out name :
  steps keeps_paths (fetch_and_write E C link out name).
Proof.
  unfold fetch_and_write, write_with_progress, raise_for_status.
  frame keeps_paths_refl keeps_paths_trans
        ltac:(first [ apply (steps_weaken _ _ _ keeps_disk_paths), steps_emit_disk
                    | apply (steps_weaken _ _ _ keeps_disk_paths), steps_http_get_disk
                    | apply (steps_weaken _ _ _ keeps_disk_paths), steps_mkdir_parents_disk
                    | apply (steps_reads _ _ keeps_paths_refl (reads_path_exists _))
                    | apply steps_write_paths
                    | apply steps_open_wb_paths
                    | apply steps_write_chunks_paths ]).
Qed.

Lemma steps_download_file_paths (E : Env) (C : config) link out name size h ht :
  steps keeps_paths (download_file E C link out name size h ht).
Proof.
  unfold download_file.
  frame keeps_paths_refl keeps_paths_trans
        ltac:(first [ apply (steps_weaken _ _ _ keeps_disk_paths), steps_emit_disk
                    | apply (steps_weaken _ _ _ keeps_disk_paths), steps_report_disk
                    | apply steps_fetch_and_write_paths ]).
Qed.

Lemma steps_unpack_paths (E : Env) link out :
  steps keeps_paths (_unpack_single_folder E link out).
Proof.
  unfold _unpack_single_folder, raise_for_status, zip_extract.
  frame keeps_paths_refl keeps_paths_trans
        ltac:(first [ apply (steps_weaken _ _ _ keeps_disk_paths), steps_http_get_disk
                    | apply (steps_weaken _ _ _ keeps_disk_paths), steps_mkdir_parents_disk
                    | apply (steps_reads _ _ keeps_paths_refl (reads_path_exists _))
                    | apply steps_write_paths ]).
Qed.

Lemma steps_check_checksums_paths (E : Env) out files_info :
  steps keeps_paths (_check_checksums E out files_info).
Proof.
  unfold _check_checksums, checksum_report, checksum_loop, checksum_step.
  frame keeps_paths_refl keeps_paths_trans
        ltac:(first [ apply (steps_weaken _ _ _ keeps_disk_paths), steps_emit_disk
                    | apply (steps_weaken _ _ _ keeps_disk_paths), steps_os_mkdir_disk
                    | apply (steps_reads _ _ keeps_paths_refl (reads_os_walk _))
                    | apply (steps_reads _ _ keeps_paths_refl (reads_isdir _))
                    | apply (steps_reads _ _ keeps_paths_refl (reads_read_file _ _))
                    | apply steps_write_paths ]).
Qed.

Lemma same_disk_paths (s s' : state) : same_disk s s' -> keeps_paths s s'.
Proof. intros H. apply keeps_disk_paths, same_disk_keeps, H. Qed.

Lemma steps_get_paths (E : Env) (D : descriptor E) (C : config) fuel out :
  steps keeps_paths (_get E D C fuel out).
Proof.
  unfold _get, download_all.
  frame keeps_paths_refl keeps_paths_trans
        ltac:(first [ apply (steps_weaken _ _ _ same_disk_paths), steps_single_zip_test_same
                    | apply (steps_weaken _ _ _ same_disk_paths), steps_files_same
                    | apply steps_unpack_paths
                    | apply steps_download_file_paths
                    | apply steps_check_checksums_paths ]).
Qed.

(** X17: a download deletes nothing.  With any options, and however
    [download] ends (normally, or with an exception at any point of the
    listing, the downloads, the unpacking or the checksum pass), every path
    that held a file before holds one after, and every directory is still a
    directory. *)
Theorem download_deletes_nothing (E : Env) (D : descriptor E) (C : config)
    (fuel : nat) (out : string) (s : state) :
  let r := download E D C fuel out s in
  r = OutOfFuel \/ keeps_paths s (state_of r s).
Proof.
  intros r.
  assert (H : steps keeps_paths (download E D C fuel out)).
  { unfold download.
    apply (steps_bind _ keeps_paths_trans); [apply steps_get_paths|].
    intros; apply steps_ret, keeps_paths_refl. }
  specialize (H s). fold r in H. destruct r; simpl; auto.
Qed.

(** ** The session *)

(** X18: the listing is computed once.  After an access to [files] that
    returned, every later access returns the same list from the attribute
    [_files]: no URL is resolved, no page is requested, the state is left as
    it is, and no fuel is needed. *)
Theorem files_computed_once (E : Env) (D : descriptor E) (C : config)
    (fuel : nat) (s : state) (l : list entry) (s1 : state) :
  files E D C fuel s = Ok l s1 ->
  attrs s1 !! "_files" = Some (AFiles l)
  /\ (forall fuel', files E D C fuel' s1 = Ok l s1)
  /\ files E D C 0 s1 = Ok l s1.
Proof.
  intros H. destruct (files_cached E D C fuel s l s1 H) as [Hattr Hagain].
  split; [exact Hattr|]. split; [exact Hagain | apply Hagain].
Qed.

Lemma files_computed_once_witness :
  exists s1,
    files Demo.env Demo.desc (Demo.conf "https://repo.org/dataset/ds1") 3 Demo.start
    = Ok demo_listing s1
    /\ files Demo.env Demo.desc (Demo.conf "https://repo.org/dataset/ds1") 0 s1
       = Ok demo_listing s1.
Proof.
  pose (first := files Demo.env Demo.desc (Demo.conf "https://repo.org/dataset/ds1") 3
                   Demo.start).
  assert (Hfirst : first = Ok demo_listing (state_of first Demo.start)).
  { vm_compute. reflexivity. }
  exists (state_of first Demo.start). split; [exact Hfirst|].
  apply (files_computed_once Demo.env Demo.desc (Demo.conf "https://repo.org/dataset/ds1")
           3 Demo.start demo_listing _ Hfirst).
Defined.

(** X19: [_parse_url] fails with [ValueError] only.  For a [_is_url] that
    answers, a URL that is no string, that is no URL, that the pattern does
    not match, or a class without pattern all end in [ValueError] (what the
    search raises is turned into it); and a result is the [groupdict] of a
    match of [REGEXP_ID] on a string that is a URL. *)
Theorem parse_url_raises_only_value_error (E : Env) (D : descriptor E) (url : value) :
  (forall u, url = VStr u -> exists b, _is_url E u = Return b) ->
  match _parse_url E D url with
  | Return groups =>
      exists u pattern,
        url = VStr u /\ _is_url E u = Return true /\ REGEXP_ID D = Some pattern
        /\ re_search_groupdict E pattern u = Return (Some groups)
  | Raise e => exists msg, e = ValueError msg
  end.
Proof.
  intros Hurl. unfold _parse_url.
  destruct url as [| | |u| |]; try (eexists; reflexivity).
  destruct (Hurl u eq_refl) as [b Hb]. rewrite Hb. cbn [obind].
  destruct b; [|eexists; reflexivity].
  destruct (REGEXP_ID D) as [pattern|]; [|eexists; reflexivity].
  destruct (re_search_groupdict E pattern u) as [[groups|]|e] eqn:Hsearch;
    cbn [obind try_except]; try (eexists; reflexivity).
  exists u, pattern. auto.
Qed.

Lemma parse_url_raises_only_value_error_witness :
  exists msg,
    _parse_url Demo.env Demo.desc (VStr "https://repo.org/other/ds1")
    = Raise (ValueError msg).
Proof.
  pose proof (parse_url_raises_only_value_error Demo.env Demo.desc
                (VStr "https://repo.org/other/ds1")
                (fun u _ => ex_intro _ (String.prefix "https://" u) eq_refl)) as H.
  change (_parse_url Demo.env Demo.desc (VStr "https://repo.org/other/ds1"))
    with (@Raise (gmap string value) (ValueError "Failed to parse URL")) in H.
  destruct H as [msg Hmsg]. exists msg. rewrite <- Hmsg. reflexivity.
Defined.

(** X20: a resolution that fails caches nothing.  When [_get_url] or
    [_parse_url] raises, [_params] raises the same exception and sets no
    attribute: the session is as before, but for the record of the calls. *)
Theorem failed_resolution_caches_nothing (E : Env) (D : descriptor E) (C : config)
    (s : state) :
  attrs s !! "__params" = None ->
  (forall e, _get_url E (resource C) = Raise e ->
     _params E D C s = Exc e (add_events s [EvCall "_get_url"]))
  /\ (forall url e,
        _get_url E (resource C) = Return url ->
        _parse_url E D url = Raise e ->
        _params E D C s = Exc e (add_events s [EvCall "_get_url"; EvCall "_parse_url"])).
Proof.
  intros Hfresh. split.
  - intros e Hurl. unfold _params, bind, hasattr. rewrite Hfresh.
    rewrite bool_decide_eq_false_2 by (intros [x Hx]; discriminate).
    unfold emit. rewrite Hurl. reflexivity.
  - intros url e Hurl Hparse. unfold _params, bind, hasattr. rewrite Hfresh.
    rewrite bool_decide_eq_false_2 by (intros [x Hx]; discriminate).
    unfold emit. rewrite Hurl. cbn [lift ret]. rewrite Hparse.
    unfold add_events. cbn [lift raise trace attrs fs_files fs_dirs].
    rewrite <- app_assoc. reflexivity.
Qed.

Lemma failed_resolution_caches_nothing_witness :
  _params Demo.env Demo.desc demo_conf_unknown Demo.start
  = Exc (ValueError "Failed to parse URL")
        (add_events Demo.start [EvCall "_get_url"; EvCall "_parse_url"]).
Proof.
  apply (proj2 (failed_resolution_caches_nothing Demo.env Demo.desc demo_conf_unknown
                  Demo.start eq_refl) (VStr "https://repo.org/other/ds1")
           (ValueError "Failed to parse URL") eq_refl eq_refl).
Defined.

Lemma failing_steps (R : state -> state -> Prop) {A} (m : M A) :
  steps R m -> failing R m.
Proof. intros H s e s' Hm. specialize (H s). rewrite Hm in H. exact H. Qed.

Lemma failing_bind (R : state -> state -> Prop) {A B} (m : M A) (k : A -> M B) :
  (forall s1 s2 s3, R s1 s2 -> R s2 s3 -> R s1 s3) ->
  steps R m -> (forall a, failing R (k a)) -> failing R (bind m k).
Proof.
  intros Htrans Hm Hk s e s' Hrun. unfold bind in Hrun. specialize (Hm s).
  destruct (m s) as [a s1|e1 s1|]; [|injection Hrun as <- <-; exact Hm|discriminate].
  exact (Htrans _ _ _ Hm (Hk a s1 e s' Hrun)).
Qed.

Lemma keeps_slot_refl (name : string) (s : state) : keeps_slot name s s.
Proof. reflexivity. Qed.

Lemma keeps_slot_trans (name : string) (s1 s2 s3 : state) :
  keeps_slot name s1 s2 -> keeps_slot name s2 s3 -> keeps_slot name s1 s3.
Proof. unfold keeps_slot. congruence. Qed.

Lemma steps_emit_slot (name : string) (ev : event) : steps (keeps_slot name) (emit ev).
Proof. intros s. reflexivity. Qed.

Lemma steps_params_slot (E : Env) (D : descriptor E) (C : config) :
  steps (keeps_slot "_files") (_params E D C).
Proof.
  assert (Hset : forall a, steps (keeps_slot "_files") (setattr (mangle "__params") a)).
  { intros a s. unfold keeps_slot. cbn [setattr attrs].
    apply lookup_insert_ne. discriminate. }
  unfold _params.
  frame (keeps_slot_refl "_files") (keeps_slot_trans "_files")
        ltac:(first [ apply steps_emit_slot | apply Hset
                    | apply (steps_reads _ _ (keeps_slot_refl "_files") (reads_hasattr _))
                    | apply (steps_reads _ _ (keeps_slot_refl "_files") (reads_getattr _)) ]).
Qed.

Lemma steps_traversal_slot (E : Env) (D : descriptor E) (fuel : nat) url folder base :
  steps (keeps_slot "_files") (_get_files_recursive E D fuel url folder base).
Proof.
  apply (steps_weaken only_requests); [|apply steps_traversal].
  intros a b (Ha & _). unfold keeps_slot. rewrite Ha. reflexivity.
Qed.

(** X21: a listing that fails is not cached.  When an access to [files]
    raises (the URL is not recognised, a page cannot be fetched, a record
    cannot be read), the attribute [_files] is still absent and the disk is
    as before, so the next access starts the listing again. *)
Theorem failed_listing_is_not_cached (E : Env) (D : descriptor E) (C : config)
    (fuel : nat) (s : state) (e : exn) (s1 : state) :
  attrs s !! "_files" = None ->
  files E D C fuel s = Exc e s1 ->
  attrs s1 !! "_files" = None /\ same_disk s s1.
Proof.
  intros Hfresh Hrun. split.
  - enough (HR : keeps_slot "_files" s s1) by (unfold keeps_slot in HR; congruence).
    revert Hrun. unfold files. unfold bind at 1, hasattr. rewrite Hfresh.
    rewrite bool_decide_eq_false_2 by (intros [x Hx]; discriminate).
    clear Hfresh. revert s e s1.
    change (failing (keeps_slot "_files")
              (emit (EvCall "_get_url");;;
               let* url := lift (_get_url E (resource C)) in
               let* uri := lift (match url with
                                 | VStr u => urlparse E u
                                 | _ => Raise TypeError
                                 end) in
               let* template := lift (match API_URL_META D with
                                      | Some t => Return t
                                      | None => Raise AttributeError
                                      end) in
               let* p := _params E D C in
               let* meta_url := lift (str_format E template (API_URL D)
                                        (fst uri +:+ "://" +:+ snd uri) p) in
               let* l := _get_files_recursive E D fuel (VStr meta_url) VNone
                           (Some (fst uri +:+ "://" +:+ snd uri)) in
               setattr (mangle "_files") (AFiles l);;;
               let* a := getattr (mangle "_files") in
               match a with AFiles l => ret l | _ => raise TypeError end)).
    repeat (apply (failing_bind _ _ _ (keeps_slot_trans "_files"));
            [ first [ apply steps_emit_slot
                    | apply (steps_lift _ (keeps_slot_refl "_files"))
                    | apply steps_params_slot
                    | apply steps_traversal_slot ]
            | intros ? ]).
    intros s e s1 Hrun. exfalso. revert Hrun.
    unfold bind, setattr, getattr. cbn [attrs].
    change (mangle "_files") with "_files". rewrite lookup_insert_eq. discriminate.
  - pose proof (steps_files_same E D C fuel s) as H. rewrite Hrun in H. exact H.
Qed.

Lemma failed_listing_is_not_cached_witness :
  let run := files Demo.env Demo.desc demo_conf_gone 3 Demo.start in
  run = Exc HTTPError (state_of run Demo.start)
  /\ attrs (state_of run Demo.start) !! "_files" = None.
Proof.
  intros run.
  assert (Hrun : run = Exc HTTPError (state_of run Demo.start)).
  { vm_compute. reflexivity. }
  split; [exact Hrun|].
  exact (proj1 (failed_listing_is_not_cached Demo.env Demo.desc demo_conf_gone 3
                  Demo.start _ _ eq_refl Hrun)).
Defined.

(** ** The orchestrator, continued *)

Lemma bind_same {A B} (m : M A) (k : A -> M B) s s1 :
  m s = m s1 -> bind m k s = bind m k s1.
Proof. unfold bind. intros ->. reflexivity. Qed.

Lemma single_zip_test_after_listing (E : Env) (D : descriptor E) (C : config)
    fuel s l s1 :
  files E D C fuel s = Ok l s1 ->
  single_zip_test E D C fuel s = single_zip_test E D C fuel s1.
Proof.
  intros Hfiles. destruct (files_cached E D C fuel s l s1 Hfiles) as [_ Hagain].
  unfold single_zip_test.
  rewrite (bind_step _ _ _ _ _ Hfiles), (bind_step _ _ _ _ _ (Hagain fuel)).
  reflexivity.
Qed.

Lemma get_after_listing (E : Env) (D : descriptor E) (C : config) fuel out s l s1 :
  files E D C fuel s = Ok l s1 ->
  _get E D C fuel out s = _get E D C fuel out s1.
Proof.
  intros Hfiles. unfold _get. apply bind_same.
  apply (single_zip_test_after_listing E D C fuel s l s1 Hfiles).
Qed.

Lemma single_zip_test_short (E : Env) (D : descriptor E) (C : config) fuel s l s1 :
  files E D C fuel s = Ok l s1 ->
  List.length l <> 1%nat ->
  single_zip_test E D C fuel s = Ok false s1.
Proof.
  intros Hfiles Hlen. unfold single_zip_test.
  rewrite (bind_step _ _ _ _ _ Hfiles).
  destruct (Nat.eqb_spec (List.length l) 1); [contradiction|reflexivity].
Qed.

(** X22: only a listing of exactly one entry can be unpacked.  When the
    listing has no entry or more than one, [_get] takes the second route
    whatever the entries are called: starting from the state the listing
    left, it downloads the entries one by one in the order of the listing
    and then runs the checksum pass if [checksum] is on.  The listing is
    computed once for the three accesses. *)
Theorem only_single_entry_is_unpacked (E : Env) (D : descriptor E) (C : config)
    (fuel : nat) (out : string) (s : state) (l : list entry) (s1 : state) :
  files E D C fuel s = Ok l s1 ->
  List.length l <> 1%nat ->
  _get E D C fuel out s
  = (let* files_info :=
       for_each
         (fun files_info f =>
            download_file E C (f_link f) out (f_name f) (f_size f) (f_hash f)
                          (f_hash_type f);;;
            ret (files_info ++ [f]))
         l [] in
     when (checksum C) (_check_checksums E out files_info)) s1.
Proof.
  intros Hfiles Hlen.
  destruct (files_cached E D C fuel s l s1 Hfiles) as [_ Hagain].
  unfold _get.
  rewrite (bind_step _ _ _ _ _ (single_zip_test_short E D C fuel s l s1 Hfiles Hlen)).
  cbv iota. unfold download_all.
  unfold bind at 1 2. rewrite (Hagain fuel). reflexivity.
Qed.

Lemma only_single_entry_is_unpacked_witness :
  let listed := files Demo.env Demo.desc (Demo.conf "https://repo.org/dataset/ds1") 3
                  Demo.start in
  _get Demo.env Demo.desc (Demo.conf "https://repo.org/dataset/ds1") 3 "out" Demo.start
  = (let* files_info :=
       for_each
         (fun files_info f =>
            download_file Demo.env (Demo.conf "https://repo.org/dataset/ds1")
                          (f_link f) "out" (f_name f) (f_size f) (f_hash f)
                          (f_hash_type f);;;
            ret (files_info ++ [f]))
         demo_listing [] in
     when false (_check_checksums Demo.env "out" files_info))
      (state_of listed Demo.start).
Proof.
  intros listed.
  assert (Hlisted : listed = Ok demo_listing (state_of listed Demo.start)).
  { vm_compute. reflexivity. }
  apply (only_single_entry_is_unpacked Demo.env Demo.desc
           (Demo.conf "https://repo.org/dataset/ds1") 3 "out" Demo.start demo_listing
           (state_of listed Demo.start) Hlisted).
  vm_compute. discriminate.
Defined.

(** X23: a listing of one entry needs a link that is a string.  When the
    listing has exactly one entry and its link is not a string (the class
    declares no link path, or the record has none), [_get] raises
    [AttributeError] right after the listing: the test for an archive calls
    [endswith] on the link before it looks at the name or at [unzip], so
    this happens with every option, and nothing is downloaded. *)
Theorem single_entry_needs_string_link (E : Env) (D : descriptor E) (C : config)
    (fuel : nat) (out : string) (s : state) (e : entry) (s1 : state) :
  files E D C fuel s = Ok [e] s1 ->
  (forall l, f_link e <> VStr l) ->
  _get E D C fuel out s = Exc AttributeError s1.
Proof.
  intros Hfiles Hlink.
  destruct (files_cached E D C fuel s [e] s1 Hfiles) as [_ Hagain].
  rewrite (get_after_listing E D C fuel out s [e] s1 Hfiles).
  unfold _get, single_zip_test.
  unfold bind at 1 2. rewrite (Hagain fuel). cbn [List.length Nat.eqb].
  unfold bind at 1. rewrite (Hagain fuel). cbn [index0 lift ret].
  unfold bind at 1 2. change (ret e s1) with (Ok e s1). cbv beta iota.
  destruct (f_link e) as [| | |l| |] eqn:Hl; try reflexivity.
  exfalso. exact (Hlink l eq_refl).
Qed.

Lemma single_entry_needs_string_link_witness :
  let run := _get Demo.env linkless_desc demo_conf_linkless 3 "out" Demo.start in
  run = Exc AttributeError (state_of run Demo.start)
  /\ same_disk Demo.start (state_of run Demo.start).
Proof.
  intros run.
  pose (listed := files Demo.env linkless_desc demo_conf_linkless 3 Demo.start).
  assert (Hlisted : listed
                    = Ok [ {| f_link := VNone; f_name := VStr "data.zip";
                              f_size := VInt 99; f_hash := VNone;
                              f_hash_type := VNone |} ]
                         (state_of listed Demo.start)).
  { vm_compute. reflexivity. }
  pose proof (single_entry_needs_string_link Demo.env linkless_desc demo_conf_linkless
                3 "out" Demo.start _ _ Hlisted) as H.
  assert (Hrun : run = Exc AttributeError (state_of listed Demo.start)).
  { apply H. intros l Hl. discriminate. }
  rewrite Hrun. split; [reflexivity|].
  split; vm_compute; reflexivity.
Defined.

Lemma cached_stays_refl (s : state) : cached_stays s s.
Proof. intros l H. exact H. Qed.

Lemma cached_stays_trans (s1 s2 s3 : state) :
  cached_stays s1 s2 -> cached_stays s2 s3 -> cached_stays s1 s3.
Proof. intros H1 H2 l H. apply H2, H1, H. Qed.

Lemma outside_cached (T : string -> Prop) (s s' : state) :
  outside T s s' -> cached_stays s s'.
Proof. intros (Ha & _) l H. rewrite Ha. exact H. Qed.

Lemma steps_files_cached (E : Env) (D : descriptor E) (C : config) (fuel : nat) :
  steps cached_stays (files E D C fuel).
Proof.
  intros s. destruct (files E D C fuel s) as [l s'|e s'|] eqn:Hrun; [| |exact I];
    intros l0 Hl0; rewrite (files_again E D C fuel s l0 Hl0) in Hrun;
    [injection Hrun as _ <-; exact Hl0 | discriminate].
Qed.

Lemma steps_download_file_cached (E : Env) (C : config) link out name size h ht :
  steps cached_stays (download_file E C link out name size h ht).
Proof.
  apply (steps_weaken (outside (fun _ => True))); [apply outside_cached|].
  unfold download_file, fetch_and_write, write_with_progress, raise_for_status, report.
  frame (outside_refl (fun _ : string => True)) (outside_trans (fun _ : string => True))
        ltac:(first [ apply steps_emit_outside | apply steps_http_get_outside
                    | apply steps_mkdir_parents_outside | apply steps_path_exists_outside
                    | apply steps_write_file_outside; exact I
                    | apply steps_open_wb_outside; exact I
                    | apply steps_write_chunks_outside; exact I ]).
Qed.

Lemma steps_get_cached (E : Env) (D : descriptor E) (C : config) fuel out :
  steps cached_stays (_get E D C fuel out).
Proof.
  unfold _get, single_zip_test, download_all, _check_checksums.
  frame cached_stays_refl cached_stays_trans
        ltac:(first [ apply steps_files_cached
                    | apply steps_download_file_cached
                    | eapply (steps_weaken _ _ _ (outside_cached _)), steps_unpack_outside
                    | eapply (steps_weaken _ _ _ (outside_cached _)),
                             steps_checksum_report_outside
                    | apply (steps_weaken _ _ _ (outside_cached (fun _ => True))),
                            steps_emit_outside ]).
Qed.

(** X24: the result of [download] counts the listing without another
    request.  When [download] returns, the result carries the folder it was
    given, the listing that the download computed is the value of the
    attribute [_files], and [len] of the result is the length of that
    listing, from any fuel and leaving the state as it is. *)
Theorem len_after_download (E : Env) (D : descriptor E) (C : config)
    (fuel : nat) (out : string) (s : state) (r : DownloadResult) (s' : state) :
  download E D C fuel out s = Ok r s' ->
  result_folder r = out
  /\ exists l s1,
       files E D C fuel s = Ok l s1
       /\ attrs s' !! "_files" = Some (AFiles l)
       /\ forall fuel', DownloadResult_len E D C fuel' r s' = Ok (List.length l) s'.
Proof.
  intros Hrun. unfold download in Hrun.
  apply bind_ok in Hrun as ([] & s2 & Hget & Hret).
  apply ret_ok in Hret as [<- ->]. split; [reflexivity|].
  assert (Hlisted : exists l s1, files E D C fuel s = Ok l s1).
  { unfold _get, single_zip_test in Hget.
    apply bind_ok in Hget as (b & s3 & Htest & _).
    apply bind_ok in Htest as (l & s1 & Hfiles & _). eauto. }
  destruct Hlisted as (l & s1 & Hfiles). exists l, s1. split; [exact Hfiles|].
  destruct (files_cached E D C fuel s l s1 Hfiles) as [Hattr _].
  rewrite (get_after_listing E D C fuel out s l s1 Hfiles) in Hget.
  pose proof (steps_get_cached E D C fuel out s1) as Hkept. rewrite Hget in Hkept.
  specialize (Hkept l Hattr). split; [exact Hkept|].
  intros fuel'. unfold DownloadResult_len.
  rewrite (bind_step _ _ _ _ _ (files_again E D C fuel' s' l Hkept)). reflexivity.
Qed.

Lemma len_after_download_witness :
  let run := download Demo.env Demo.desc (Demo.conf "https://repo.org/dataset/ds1") 3
               "out" Demo.start in
  DownloadResult_len Demo.env Demo.desc (Demo.conf "https://repo.org/dataset/ds1") 0
    {| result_folder := "out" |} (state_of run Demo.start)
  = Ok 4%nat (state_of run Demo.start).
Proof.
  intros run.
  assert (Hrun : run = Ok {| result_folder := "out" |} (state_of run Demo.start)).
  { vm_compute. reflexivity. }
  destruct (len_after_download Demo.env Demo.desc (Demo.conf "https://repo.org/dataset/ds1")
              3 "out" Demo.start _ _ Hrun) as (_ & l & s1 & Hfiles & _ & Hlen).
  assert (Hl : l = demo_listing).
  { assert (H4 : files Demo.env Demo.desc (Demo.conf "https://repo.org/dataset/ds1") 3
                   Demo.start
                 = Ok demo_listing
                      (state_of (files Demo.env Demo.desc
                                   (Demo.conf "https://repo.org/dataset/ds1") 3 Demo.start)
                                Demo.start)).
    { vm_compute. reflexivity. }
    rewrite H4 in Hfiles. injection Hfiles as <- _. reflexivity. }
  rewrite (Hlen 0%nat), Hl. reflexivity.
Defined.

(** X25: a dry run downloads nothing.  With [print_only] on and [checksum]
    off, when the listing has not exactly one entry or [unzip] is off,
    [_get] needs no fuel beyond the listing, and after the listing it only
    prints and logs: no request for a file, no directory, no write; the disk
    is as it was before the call. *)
Theorem dry_run_downloads_nothing (E : Env) (D : descriptor E) (C : config)
    (fuel : nat) (out : string) (s : state) (l : list entry) (s1 : state) :
  print_only C = true ->
  checksum C = false ->
  files E D C fuel s = Ok l s1 ->
  List.length l <> 1%nat \/ unzip C = false ->
  let r := _get E D C fuel out s in
  r <> OutOfFuel
  /\ only_messages s1 (state_of r s)
  /\ same_disk s (state_of r s).
Proof.
  intros Hprint Hchecksum Hfiles Hroute r.
  assert (Hnot : single_zip_test E D C fuel s1 <> Ok true s1).
  { rewrite <- (single_zip_test_after_listing E D C fuel s l s1 Hfiles).
    destruct Hroute as [Hlen|Hunzip].
    - rewrite (single_zip_test_short E D C fuel s l s1 Hfiles Hlen). discriminate.
    - intros Htest.
      pose proof (single_zip_test_needs_unzip E D C fuel s true s1 Hunzip Htest).
      discriminate. }
  destruct (dry_run_only_prints E D C fuel out s l s1 Hprint Hchecksum Hfiles Hnot)
    as [Hfuel Hquiet].
  subst r. rewrite (get_after_listing E D C fuel out s l s1 Hfiles).
  split; [exact Hfuel|].
  assert (Hstate : state_of (_get E D C fuel out s1) s = state_of (_get E D C fuel out s1) s1).
  { destruct (_get E D C fuel out s1); [reflexivity|reflexivity|contradiction]. }
  rewrite Hstate. split; [exact Hquiet|].
  pose proof (steps_files_same E D C fuel s) as Hsame. rewrite Hfiles in Hsame.
  destruct Hquiet as (_ & Hf & Hd & _). destruct Hsame as [Hf1 Hd1].
  split; congruence.
Qed.

Lemma dry_run_downloads_nothing_witness :
  let listed := files Demo.env Demo.desc demo_conf_dry_run 3 Demo.start in
  let r := _get Demo.env Demo.desc demo_conf_dry_run 3 "out" Demo.start in
  only_messages (state_of listed Demo.start) (state_of r Demo.start)
  /\ same_disk Demo.start (state_of r Demo.start).
Proof.
  intros listed r.
  assert (Hlisted : listed = Ok demo_listing (state_of listed Demo.start)).
  { vm_compute. reflexivity. }
  assert (Hlen : List.length demo_listing <> 1%nat) by (vm_compute; discriminate).
  exact (proj2 (dry_run_downloads_nothing Demo.env Demo.desc demo_conf_dry_run 3 "out"
                  Demo.start demo_listing (state_of listed Demo.start)
                  eq_refl eq_refl Hlisted (or_introl Hlen))).
Defined.
